(** * graft: a shallow embedding of the turn engine, the cache planner,
      the sandboxed tool executor and the tool-rate limiter of [graft.py]

    The definitions come first, in the order of the Python source:

    - [PyStr]         Python [str] values and the string operations the
                      program relies on;
    - [Py]            synchronous exceptions and the state-and-exception
                      monad in which effectful methods are written;
    - [Fs]            the POSIX file system seen through [pathlib];
    - [ToolExecutor]  the class of the same name;
    - [Cache]         messages, and [prepare_messages_for_cache] on message
                      values;
    - [RateLimiter]   [GraftSession._check_tool_rate];
    - [Session]       [GraftSession._serialize_content] and
                      [GraftSession.send_message];
    - [Heap]          [prepare_messages_for_cache] on a store of mutable
                      objects;
    - [Demo]          a small project, a scripted transport and a store
                      for the examples;
    - [Frame], [Turn], [Window], [Request]
                      vocabulary for what a call, a turn and a session
                      leave of the file system, the conversation and the
                      rate window;
    - [Conversation]  [Conversation.token_estimate],
                      [GraftSession._parse_compressed_transcript] and
                      [convert_socketteer_format];
    - [Settings]      [GraftSession._build_tools_list] and the commands
                      that change the tool settings;
    - [Cases]         further cases for the examples.

    The properties follow, one module per component:
    [RateLimiterFacts], [FsFacts], [ToolExecutorFacts], [SessionFacts],
    [CacheFacts] and [HeapFacts], then [SandboxFacts], [PlannerFacts],
    [TurnFacts], [WindowFacts], [ConversationFacts], [ResolveFacts] and
    [SettingsFacts]. *)

From Stdlib Require Import String Ascii List ZArith QArith Lia Lqa Bool.
From Stdlib Require Import DecimalString Sorted.
From stdpp Require Import base option list strings gmap fin_maps.

Local Open Scope string_scope.
Local Open Scope list_scope.

(* ===================================================================== *)
(** * Python strings *)
(* ===================================================================== *)

(** A Python [str] is a sequence of Unicode code points.  It is represented
    here by its UTF-8 encoding, held in a Rocq [string] (a sequence of
    bytes): concatenation, equality and code-point order agree with those of
    the byte strings, [str.encode('utf-8')] is the identity on
    representations, and [len] counts code points, that is the bytes that
    are not continuation bytes. *)
Module PyStr.

Definition byte_of (c : ascii) : N := N_of_ascii c.

(** [0x80 <= b <= 0xBF] *)
Definition is_cont (c : ascii) : bool :=
  (128 <=? byte_of c)%N && (byte_of c <=? 191)%N.

Definition in_range (lo hi : N) (c : ascii) : bool :=
  (lo <=? byte_of c)%N && (byte_of c <=? hi)%N.

(** [len(s)] *)
Fixpoint len (s : string) : nat :=
  match s with
  | EmptyString => 0
  | String c s' => if is_cont c then len s' else S (len s')
  end.

(** Number of bytes of [s.encode('utf-8')]. *)
Definition byte_len (s : string) : nat := String.length s.

Definition is_ascii_char (c : ascii) : bool := (byte_of c <? 128)%N.


(** Well-formed UTF-8 (Unicode 15, table 3-7): what
    [bytes.decode('utf-8')] accepts. *)
Fixpoint utf8_valid (s : string) : bool :=
  match s with
  | EmptyString => true
  | String a r =>
      if is_ascii_char a then utf8_valid r
      else if in_range 194 223 a then
        match r with
        | String b r' => is_cont b && utf8_valid r'
        | _ => false
        end
      else if in_range 224 239 a then
        match r with
        | String b (String c r') =>
            (if (byte_of a =? 224)%N then in_range 160 191 b
             else if (byte_of a =? 237)%N then in_range 128 159 b
             else is_cont b)
            && is_cont c && utf8_valid r'
        | _ => false
        end
      else if in_range 240 244 a then
        match r with
        | String b (String c (String d r')) =>
            (if (byte_of a =? 240)%N then in_range 144 191 b
             else if (byte_of a =? 244)%N then in_range 128 143 b
             else is_cont b)
            && is_cont c && is_cont d && utf8_valid r'
        | _ => false
        end
      else false
  end.

(** [str(n)] for a non-negative integer. *)
Definition of_nat (n : nat) : string :=
  NilZero.string_of_uint (Nat.to_uint n).

(** [str(z)] for an integer. *)
Definition of_Z (z : Z) : string :=
  NilZero.string_of_int (Z.to_int z).

Definition cr : ascii := ascii_of_nat 13.
Definition lf : ascii := ascii_of_nat 10.
Definition nul : ascii := ascii_of_nat 0.
Definition slash : ascii := "/"%char.

(** Universal-newline translation applied by a text-mode read opened with
    [newline=None]: ["\r\n"] and a lone ["\r"] both become ["\n"]. *)
Fixpoint universal_newlines (s : string) : string :=
  match s with
  | EmptyString => EmptyString
  | String c r =>
      if Ascii.eqb c cr then
        match r with
        | String d r' =>
            if Ascii.eqb d lf then String lf (universal_newlines r')
            else String lf (universal_newlines r)
        | EmptyString => String lf EmptyString
        end
      else String c (universal_newlines r)
  end.

Fixpoint contains (c : ascii) (s : string) : bool :=
  match s with
  | EmptyString => false
  | String d r => Ascii.eqb d c || contains c r
  end.

(** [s.split(sep)] for a one-character separator. *)
Fixpoint split (sep : ascii) (s : string) : list string :=
  match s with
  | EmptyString => [EmptyString]
  | String c r =>
      if Ascii.eqb c sep then EmptyString :: split sep r
      else match split sep r with
           | w :: ws => String c w :: ws
           | [] => [String c EmptyString]
           end
  end.

(** [sep.join(l)] *)
Fixpoint join (sep : string) (l : list string) : string :=
  match l with
  | [] => EmptyString
  | [x] => x
  | x :: l' => x ++ sep ++ join sep l'
  end.

Definition starts_with_slash (s : string) : bool :=
  match s with
  | String c _ => Ascii.eqb c slash
  | EmptyString => false
  end.

(** [repr(s)] of a [str] without quotes or escapes in it, as used for the
    argument of a [KeyError]. *)
Definition repr (s : string) : string := "'" ++ s ++ "'".

End PyStr.

(* ===================================================================== *)
(** * Exceptions and the effect monad *)
(* ===================================================================== *)

Module Py.

(** The classes of the synchronous exceptions the modelled code can meet.
    All of them derive from [Exception]; [OtherException] stands for any
    further subclass of [Exception] that is neither a [ValueError] nor an
    [OSError].  Asynchronous interrupts ([KeyboardInterrupt]) are not part
    of the embedding. *)
Inductive exc_class :=
  | ValueError
  | UnicodeDecodeError
  | KeyError
  | TypeError
  | RuntimeError
  | OSError
  | FileNotFoundError
  | FileExistsError
  | NotADirectoryError
  | IsADirectoryError
  | OtherException (name : string).

(** [type(e).__name__] *)
Definition class_name (c : exc_class) : string :=
  match c with
  | ValueError => "ValueError"
  | UnicodeDecodeError => "UnicodeDecodeError"
  | KeyError => "KeyError"
  | TypeError => "TypeError"
  | RuntimeError => "RuntimeError"
  | OSError => "OSError"
  | FileNotFoundError => "FileNotFoundError"
  | FileExistsError => "FileExistsError"
  | NotADirectoryError => "NotADirectoryError"
  | IsADirectoryError => "IsADirectoryError"
  | OtherException name => name
  end.

(** [isinstance(e, ValueError)] *)
Definition is_ValueError (c : exc_class) : bool :=
  match c with
  | ValueError | UnicodeDecodeError => true
  | _ => false
  end.

(** [isinstance(e, OSError)] *)
Definition is_OSError (c : exc_class) : bool :=
  match c with
  | OSError | FileNotFoundError | FileExistsError
  | NotADirectoryError | IsADirectoryError => true
  | _ => false
  end.

Definition is_FileNotFoundError (c : exc_class) : bool :=
  match c with FileNotFoundError => true | _ => false end.

Definition is_UnicodeDecodeError (c : exc_class) : bool :=
  match c with UnicodeDecodeError => true | _ => false end.

(** An exception object: its class and [str(e)]. *)
Record exn := Exn { exc_type : exc_class; exc_str : string }.

(** The outcome of a call: a returned value or a raised exception. *)
Inductive result (A : Type) :=
  | Ok (a : A)
  | Raise (e : exn).
Arguments Ok {A} a.
Arguments Raise {A} e.

(** A JSON value handed over by the remote model as a tool argument: a
    string, or anything else, of which the code can only observe the name
    of the Python type and the [str()] rendering. *)
Inductive pyval :=
  | VStr (s : string)
  | VNonStr (type_name : string) (rendering : string).

(** [str(v)], as an f-string formats [v]. *)
Definition format (v : pyval) : string :=
  match v with
  | VStr s => s
  | VNonStr _ r => r
  end.

(** Computations over a state [S] that may raise: the state reached when
    the exception is raised is kept, as in Python. *)
Definition M (S A : Type) : Type := S -> result A * S.

Definition ret {S A} (a : A) : M S A := fun s => (Ok a, s).
Definition raise {S A} (e : exn) : M S A := fun s => (Raise e, s).
Definition bind {S A B} (m : M S A) (k : A -> M S B) : M S B :=
  fun s => match m s with
           | (Ok a, s') => k a s'
           | (Raise e, s') => (Raise e, s')
           end.
Definition get {S} : M S S := fun s => (Ok s, s).
Definition put {S} (s : S) : M S unit := fun _ => (Ok tt, s).
Definition modify {S} (f : S -> S) : M S unit := fun s => (Ok tt, f s).

(** [try: m  except <handles>: h e]; an exception that the clause does
    not match propagates. *)
Definition try_except {S A} (m : M S A) (handles : exc_class -> bool)
    (h : exn -> M S A) : M S A :=
  fun s => match m s with
           | (Ok a, s') => (Ok a, s')
           | (Raise e, s') =>
               if handles (exc_type e) then h e s' else (Raise e, s')
           end.

(** [try: m  except <c1>: h1 e  except <c2>: h2 e]: the clauses are
    tried in order, and they guard the body only, not each other. *)
Definition try_except2 {S A} (m : M S A)
    (c1 : exc_class -> bool) (h1 : exn -> M S A)
    (c2 : exc_class -> bool) (h2 : exn -> M S A) : M S A :=
  fun s => match m s with
           | (Ok a, s') => (Ok a, s')
           | (Raise e, s') =>
               if c1 (exc_type e) then h1 e s'
               else if c2 (exc_type e) then h2 e s'
               else (Raise e, s')
           end.

(** [except Exception] *)
Definition any_Exception (c : exc_class) : bool := true.

(** [for x in l: ...] collecting one result per element. *)
Fixpoint for_in {S A B} (f : A -> M S B) (l : list A) : M S (list B) :=
  match l with
  | [] => ret []
  | x :: l' =>
      bind (f x) (fun y => bind (for_in f l') (fun ys => ret (y :: ys)))
  end.

End Py.

Declare Scope py_scope.
Delimit Scope py_scope with py.
Notation "x <- m ;; k" := (Py.bind m (fun x => k))
  (at level 100, m at next level, right associativity) : py_scope.
Notation "m ;;; k" := (Py.bind m (fun _ => k))
  (at level 100, right associativity) : py_scope.

(* ===================================================================== *)
(** * The file system *)
(* ===================================================================== *)

(** What [pathlib] and [os] show of a POSIX file system.  A path is the
    list of the components of an absolute path ([[]] is ["/"]); the file
    system maps the paths that exist to what is there.  Every system call
    is recorded in a trace, so that "this code did not touch the file
    system" can be stated. *)
Module Fs.
Import Py.

Inductive node :=
  | File (data : string)      (* the bytes of a regular file *)
  | Dir
  | Symlink (target : string).

Abbreviation path := (list string).

#[global] Instance node_eq_dec : EqDecision node.
Proof. solve_decision. Defined.

Inductive os_call :=
  | SysRealpath (s : string)
  | SysStat (p : path)
  | SysListdir (p : path)
  | SysMkdir (p : path)
  | SysRead (p : path)
  | SysWrite (p : path)
  | SysSpawn (command : pyval).

Record world := World {
  files : gmap path node;
  trace : list os_call
}.

Definition log (c : os_call) : M world unit :=
  modify (fun w => World (files w) (trace w ++ [c])).

Definition set_files (fs : gmap path node) : M world unit :=
  modify (fun w => World fs (trace w)).

(** [str(p)] *)
Definition render (p : path) : string := "/" ++ PyStr.join "/" p.

Definition components (s : string) : list string :=
  PyStr.split PyStr.slash s.

(** [p.parent] *)
Definition parent (p : path) : path := removelast p.

(** [os.readlink] where the path is a symbolic link. *)
Definition readlink (fs : gmap path node) (p : path) : option string :=
  match fs !! p with
  | Some (Symlink t) => Some t
  | _ => None
  end.

(** The number of links one resolution may follow before it is reported
    as a loop (Linux: [MAXSYMLINKS]). *)
Definition max_links : nat := 40.

Definition symlink_loop (p : path) : exn :=
  Exn RuntimeError ("Symlink loop from " ++ PyStr.repr (render p)).

(** [os.path.realpath(..., strict=False)], after [posixpath._joinrealpath]:
    the components still to walk are consumed from left to right over the
    canonical path [cur] built so far; an empty component and ["."] are
    skipped, [".."] drops the last component of [cur] (and stays at the
    root), a symbolic link is replaced by its target (walked from the root
    when absolute, from [cur] otherwise), and a component that does not
    exist is kept as it is.  A resolution that would follow more than
    [links] links is reported as a loop, for which [Path.resolve] raises
    [RuntimeError]. *)
Fixpoint realpath_from (links : nat) (fs : gmap path node)
    : path -> list string -> result path :=
  fix walk (cur : path) (rest : list string) {struct rest} : result path :=
    match rest with
    | [] => Ok cur
    | name :: rest' =>
        if String.eqb name EmptyString || String.eqb name "." then walk cur rest'
        else if String.eqb name ".." then walk (parent cur) rest'
        else
          let newpath := cur ++ [name] in
          match readlink fs newpath with
          | None => walk newpath rest'
          | Some target =>
              match links with
              | O => Raise (symlink_loop newpath)
              | S links' =>
                  realpath_from links' fs
                    (if PyStr.starts_with_slash target then [] else cur)
                    (components target ++ rest')
              end
          end
    end.

Definition realpath (fs : gmap path node) (parts : list string)
    : result path :=
  realpath_from max_links fs [] parts.

(** [os.stat]: what is at [p], through a symbolic link if [p] is one;
    [None] when nothing is there (which includes a dangling or looping
    link). *)
Definition stat (fs : gmap path node) (p : path) : option node :=
  match fs !! p with
  | Some (Symlink _) =>
      match realpath fs p with
      | Ok r => match fs !! r with
                | Some (Symlink _) => None
                | o => o
                end
      | Raise _ => None
      end
  | o => o
  end.

Definition is_dir_node (o : option node) : bool :=
  match o with Some Dir => true | _ => false end.

Definition is_file_node (o : option node) : bool :=
  match o with Some (File _) => true | _ => false end.

(** The canonical form of the absolute path written [s]: symbolic links
    followed, ["."] and [".."] eliminated.  A path with a NUL character in
    it is refused by the system calls. *)
Definition canonicalize (fs : gmap path node) (s : string) : result path :=
  if PyStr.contains PyStr.nul s
  then Raise (Exn ValueError "embedded null byte")
  else realpath fs (components s).

(** [Path(s).resolve()] *)
Definition resolve (s : string) : M world path :=
  (log (SysRealpath s) ;;;
   w <- get ;;
   match canonicalize (files w) s with
   | Ok p => ret p
   | Raise e => raise e
   end)%py.

(** [p.exists()] *)
Definition exists_ (p : path) : M world bool :=
  (log (SysStat p) ;;;
   w <- get ;;
   ret (match stat (files w) p with Some _ => true | None => false end))%py.

(** [p.is_dir()] *)
Definition is_dir (p : path) : M world bool :=
  (log (SysStat p) ;;; w <- get ;; ret (is_dir_node (stat (files w) p)))%py.

(** [p.is_file()] *)
Definition is_file (p : path) : M world bool :=
  (log (SysStat p) ;;; w <- get ;; ret (is_file_node (stat (files w) p)))%py.

Definition os_error (c : exc_class) (errno : string) (what : string)
    (p : path) : exn :=
  Exn c ("[Errno " ++ errno ++ "] " ++ what ++ ": " ++ PyStr.repr (render p)).

Definition ENOENT := os_error FileNotFoundError "2" "No such file or directory".
Definition EEXIST := os_error FileExistsError "17" "File exists".
Definition ENOTDIR := os_error NotADirectoryError "20" "Not a directory".
Definition EISDIR := os_error IsADirectoryError "21" "Is a directory".

(** The entry names of directory [p], in no particular order. *)
Definition entry_names (fs : gmap path node) (p : path) : list string :=
  omap (fun kv : path * node =>
          match last (fst kv) with
          | Some name =>
              if bool_decide (parent (fst kv) = p) then Some name else None
          | None => None
          end)
       (map_to_list fs).

Fixpoint insert_sorted (x : string) (l : list string) : list string :=
  match l with
  | [] => [x]
  | y :: l' => if String.leb x y then x :: l else y :: insert_sorted x l'
  end.

(** [sorted(...)] on the names of sibling paths: paths of one directory
    compare as their last components, by code point. *)
Definition sorted (l : list string) : list string :=
  fold_right insert_sorted [] l.

(** Where [p] leads: [p] itself, or the target of the link if [p] is a
    symbolic link that resolves. *)
Definition follow (fs : gmap path node) (p : path) : path :=
  match fs !! p with
  | Some (Symlink _) =>
      match realpath fs p with
      | Ok r => r
      | Raise _ => p
      end
  | _ => p
  end.

(** [os.listdir(p)] *)
Definition listdir (p : path) : M world (list string) :=
  (log (SysListdir p) ;;;
   w <- get ;;
   match stat (files w) p with
   | Some Dir => ret (entry_names (files w) (follow (files w) p))
   | Some _ => raise (ENOTDIR p)
   | None => raise (ENOENT p)
   end)%py.

(** [os.mkdir(p)] *)
Definition os_mkdir (p : path) : M world unit :=
  (log (SysMkdir p) ;;;
   w <- get ;;
   match p with
   | [] => raise (EEXIST p)
   | _ =>
     match stat (files w) (parent p) with
     | None => raise (ENOENT p)
     | Some Dir =>
         match files w !! p with
         | Some _ => raise (EEXIST p)
         | None => set_files (<[p := Dir]> (files w))
         end
     | Some _ => raise (ENOTDIR p)
     end
   end)%py.

(** The clause [except OSError: if not exist_ok or not self.is_dir(): raise]
    of [Path.mkdir], at [exist_ok=True]. *)
Definition unless_is_dir (p : path) (e : exn) : M world unit :=
  (d <- is_dir p ;; if d : bool then ret tt else raise e)%py.

(** [p.mkdir(parents=False, exist_ok=True)] *)
Definition mkdir_leaf (p : path) : M world unit :=
  try_except2 (os_mkdir p)
    is_FileNotFoundError (fun e => raise e)
    is_OSError (unless_is_dir p).

(** [p.mkdir(parents=True, exist_ok=True)], on the reversed path so that
    the recursion on [p.parent] is structural. *)
Fixpoint mkdir_parents_rev (rp : list string) : M world unit :=
  let p := rev rp in
  try_except2 (os_mkdir p)
    is_FileNotFoundError
      (fun e =>
         match rp with
         | [] => raise e                      (* self.parent == self *)
         | _ :: rparent =>
             (mkdir_parents_rev rparent ;;; mkdir_leaf p)%py
         end)
    is_OSError (unless_is_dir p).

Definition mkdir_parents (p : path) : M world unit :=
  mkdir_parents_rev (rev p).

(** [p.read_text(encoding='utf-8')] *)
Definition read_text (p : path) : M world string :=
  (log (SysRead p) ;;;
   w <- get ;;
   match stat (files w) p with
   | Some (File data) =>
       if PyStr.utf8_valid data then ret (PyStr.universal_newlines data)
       else raise (Exn UnicodeDecodeError
                     "'utf-8' codec can't decode bytes")
   | Some _ => raise (EISDIR p)
   | None => raise (ENOENT p)
   end)%py.

(** The file that [open(p, 'w')] writes: [p], or where [p] points to if it
    is a symbolic link. *)
Definition write_target (fs : gmap path node) (p : path) : result path :=
  match fs !! p with
  | Some (Symlink _) =>
      match realpath fs p with
      | Ok q => Ok q
      | Raise _ =>
          Raise (os_error OSError "40" "Too many levels of symbolic links" p)
      end
  | _ => Ok p
  end.

(** [p.write_text(data, encoding='utf-8')] *)
Definition write_text (p : path) (data : pyval) : M world unit :=
  match data with
  | VNonStr ty _ => raise (Exn TypeError ("data must be str, not " ++ ty))
  | VStr s =>
     (log (SysWrite p) ;;;
      w <- get ;;
      match write_target (files w) p with
      | Raise e => raise e
      | Ok q =>
          match files w !! q with
          | Some Dir => raise (EISDIR p)
          | _ =>
            match stat (files w) (parent q) with
            | Some Dir => set_files (<[q := File s]> (files w))
            | Some _ => raise (ENOTDIR p)
            | None => raise (ENOENT p)
            end
          end
      end)%py
  end.

(** ** Vocabulary of the specification *)

(** Every entry of the file system lives in a directory, and the root is
    a directory. *)
Definition well_formed (fs : gmap path node) : bool :=
  bool_decide (fs !! [] = Some Dir)
  && bool_decide (map_Forall (fun (k : path) (_ : node) =>
                    k = [] \/ fs !! parent k = Some Dir) fs).







End Fs.

(* ===================================================================== *)
(** * class ToolExecutor *)
(* ===================================================================== *)

Module ToolExecutor.
Import Py Fs.
Local Open Scope string_scope.

(** What [subprocess.run(command, shell=True, cwd=..., capture_output=True,
    text=True, timeout=30)] can come back with. *)
Inductive proc_outcome :=
  | Completed (stdout stderr : string) (returncode : Z)
  | TimeoutExpired
  | SpawnError (e : exn).

Definition nl : string := String PyStr.lf EmptyString.

Definition timeout_message : string :=
  "Error: Command timed out and was killed after 30 seconds. Note: any child processes spawned by this command may still be running (check with `pgrep` or `ps aux`). For long-running commands, use `screen -dmS name command` to fully detach, then `screen -r name` to check on it.".

(** [tool_input[key]] *)
Definition getitem (tool_input : gmap string pyval) (key : string)
    : M world pyval :=
  match tool_input !! key with
  | Some v => ret v
  | None => raise (Exn KeyError (PyStr.repr key))
  end.

Definition nonempty (s : string) : bool :=
  match s with EmptyString => false | _ => true end.

Section Executor.

(** The operating system running a shell command in directory [cwd]: the
    outcome of the run and the file system it leaves. *)
Variable subprocess_run :
  pyval -> path -> gmap path node -> proc_outcome * gmap path node.

(** [self.project_root], resolved when the executor is constructed. *)
Variable project_root : path.

(** [self.project_root / path_str] as a string: an absolute right operand
    replaces the left one. *)
Definition joinpath (s : string) : string :=
  if PyStr.starts_with_slash s then s
  else render project_root ++ "/" ++ s.

Definition access_denied (s : string) : exn :=
  Exn ValueError ("Access denied: path '" ++ s ++ "' is outside project root").

Definition _safe_path (path_str : pyval) : M world path :=
  match path_str with
  | VNonStr ty _ =>
      raise (Exn TypeError
        ("unsupported operand type(s) for /: 'PosixPath' and '" ++ ty ++ "'"))
  | VStr s =>
      (requested <- resolve (joinpath s) ;;
       (* requested.relative_to(self.project_root) *)
       if bool_decide (project_root `prefix_of` requested)
       then ret requested
       else raise (access_denied s))%py
  end.

Definition _list_dir (path_str : pyval) : M world string :=
  (path <- _safe_path path_str ;;
   e <- exists_ path ;;
   if negb e then
     ret ("Error: Directory '" ++ format path_str ++ "' does not exist")
   else
   d <- is_dir path ;;
   if negb d then
     ret ("Error: '" ++ format path_str ++ "' is not a directory")
   else
   names <- listdir path ;;
   entries <- for_in (fun name =>
                      d <- is_dir (path ++ [name])%list ;;
                      ret ((if d : bool then "[d] " else "    ") ++ name))
                   (sorted names) ;;
   match entries with
   | [] => ret "(empty directory)"
   | _ => ret (PyStr.join nl entries)
   end)%py.

Definition _read_file (path_str : pyval) : M world string :=
  (path <- _safe_path path_str ;;
   e <- exists_ path ;;
   if negb e then
     ret ("Error: File '" ++ format path_str ++ "' does not exist")
   else
   f <- is_file path ;;
   if negb f then
     ret ("Error: '" ++ format path_str ++ "' is not a file")
   else
   try_except (read_text path) is_UnicodeDecodeError
     (fun _ => ret ("Error: '" ++ format path_str ++ "' is not a text file")))%py.

(** [len(content)] *)
Definition len (content : pyval) : M world nat :=
  match content with
  | VStr s => ret (PyStr.len s)
  | VNonStr ty _ =>
      raise (Exn TypeError ("object of type '" ++ ty ++ "' has no len()"))
  end.

Definition _write_file (path_str content : pyval) : M world string :=
  (path <- _safe_path path_str ;;
   (* Create parent directories if needed *)
   mkdir_parents (parent path) ;;;
   write_text path content ;;;
   n <- len content ;;
   ret ("Successfully wrote " ++ PyStr.of_nat n ++ " bytes to "
        ++ format path_str))%py.

(** [subprocess.run(command, shell=True, cwd=self.project_root, ...)] *)
Definition run (command : pyval) : M world proc_outcome :=
  (log (SysSpawn command) ;;;
   w <- get ;;
   let '(o, fs') := subprocess_run command project_root (files w) in
   set_files fs' ;;;
   ret o)%py.

Definition _shell_exec (command : pyval) : M world string :=
  (o <- run command ;;
   match o with
   | Completed stdout stderr returncode =>
       let output :=
         app (if nonempty stdout then ["stdout:" ++ nl ++ stdout] else [])
        (app (if nonempty stderr then ["stderr:" ++ nl ++ stderr] else [])
             (if negb (returncode =? 0)%Z
              then ["(exit code: " ++ PyStr.of_Z returncode ++ ")"]
              else []))
       in
       match output with
       | [] => ret "(no output)"
       | _ => ret (PyStr.join nl output)
       end
   | TimeoutExpired => ret timeout_message
   | SpawnError e =>
       ret ("Error: " ++ class_name (exc_type e) ++ ": " ++ exc_str e)
   end)%py.

(** The body of the [try] statement of [execute]. *)
Definition dispatch (tool_name : string) (tool_input : gmap string pyval)
    : M world string :=
  if String.eqb tool_name "list_dir" then
    (p <- getitem tool_input "path" ;; _list_dir p)%py
  else if String.eqb tool_name "read_file" then
    (p <- getitem tool_input "path" ;; _read_file p)%py
  else if String.eqb tool_name "write_file" then
    (p <- getitem tool_input "path" ;;
     c <- getitem tool_input "content" ;;
     _write_file p c)%py
  else if String.eqb tool_name "shell_exec" then
    (c <- getitem tool_input "command" ;; _shell_exec c)%py
  else
    ret ("Error: Unknown tool '" ++ tool_name ++ "'").

(** The string an exception caught by [execute] is converted to. *)
Definition error_string (e : exn) : string :=
  if is_ValueError (exc_type e)
  then "Error: " ++ exc_str e
  else "Error: " ++ class_name (exc_type e) ++ ": " ++ exc_str e.

Definition execute (tool_name : string) (tool_input : gmap string pyval)
    : M world string :=
  try_except2 (dispatch tool_name tool_input)
    is_ValueError
      (fun e => ret ("Error: " ++ exc_str e))
    any_Exception
      (fun e => ret ("Error: " ++ class_name (exc_type e) ++ ": "
                     ++ exc_str e)).

End Executor.

End ToolExecutor.

(* ===================================================================== *)
(** * Messages and prepare_messages_for_cache *)
(* ===================================================================== *)

Module Cache.
Import Py.
Local Open Scope string_scope.

(** The value of a ["cache_control"] key: [{"type": "ephemeral"}], with
    an optional ["ttl"] in seconds. *)
Record cache_control := CacheControl {
  cc_type : string;
  cc_ttl : option Z
}.

(** The content blocks a stored message is made of, by their ["type"]. *)
Inductive block_body :=
  | Text (text : string)
  | Thinking (thinking : string) (signature : option string)
  | ToolUse (id name : string) (input : gmap string pyval)
  | ToolResult (tool_use_id : string) (content : string).

(** A block dictionary: the keys of its type, and ["cache_control"] when
    the key is present. *)
Record block := Block {
  body : block_body;
  marker : option cache_control
}.

(** [msg['content']]: a [str] or a list of blocks. *)
Inductive content :=
  | Str (s : string)
  | Blocks (l : list block).

Record message := Message {
  role : string;
  msg_content : content
}.

Definition plain (b : block_body) : block := Block b None.

Definition is_text (b : block) : bool :=
  match body b with Text _ => true | _ => false end.

Definition is_human_message (msg : message) : bool :=
  if negb (String.eqb (role msg) "user") then false
  else match msg_content msg with
       | Str _ => true
       | Blocks l => existsb is_text l
       end.

(** [enumerate(l)] *)
Fixpoint enumerate_from {A} (i : nat) (l : list A) : list (nat * A) :=
  match l with
  | [] => []
  | x :: l' => (i, x) :: enumerate_from (S i) l'
  end.

Definition enumerate {A} (l : list A) : list (nat * A) := enumerate_from 0 l.

Definition human_indices (messages : list message) : list nat :=
  map fst (List.filter (fun im => is_human_message (snd im))
                       (enumerate messages)).

(** [human_indices[-2] if len(human_indices) >= 2 else -1] *)
Definition cache_index_of (human_indices : list nat) : Z :=
  if (2 <=? length human_indices)%nat
  then Z.of_nat (nth (length human_indices - 2) human_indices 0%nat)
  else (-1)%Z.

(** [content[-1] = {**content[-1], "cache_control": cache_control}] on a
    copy of the list; an empty list is left as it is. *)
Fixpoint mark_last (cc : cache_control) (l : list block) : list block :=
  match l with
  | [] => []
  | [b] => [Block (body b) (Some cc)]
  | b :: l' => b :: mark_last cc l'
  end.

Definition cache_control_of (cache_ttl : string) : cache_control :=
  if String.eqb cache_ttl "1h"
  then CacheControl "ephemeral" (Some 3600%Z)
  else CacheControl "ephemeral" None.

(** The new value of [content] in the body of the main loop. *)
Definition prepare_content (cc : cache_control) (cache_index : Z)
    (i : nat) (c : content) : content :=
  match c with
  | Str s =>
      if (Z.of_nat i =? cache_index)%Z
      then Blocks [Block (Text s) (Some cc)]
      else Blocks [Block (Text s) None]
  | Blocks l =>
      if (Z.of_nat i =? cache_index)%Z
      then Blocks (mark_last cc l)
      else Blocks l
  end.

(** The body of the [for i, msg in enumerate(messages)] loop: the message
    appended to [prepared]. *)
Definition prepare_one (cc : cache_control) (cache_index : Z)
    (i : nat) (msg : message) : message :=
  Message (role msg) (prepare_content cc cache_index i (msg_content msg)).

Definition prepare_messages_for_cache (messages : list message)
    (cache_ttl : string) : list message :=
  if String.eqb cache_ttl "off" || (length messages <? 2)%nat
  then messages
  else
    let cache_control := cache_control_of cache_ttl in
    let cache_index := cache_index_of (human_indices messages) in
    map (fun im => prepare_one cache_control cache_index (fst im) (snd im))
        (enumerate messages).

(** ** Vocabulary of the specification *)

(** The single-block form of a plain-text content. *)
Definition normalize (msg : message) : message :=
  match msg_content msg with
  | Str s => Message (role msg) (Blocks [plain (Text s)])
  | Blocks _ => msg
  end.

Definition blocks_of (msg : message) : list block :=
  match msg_content msg with
  | Str _ => []
  | Blocks l => l
  end.

(** A message is human-text if its role is user and it contains at least
    one plain-text block (a plain string being one text block). *)
Definition human_text (msg : message) : Prop :=
  role msg = "user" /\ exists b, In b (blocks_of (normalize msg)) /\ is_text b = true.

Definition count_humans (l : list message) : nat :=
  length (List.filter is_human_message l).



(** [msg] with cache marker [cc] on the last block of its single-block or
    list content. *)
Definition with_marker (cc : cache_control) (msg : message) : message :=
  Message (role msg) (Blocks (mark_last cc (blocks_of (normalize msg)))).

(** The annotated request, in the words of the specification: every
    message is put in block form, and the second-to-last human-text
    message, which is the human-text message followed by exactly one more
    human-text message, gets the marker on its last block. *)
Fixpoint annotate (cc : cache_control) (messages : list message)
    : list message :=
  match messages with
  | [] => []
  | msg :: rest =>
      (if is_human_message msg && (count_humans rest =? 1)%nat
       then with_marker cc msg
       else normalize msg) :: annotate cc rest
  end.

(** The contract of the cache planner: the list as it is when the TTL is
    off or there are fewer than two messages, the annotated request
    otherwise. *)
Definition prepare_spec (messages : list message) (cache_ttl : string)
    : list message :=
  if String.eqb cache_ttl "off" || (length messages <? 2)%nat
  then messages
  else annotate (cache_control_of cache_ttl) messages.

(** The human indices of the part of the list that starts at index
    [k]. *)
Definition indices_from (k : nat) (l : list message) : list nat :=
  map fst (List.filter (fun im => is_human_message (snd im))
                       (enumerate_from k l)).

(** Where the cache index [ci] is, seen from the part of the list that
    starts at index [k]: at its second-to-last human index, or before
    [k]. *)
Definition index_for (ci : Z) (k : nat) (l : list message) : Prop :=
  if (2 <=? count_humans l)%nat
  then ci = cache_index_of (indices_from k l)
  else (ci < Z.of_nat k)%Z.


End Cache.

(* ===================================================================== *)
(** * The tool-rate limiter *)
(* ===================================================================== *)

Module RateLimiter.
Local Open Scope string_scope.

(** Timestamps are the values of [time.time()]: seconds, as exact
    rationals. *)
Definition recent (now : Q) (t : Q) : bool :=
  if Qlt_le_dec (now - t) 60 then true else false.

Definition advisory (n : nat) : string :=
  String PyStr.lf (String PyStr.lf
    ("[Note: " ++ PyStr.of_nat n ++ " tool calls in the last 60 seconds. For bulk operations or complex tasks, consider `claude-sub --async 'description' 'prompt'` to delegate to Claude Code (uses Max plan instead of API credits). Or add sleep between polling checks.]")).

(** [_check_tool_rate], with [now] the value [time.time()] returns and
    [recent_tool_calls] the attribute of the session: the returned string
    and the new value of the attribute. *)
Definition _check_tool_rate (now : Q) (recent_tool_calls : list Q)
    : string * list Q :=
  let recent_tool_calls :=
    (List.filter (recent now) recent_tool_calls ++ [now])%list in
  (if (10 <=? length recent_tool_calls)%nat
   then advisory (length recent_tool_calls)
   else EmptyString,
   recent_tool_calls).

End RateLimiter.

(* ===================================================================== *)
(** * class GraftSession: the turn engine *)
(* ===================================================================== *)

(** [send_message] and the methods it calls.  What the method prints is
    not modelled; the conversation is taken to exist already. *)
Module Session.
Import Py Cache.
Local Open Scope string_scope.

(** ** What the remote service sends *)

(** [response.usage] *)
Record usage := Usage {
  input_tokens : Z;
  output_tokens : Z;
  cache_creation_input_tokens : option Z;
  cache_read_input_tokens : option Z;
  (** [usage.server_tool_use] and its [web_search_requests] *)
  server_tool_use : option (option Z)
}.

(** The content blocks of a response object.  [OtherBlock] is any block
    that is neither of type ["thinking"] nor ["tool_use"] and has no
    [text] attribute (redacted thinking, server tool use, ...). *)
Inductive api_block :=
  | TextBlock (text : string)
  | ThinkingBlock (thinking : string) (signature : option string)
  | ToolUseBlock (id name : string) (input : gmap string pyval)
  | OtherBlock (type : string).

Record response := Response {
  resp_content : list api_block;
  stop_reason : string;
  resp_usage : option usage
}.

(** The events of a stream, as far as the loop tells them apart. *)
Inductive event :=
  | ContentBlockStart (block_type : string)
  | ThinkingDelta (thinking : string)
  | TextDelta (text : string)
  | OtherDelta
  | ContentBlockStop
  | OtherEvent.

(** One streaming request: the events and the final message, or the
    events that arrived before the transport raised. *)
Inductive stream_outcome :=
  | StreamOk (events : list event) (final : response)
  | StreamError (events : list event) (e : exn).

(** ** The state of the session *)

Record stats := Stats {
  st_cache_creation_input_tokens : Z;
  st_cache_read_input_tokens : Z;
  total_input_tokens : Z;
  total_output_tokens : Z;
  requests : Z;
  web_searches : Z;
  tool_calls : Z;
  last_input_tokens : Z
}.

Record session := Session {
  messages : list message;              (* self.conversation.messages *)
  session_stats : stats;                (* self.stats *)
  recent_tool_calls : list Q;           (* self.recent_tool_calls *)
  cache_ttl : string;                   (* self.cache_ttl *)
  tool_executor : option Fs.path;       (* its project_root, if any *)
  os : Fs.world;                        (* the file system *)
  ticks : nat                           (* calls of time.time() so far *)
}.

Definition set_messages (f : list message -> list message) (s : session)
    : session :=
  Session (f (messages s)) (session_stats s) (recent_tool_calls s)
          (cache_ttl s) (tool_executor s) (os s) (ticks s).

Definition set_stats (f : stats -> stats) (s : session) : session :=
  Session (messages s) (f (session_stats s)) (recent_tool_calls s)
          (cache_ttl s) (tool_executor s) (os s) (ticks s).

(** [self.conversation.messages.append(msg)] *)
Definition append_message (msg : message) : session -> session :=
  set_messages (fun l => (l ++ [msg])%list).

Definition or0 (o : option Z) : Z :=
  match o with Some z => z | None => 0%Z end.

Definition _update_stats (u : usage) (s : stats) : stats :=
  Stats (st_cache_creation_input_tokens s + or0 (cache_creation_input_tokens u))
        (st_cache_read_input_tokens s + or0 (cache_read_input_tokens u))
        (total_input_tokens s + input_tokens u)
        (total_output_tokens s + output_tokens u)
        (requests s)
        (match server_tool_use u with
         | Some w => web_searches s + or0 w
         | None => web_searches s
         end)
        (tool_calls s)
        (input_tokens u).

Definition incr_requests (s : stats) : stats :=
  Stats (st_cache_creation_input_tokens s) (st_cache_read_input_tokens s)
        (total_input_tokens s) (total_output_tokens s)
        (requests s + 1) (web_searches s) (tool_calls s)
        (last_input_tokens s).

Definition incr_tool_calls (s : stats) : stats :=
  Stats (st_cache_creation_input_tokens s) (st_cache_read_input_tokens s)
        (total_input_tokens s) (total_output_tokens s)
        (requests s) (web_searches s) (tool_calls s + 1)
        (last_input_tokens s).

(** ** _serialize_content *)

Definition serialize_block (b : api_block) : list block :=
  match b with
  | ThinkingBlock thinking signature => [plain (Thinking thinking signature)]
  | TextBlock text => [plain (Text text)]
  | ToolUseBlock id name input => [plain (ToolUse id name input)]
  | OtherBlock _ => []
  end.

Definition _serialize_content (content_blocks : list api_block)
    : list block :=
  flat_map serialize_block content_blocks.

(** ** The loop over the events of a stream *)

Record stream_vars := StreamVars {
  response_text : string;
  thinking_text : string;
  in_thinking : bool
}.

Definition on_event (v : stream_vars) (ev : event) : stream_vars :=
  match ev with
  | ContentBlockStart ty =>
      if String.eqb ty "thinking"
      then StreamVars (response_text v) (thinking_text v) true
      else if String.eqb ty "text"
      then StreamVars (response_text v) (thinking_text v) false
      else v
  | ThinkingDelta t =>
      StreamVars (response_text v) (thinking_text v ++ t) (in_thinking v)
  | TextDelta t =>
      StreamVars (response_text v ++ t) (thinking_text v) (in_thinking v)
  | OtherDelta => v
  | ContentBlockStop =>
      if in_thinking v
      then StreamVars (response_text v) (thinking_text v) false
      else v
  | OtherEvent => v
  end.

Definition consume (events : list event) : stream_vars :=
  fold_left on_event events (StreamVars EmptyString EmptyString false).

(** ** Tool use *)

Definition is_tool_use (b : api_block) : bool :=
  match b with ToolUseBlock _ _ _ => true | _ => false end.

(** [tool_uses], the blocks of type ["tool_use"] in order. *)
Definition tool_uses_of (r : response) : list api_block :=
  List.filter is_tool_use (resp_content r).

(** The test of [if response.stop_reason != "tool_use" or not tool_uses],
    negated: the response asks for tools. *)
Definition requests_tools (r : response) : bool :=
  String.eqb (stop_reason r) "tool_use"
  && match tool_uses_of r with [] => false | _ => true end.

(** The message stored for a response that ends the turn. *)
Definition final_message (events : list event) (r : response) : message :=
  if String.eqb (stop_reason r) "tool_use"
  then Message "assistant" (Blocks (_serialize_content (resp_content r)))
  else Message "assistant" (Str (response_text (consume events))).

(** The message stored for a response that asks for tools. *)
Definition tool_use_message (r : response) : message :=
  Message "assistant" (Blocks (_serialize_content (resp_content r))).

Section Engine.

(** The transport: what the [i]-th streaming request of a turn comes back
    with, given the prepared messages it carries. *)
Variable stream : nat -> list message -> stream_outcome.

(** The clock: the value of the [n]-th call of [time.time()]. *)
Variable time : nat -> Q.

Variable subprocess_run :
  pyval -> Fs.path -> gmap Fs.path Fs.node
  -> ToolExecutor.proc_outcome * gmap Fs.path Fs.node.

(** [self._check_tool_rate()] *)
Definition _check_tool_rate : M session string :=
  fun s =>
    let now := time (ticks s) in
    let '(note, recent') :=
      RateLimiter._check_tool_rate now (recent_tool_calls s) in
    (Ok note,
     Session (messages s) (session_stats s) recent'
             (cache_ttl s) (tool_executor s) (os s) (S (ticks s))).

(** [self.tool_executor.execute(name, input)], or the fixed error when
    no executor is configured. *)
Definition execute_tool (name : string) (input : gmap string pyval)
    : M session string :=
  fun s =>
    match tool_executor s with
    | Some root =>
        let '(r, w) := ToolExecutor.execute subprocess_run root name input
                         (os s) in
        (r, Session (messages s) (session_stats s) (recent_tool_calls s)
                    (cache_ttl s) (tool_executor s) w (ticks s))
    | None => (Ok "Error: Tool executor not configured", s)
    end.

(** The body of [for tool_use in tool_uses]: the tool result appended. *)
Definition run_tool (tool_use : api_block) : M session (list block) :=
  match tool_use with
  | ToolUseBlock id name input =>
      (modify (set_stats incr_tool_calls) ;;;
       result <- execute_tool name input ;;
       note <- _check_tool_rate ;;
       ret [plain (ToolResult id (result ++ note))])%py
  | _ => ret []
  end.

Definition run_tools (tool_uses : list api_block) : M session (list block) :=
  (results <- for_in run_tool tool_uses ;; ret (concat results))%py.

(** What the session has recorded once a response has arrived. *)
Definition record_response (r : response) (s : session) : session :=
  let s := set_stats incr_requests s in
  match resp_usage r with
  | Some u => set_stats (_update_stats u) s
  | None => s
  end.

(** The [while True] loop of [send_message], entered for the [i]-th time.
    [None]: the loop is still running when the fuel is spent. *)
Fixpoint turn_loop (fuel : nat) (i : nat) (s : session)
    : option (result unit * session) :=
  match fuel with
  | O => None
  | S fuel' =>
      let prepared :=
        prepare_messages_for_cache (messages s) (cache_ttl s) in
      match stream i prepared with
      | StreamError _ e => Some (Raise e, s)
      | StreamOk events response =>
          let s := record_response response s in
          if negb (requests_tools response) then
            Some (Ok tt, append_message (final_message events response) s)
          else
            let s := append_message (tool_use_message response) s in
            match run_tools (tool_uses_of response) s with
            | (Raise e, s) => Some (Raise e, s)
            | (Ok tool_results, s) =>
                turn_loop fuel' (S i)
                  (append_message (Message "user" (Blocks tool_results)) s)
            end
      end
  end.

(** The [except Exception] clause of [send_message]. *)
Definition rollback (s : session) : session :=
  match last (messages s) with
  | Some msg =>
      if String.eqb (role msg) "user"
      then set_messages (fun l => removelast l) s
      else s
  | None => s
  end.

Definition send_message (fuel : nat) (user_input : string) (s : session)
    : option session :=
  let s := append_message (Message "user" (Str user_input)) s in
  match turn_loop fuel 0 s with
  | None => None
  | Some (Ok _, s) => Some s
  | Some (Raise _, s) => Some (rollback s)
  end.

(** ** Vocabulary of the specification *)

(** The turn started in state [s] at request [i] has exactly [n] rounds of
    tool requests followed by a response that does not ask for tools. *)
Fixpoint has_rounds (n : nat) (i : nat) (s : session) : Prop :=
  match stream i (prepare_messages_for_cache (messages s) (cache_ttl s)) with
  | StreamError _ _ => False
  | StreamOk events response =>
      match n with
      | O => requests_tools response = false
      | S n' =>
          requests_tools response = true
          /\ exists tool_results s',
               run_tools (tool_uses_of response)
                 (append_message (tool_use_message response)
                    (record_response response s))
               = (Ok tool_results, s')
               /\ has_rounds n' (S i)
                    (append_message (Message "user" (Blocks tool_results)) s')
      end
  end.

(** The turn started in state [s] at request [i] has exactly [n] rounds of
    tool requests, after which the transport raises [e]. *)
Fixpoint fails_after (e : exn) (n : nat) (i : nat) (s : session) : Prop :=
  match stream i (prepare_messages_for_cache (messages s) (cache_ttl s)) with
  | StreamError _ e' =>
      match n with
      | O => e' = e
      | S _ => False
      end
  | StreamOk events response =>
      match n with
      | O => False
      | S n' =>
          requests_tools response = true
          /\ exists tool_results s',
               run_tools (tool_uses_of response)
                 (append_message (tool_use_message response)
                    (record_response response s))
               = (Ok tool_results, s')
               /\ fails_after e n' (S i)
                    (append_message (Message "user" (Blocks tool_results)) s')
      end
  end.

End Engine.

(** A computation that leaves the conversation and the configuration
    alone. *)
Definition keeps {A} (m : M session A) : Prop :=
  forall s r s', m s = (r, s') ->
    messages s' = messages s /\ cache_ttl s' = cache_ttl s.

(** The ids of the tool requests of an assistant message, in order. *)
Definition tool_use_ids (msg : message) : list string :=
  flat_map (fun b => match body b with
                     | ToolUse id _ _ => [id]
                     | _ => []
                     end) (blocks_of msg).

Definition result_id (b : block) : option string :=
  match body b with
  | ToolResult id _ => Some id
  | _ => None
  end.

(** The ids a tool-result message answers, in order; [None] if one of its
    blocks is not a tool result. *)
Definition tool_result_ids (msg : message) : option (list string) :=
  match msg_content msg with
  | Str _ => None
  | Blocks l => mapM result_id l
  end.

(** The ids of the tool requests of a response, in order. *)
Definition api_tool_ids (l : list api_block) : list string :=
  flat_map (fun b => match b with
                     | ToolUseBlock id _ _ => [id]
                     | _ => []
                     end) l.

(** [l] is [n] repetitions of an assistant message with tool requests
    followed by the user message that answers them, one result per
    request, in order. *)
Fixpoint tool_rounds (n : nat) (l : list message) : Prop :=
  match n with
  | O => l = []
  | S n' =>
      exists a u rest,
        l = a :: u :: rest
        /\ role a = "assistant"
        /\ tool_use_ids a <> []
        /\ role u = "user"
        /\ tool_result_ids u = Some (tool_use_ids a)
        /\ tool_rounds n' rest
  end.

Definition count_role (r : string) (l : list message) : nat :=
  length (List.filter (fun m => String.eqb (role m) r) l).

(** A message that bears tool results. *)
Definition is_tool_result_message (msg : message) : bool :=
  match tool_result_ids msg with
  | Some (_ :: _) => true
  | _ => false
  end.

Definition count_tool_result_messages (l : list message) : nat :=
  length (List.filter is_tool_result_message l).



End Session.

(* ===================================================================== *)
(** * prepare_messages_for_cache on the store *)
(* ===================================================================== *)

(** Python lists and dictionaries are mutable objects that are passed by
    reference.  This module runs [prepare_messages_for_cache] on a store of
    such objects, which is where "the call does not mutate its input" and
    "the result may share objects with the input" can be stated. *)
Module Heap.
Import Py Cache.
Local Open Scope string_scope.

(** The identity of an object. *)
Abbreviation loc := positive.

Inductive obj :=
  | OList (items : list loc)                         (* a list of objects *)
  | OMessage (role : string) (content : string + loc) (* a message dict *)
  | OBlock (b : block).                              (* a block dict *)

Abbreviation heap := (gmap loc obj).

Definition ill_typed : exn := Exn TypeError "object of unexpected type".

(** The creation of an object. *)
Definition alloc (o : obj) : M heap loc :=
  fun h => let l := fresh (dom h) in (Ok l, <[l := o]> h).

Definition read_list (l : loc) : M heap (list loc) :=
  fun h => match h !! l with
           | Some (OList items) => (Ok items, h)
           | _ => (Raise ill_typed, h)
           end.

Definition read_message (l : loc) : M heap (string * (string + loc)) :=
  fun h => match h !! l with
           | Some (OMessage r c) => (Ok (r, c), h)
           | _ => (Raise ill_typed, h)
           end.

Definition read_block (l : loc) : M heap block :=
  fun h => match h !! l with
           | Some (OBlock b) => (Ok b, h)
           | _ => (Raise ill_typed, h)
           end.

(** [l.append(x)]: list [l] is updated in place. *)
Definition list_append (l x : loc) : M heap unit :=
  (items <- read_list l ;;
   modify (fun h : heap => <[l := OList (items ++ [x])%list]> h))%py.

(** [l[-1] = x] on a non-empty list: list [l] is updated in place. *)
Definition list_set_last (l x : loc) : M heap unit :=
  (items <- read_list l ;;
   modify (fun h : heap => <[l := OList (removelast items ++ [x])%list]> h))%py.

(** [any(isinstance(block, dict) and block.get('type') == 'text'
        for block in content)] *)
Fixpoint any_text (items : list loc) : M heap bool :=
  match items with
  | [] => ret false
  | l :: items' =>
      (b <- read_block l ;;
       if is_text b then ret true else any_text items')%py
  end.

Definition is_human_message (msg : loc) : M heap bool :=
  (rc <- read_message msg ;;
   if negb (String.eqb (fst rc) "user") then ret false
   else match snd rc with
        | inl _ => ret true
        | inr c => (items <- read_list c ;; any_text items)%py
        end)%py.

(** [[i for i, m in enumerate(messages) if is_human_message(m)]] *)
Fixpoint human_indices_from (i : nat) (msgs : list loc) : M heap (list nat) :=
  match msgs with
  | [] => ret []
  | m :: msgs' =>
      (b <- is_human_message m ;;
       r <- human_indices_from (S i) msgs' ;;
       ret (if b : bool then i :: r else r))%py
  end.

(** The new value of [content] in the body of the main loop. *)
Definition prepare_content (cc : cache_control) (cache_index : Z) (i : nat)
    (content : string + loc) : M heap loc :=
  match content with
  | inl s =>
      (b <- alloc (OBlock (Block (Text s)
                     (if (Z.of_nat i =? cache_index)%Z then Some cc
                      else None))) ;;
       alloc (OList [b]))%py
  | inr c =>
      if (Z.of_nat i =? cache_index)%Z then
        (items <- read_list c ;;
         c' <- alloc (OList items) ;;              (* content.copy() *)
         match last items with
         | Some l =>
             (b <- read_block l ;;
              nb <- alloc (OBlock (Block (body b) (Some cc))) ;;
              list_set_last c' nb ;;;
              ret c')%py
         | None => ret c'
         end)%py
      else ret c
  end.

(** [for i, msg in enumerate(messages): ...; prepared.append(...)] *)
Fixpoint main_loop (cc : cache_control) (cache_index : Z) (prepared : loc)
    (i : nat) (msgs : list loc) : M heap unit :=
  match msgs with
  | [] => ret tt
  | msg :: msgs' =>
      (rc <- read_message msg ;;
       content <- prepare_content cc cache_index i (snd rc) ;;
       d <- alloc (OMessage (fst rc) (inr content)) ;;
       list_append prepared d ;;;
       main_loop cc cache_index prepared (S i) msgs')%py
  end.

Definition prepare_messages_for_cache (messages : loc) (cache_ttl : string)
    : M heap loc :=
  (msgs <- read_list messages ;;
   if String.eqb cache_ttl "off" || (length msgs <? 2)%nat
   then ret messages
   else
     let cache_control := cache_control_of cache_ttl in
     prepared <- alloc (OList []) ;;
     human_indices <- human_indices_from 0 msgs ;;
     let cache_index := cache_index_of human_indices in
     main_loop cache_control cache_index prepared 0 msgs ;;;
     ret prepared)%py.

(** ** The value an object stands for *)

Definition block_at (h : heap) (l : loc) : option block :=
  match h !! l with Some (OBlock b) => Some b | _ => None end.

Definition content_at (h : heap) (c : string + loc) : option content :=
  match c with
  | inl s => Some (Str s)
  | inr l =>
      match h !! l with
      | Some (OList items) => Blocks <$> mapM (block_at h) items
      | _ => None
      end
  end.

Definition message_at (h : heap) (l : loc) : option message :=
  match h !! l with
  | Some (OMessage r c) => Message r <$> content_at h c
  | _ => None
  end.

(** The list of messages that the list object [l] holds in store [h]. *)
Definition messages_at (h : heap) (l : loc) : option (list message) :=
  match h !! l with
  | Some (OList items) => mapM (message_at h) items
  | _ => None
  end.

End Heap.

(* ===================================================================== *)
(** * A small project for the examples *)
(* ===================================================================== *)

Module Demo.
Import Py Fs ToolExecutor.
Local Open Scope string_scope.

(** The project root. *)
Definition root : path := ["srv"; "proj"].

(** A root directory with a text file and a subdirectory, a link that
    leaves the project and one that stays inside. *)
Definition tree : gmap path node :=
  list_to_map
    [ ([], Dir); (["etc"], Dir); (["etc"; "passwd"], File "root:x:0:0");
      (["srv"], Dir); (["srv"; "proj"], Dir);
      (["srv"; "proj"; "docs"], Dir);
      (["srv"; "proj"; "a.txt"], File "hello");
      (["srv"; "proj"; "out"], Symlink "/etc");
      (["srv"; "proj"; "in"], Symlink "docs") ].

Definition world0 : world := World tree [].

(** A shell that prints nothing and changes nothing. *)
Definition quiet_shell (command : pyval) (cwd : path)
    (fs : gmap path node) : proc_outcome * gmap path node :=
  (Completed EmptyString EmptyString 0, fs).

(** The two bytes of U+00E9 in UTF-8. *)
Definition e_acute : string :=
  String (ascii_of_nat 195) (String (ascii_of_nat 169) EmptyString).

(** ["a\r\nb"] *)
Definition crlf_text : string :=
  String "a" (String PyStr.cr (String PyStr.lf (String "b" EmptyString))).

Definition args (l : list (string * pyval)) : gmap string pyval :=
  list_to_map l.

(** ** A scripted transport *)

Import Cache Session.

Definition connection_error : exn :=
  Exn (OtherException "APIConnectionError") "Connection error.".

(** The [i]-th request of the turn is answered by the [i]-th entry of the
    script, and fails once the script is over. *)
Definition scripted (script : list stream_outcome) (i : nat)
    (prepared : list message) : stream_outcome :=
  nth i script (StreamError [] connection_error).

(** One call of [time.time()] per second. *)
Definition clock (n : nat) : Q := inject_Z (Z.of_nat n).

Definition zero_stats : stats := Stats 0 0 0 0 0 0 0 0.

(** A session with one completed exchange behind it. *)
Definition session0 : session :=
  Session [Message "user" (Str "What is in the project?");
           Message "assistant" (Str "Shall I look?")]
          zero_stats [] "5m" (Some root) world0 0.

(** A response that thinks, then asks to read a file. *)
Definition wants_file : stream_outcome :=
  StreamOk
    [ContentBlockStart "thinking"; ThinkingDelta "read it"; ContentBlockStop;
     ContentBlockStart "tool_use"; OtherDelta; ContentBlockStop]
    (Response [ThinkingBlock "read it" (Some "c2ln");
               ToolUseBlock "toolu_1" "read_file" (args [("path", VStr "a.txt")])]
              "tool_use" None).

(** A response that thinks, then answers. *)
Definition answer_events : list event :=
  [ContentBlockStart "thinking"; ThinkingDelta "done"; ContentBlockStop;
   ContentBlockStart "text"; TextDelta "It says "; TextDelta "hello.";
   ContentBlockStop].

Definition answer : response :=
  Response [ThinkingBlock "done" (Some "c2ln2"); TextBlock "It says hello."]
           "end_turn" None.

Definition answers : stream_outcome := StreamOk answer_events answer.

(** A response cut short inside a tool request. *)
Definition truncated : stream_outcome :=
  StreamOk
    [ContentBlockStart "text"; TextDelta "Let me"; ContentBlockStop]
    (Response [TextBlock "Let me";
               ToolUseBlock "toolu_2" "read_file" (args [])]
              "max_tokens" None).

(** ** A store *)

Import Heap.

(** The list object [1] holds three messages: two with plain-text content
    and one whose content is the list object [5] of one text block. *)
Definition heap0 : heap :=
  list_to_map
    [ (1%positive, OList [2; 3; 4]%positive);
      (2%positive, OMessage "user" (inl "q1"));
      (3%positive, OMessage "assistant" (inl "a1"));
      (4%positive, OMessage "user" (inr 5%positive));
      (5%positive, OList [6%positive]);
      (6%positive, OBlock (plain (Text "q2"))) ].

Definition stored0 : list message :=
  [Message "user" (Str "q1"); Message "assistant" (Str "a1");
   Message "user" (Blocks [plain (Text "q2")])].

End Demo.

(* ===================================================================== *)
(** * Vocabulary for what a call leaves of the file system *)
(* ===================================================================== *)

Module Frame.
Import Py Fs.

(** A computation that only looks at the file system. *)
Definition only_reads {A} (m : M world A) : Prop :=
  forall w, files (snd (m w)) = files w.

(** No symbolic link at [p] or at an ancestor of [p]. *)
Definition link_free (fs : gmap path node) (p : path) : Prop :=
  forall q, q `prefix_of` p -> readlink fs q = None.




(** A component as a canonical path has them: a name, without a
    slash. *)
Definition clean (c : string) : bool :=
  negb (String.eqb c EmptyString) && negb (String.eqb c ".")
  && negb (String.eqb c "..") && negb (PyStr.contains PyStr.slash c).

End Frame.

(* ===================================================================== *)
(** * Vocabulary for what a turn leaves of the session *)
(* ===================================================================== *)

Module Turn.
Import Py Cache Session.

(** The number of tool requests in the assistant messages of [l]. *)
Definition tool_requests (l : list message) : nat :=
  length (flat_map tool_use_ids
            (List.filter (fun m => String.eqb (role m) "assistant") l)).

(** The text of a stream: its text deltas, in order. *)
Fixpoint text_deltas (events : list event) : string :=
  match events with
  | [] => EmptyString
  | TextDelta t :: rest => t ++ text_deltas rest
  | _ :: rest => text_deltas rest
  end.

(** The thinking of a stream: its thinking deltas, in order. *)
Fixpoint thinking_deltas (events : list event) : string :=
  match events with
  | [] => EmptyString
  | ThinkingDelta t :: rest => t ++ thinking_deltas rest
  | _ :: rest => thinking_deltas rest
  end.

(** The roles of [l] alternate, starting with [user] if [user_turn] and
    with [assistant] otherwise. *)
Fixpoint alternates_from (user_turn : bool) (l : list message) : bool :=
  match l with
  | [] => true
  | msg :: rest =>
      String.eqb (role msg) (if user_turn then "user" else "assistant")
      && alternates_from (negb user_turn) rest
  end.

(** A conversation of complete exchanges: user and assistant messages in
    turn, the last one from the assistant. *)
Definition complete_exchanges (l : list message) : bool :=
  alternates_from true l && Nat.even (length l).

(** A conversation that awaits an answer: user and assistant messages in
    turn, the last one from the user. *)
Definition awaits_answer (l : list message) : bool :=
  alternates_from true l && Nat.odd (length l).



End Turn.

(* ===================================================================== *)
(** * The rate window over a session *)
(* ===================================================================== *)

Module Window.
Import RateLimiter.

(** The attribute [recent_tool_calls] after calls of [_check_tool_rate] at
    the given times, in a session that starts with an empty list. *)
Definition calls (times : list Q) : list Q :=
  fold_left (fun window now => snd (_check_tool_rate now window)) times [].

End Window.

(* ===================================================================== *)
(** * Vocabulary for what a request says *)
(* ===================================================================== *)

Module Request.
Import Cache.

(** What a message says: the bodies of its blocks, a plain string being
    one text block. *)
Definition bodies (msg : message) : list block_body :=
  map body (blocks_of (normalize msg)).

End Request.

(* ===================================================================== *)
(** * The conversation: estimate, compressed transcripts and imports *)
(* ===================================================================== *)

(** [Conversation.token_estimate], [GraftSession._parse_compressed_transcript]
    and [convert_socketteer_format].  The regular expressions of the parser
    and [str.strip] are parameters: the properties hold whatever they
    match and strip. *)
Module Conversation.
Import Py Cache.
Local Open Scope string_scope.

(** ** Conversation.token_estimate *)

(** [total] after the loop over the blocks of a list content: a block
    dictionary has a ['text'] key when it is a text block. *)
Definition add_blocks (total : nat) (l : list block) : nat :=
  fold_left (fun total b =>
               match body b with
               | Text text => total + PyStr.len text
               | _ => total
               end) l total.

(** [total] after the loop over the messages. *)
Definition add_messages (total : nat) (messages : list message) : nat :=
  fold_left (fun total m =>
               match msg_content m with
               | Str s => total + PyStr.len s
               | Blocks l => add_blocks total l
               end) messages total.

Definition token_estimate (messages : list message) : nat :=
  add_messages 0 messages / 2.

(** ** Vocabulary of the properties *)

(** A message without its thinking, tool-request and tool-result
    blocks. *)
Definition text_only (msg : message) : message :=
  match msg_content msg with
  | Str _ => msg
  | Blocks l => Message (role msg) (Blocks (List.filter is_text l))
  end.

(** ** GraftSession._parse_compressed_transcript *)

Definition nl : string := String PyStr.lf EmptyString.

(** The truth value of a [str]. *)
Definition nonempty (s : string) : bool :=
  match s with EmptyString => false | _ => true end.

Section Parser.

(** [user_patterns.match(line)] and [assistant_patterns.match(line)]: the
    rest of the line after the match, [line[m.end():]], when the pattern
    matches at the start of the line. *)
Variable user_patterns : string -> option string.
Variable assistant_patterns : string -> option string.

(** [str.strip] *)
Variable strip : string -> string.

(** The variables of the loop: [messages], [current_role] and
    [current_content]. *)
Record parser := Parser {
  parsed : list message;
  current_role : option string;
  current_content : list string
}.

(** "Save previous message if exists": the new value of [messages]. *)
Definition save_previous (st : parser) : list message :=
  match current_role st, current_content st with
  | Some role, _ :: _ =>
      let text := strip (PyStr.join nl (current_content st)) in
      if nonempty text
      then parsed st ++ [Message role (Str text)]
      else parsed st
  | _, _ => parsed st
  end.

(** The body of [for line in lines]. *)
Definition parse_line (st : parser) (line : string) : parser :=
  match user_patterns line with
  | Some rest => Parser (save_previous st) (Some "user") [rest]
  | None =>
    match assistant_patterns line with
    | Some rest => Parser (save_previous st) (Some "assistant") [rest]
    | None =>
        if String.prefix "[Context:" line
           || (String.prefix "[" line
               && match current_role st with None => true | Some _ => false end)
        then st
        else
          match current_role st with
          | Some _ =>
              Parser (parsed st) (current_role st)
                     (current_content st ++ [line])
          | None => st
          end
    end
  end.

Definition _parse_compressed_transcript (content : string) : list message :=
  let lines := PyStr.split PyStr.lf content in
  save_previous (fold_left parse_line lines (Parser [] None [])).

(** A line that starts a turn. *)
Definition is_marker (line : string) : bool :=
  match user_patterns line, assistant_patterns line with
  | None, None => false
  | _, _ => true
  end.

(** A message as the parser may produce it: a user or assistant turn
    whose content is a stripped, non-empty text. *)
Definition stripped_turn (msg : message) : Prop :=
  (role msg = "user" \/ role msg = "assistant")
  /\ exists raw, msg_content msg = Str (strip raw)
                 /\ strip raw <> EmptyString.

End Parser.

(** ** convert_socketteer_format *)

(** The content blocks of an exported message, by their ['type'].  A key
    that is missing has the default of its [get]: [''] for ['text'],
    ['thinking'] and ['title'], ['unknown'] for ['name']. *)
Inductive export_block :=
  | XText (text : string)
  | XThinking (thinking : string)
    (** [input_json] is [json.dumps(block.get('input', {}), indent=2)] *)
  | XToolUse (name : string) (input_json : string)
    (** [first_title]: the ['title'] of [content[0]] when [content] is a
        non-empty list whose first item is a dictionary *)
  | XToolResult (first_title : option string)
  | XOther (type : string).

Record export_message := ExportMessage {
  sender : string;
  content : list export_block
}.

(** [s[:n]] *)
Fixpoint take_chars (n : nat) (s : string) : string :=
  match s with
  | EmptyString => EmptyString
  | String c r =>
      if PyStr.is_cont c then String c (take_chars n r)
      else match n with
           | O => EmptyString
           | S n' => String c (take_chars n' r)
           end
  end.

(** An imported message: its role and its text. *)
Record turn := Turn {
  turn_role : string;
  turn_text : string
}.

Section Convert.

Variable strip : string -> string.
Variable include_thinking include_tool_use : bool.

(** The body of [for block in msg.get('content', [])]: what is appended
    to [text_parts]. *)
Definition block_parts (block : export_block) : list string :=
  match block with
  | XText text => if nonempty text then [text] else []
  | XThinking thinking =>
      if include_thinking && nonempty thinking
      then ["[Thinking]" ++ nl ++ thinking ++ nl ++ "[/Thinking]"]
      else []
  | XToolUse name input_json =>
      if include_tool_use
      then ["[Tool: " ++ name ++ "]" ++ nl ++ input_json]
      else []
  | XToolResult first_title =>
      if include_tool_use
      then match first_title with
           | Some title => ["[Tool Result: " ++ take_chars 100 title ++ "...]"]
           | None => []
           end
      else []
  | XOther _ => []
  end.

(** The body of [for msg in data.get('chat_messages', [])]: what is
    appended to [messages]. *)
Definition convert_one (msg : export_message) : list turn :=
  if String.eqb (sender msg) "human" || String.eqb (sender msg) "assistant"
  then
    let role := if String.eqb (sender msg) "human" then "user"
                else "assistant" in
    let text_parts := flat_map block_parts (content msg) in
    let combined_text := PyStr.join (nl ++ nl) text_parts in
    if nonempty (strip combined_text) then [Turn role combined_text] else []
  else [].

(** The body of [for msg in messages] of the merge: the new value of
    [merged]. *)
Definition merge_one (merged : list turn) (msg : turn) : list turn :=
  match last merged with
  | Some prev =>
      if String.eqb (turn_role prev) (turn_role msg)
      then removelast merged
           ++ [Turn (turn_role prev)
                    (turn_text prev ++ nl ++ nl ++ turn_text msg)]
      else merged ++ [msg]
  | None => merged ++ [msg]
  end.

Definition convert_socketteer_format (chat_messages : list export_message)
    : list turn :=
  let messages := flat_map convert_one chat_messages in
  fold_left merge_one messages [].

End Convert.

(** No two neighbours have the same role. *)
Fixpoint alternates (l : list turn) : bool :=
  match l with
  | a :: (b :: _) as rest =>
      negb (String.eqb (turn_role a) (turn_role b)) && alternates rest
  | _ => true
  end.

End Conversation.

(* ===================================================================== *)
(** * The tool settings and the tools list *)
(* ===================================================================== *)

(** [GraftSession._build_tools_list], the branches [/web], [/tools] and
    [/shell] of [GraftSession.handle_command] and the settings restored by
    [GraftSession.load_conversation].  What the commands print is not
    modelled; [str.lower] and [Path.expanduser] are parameters. *)
Module Settings.
Import Py Fs.
Local Open Scope string_scope.

(** ** The tool definitions *)

(** A tool definition as the API receives it: a server tool, or a client
    tool with its name and the required keys of its input (descriptions
    and property types are left out). *)
Inductive tool :=
  | ServerTool (type name : string) (max_uses : Z)
  | ClientTool (name : string) (required : list string).

Definition tool_name (t : tool) : string :=
  match t with
  | ServerTool _ name _ => name
  | ClientTool name _ => name
  end.

Definition FILE_TOOLS : list tool :=
  [ClientTool "list_dir" ["path"];
   ClientTool "read_file" ["path"];
   ClientTool "write_file" ["path"; "content"]].

Definition SHELL_TOOL : tool := ClientTool "shell_exec" ["command"].

(** ** The tool settings of a session *)

(** The tool settings saved with a conversation. *)
Record conversation := Conversation {
  web_search : bool;
  tools_path : option string;
  conv_shell_enabled : bool
}.

(** The tool settings of [GraftSession], and those of its conversation
    when there is one. *)
Record settings := Settings {
  web_search_enabled : bool;
  tools_enabled : bool;
  tool_executor : option path;          (* its project_root, if any *)
  shell_enabled : bool;
  current : option conversation         (* self.conversation *)
}.

(** [GraftSession.__init__], for the value [ws] of the [web_search]
    configuration key. *)
Definition init (ws : bool) : settings := Settings ws false None false None.

Definition is_some {A} (o : option A) : bool :=
  match o with Some _ => true | None => false end.

Definition _build_tools_list (st : settings) : option (list tool) :=
  let tools := [] in
  let tools :=
    if web_search_enabled st
    then (tools ++ [ServerTool "web_search_20250305" "web_search" 5])%list
    else tools in
  let tools :=
    if tools_enabled st && is_some (tool_executor st)
    then (tools ++ FILE_TOOLS)%list else tools in
  let tools :=
    if shell_enabled st && is_some (tool_executor st)
    then (tools ++ [SHELL_TOOL])%list else tools in
  match tools with
  | [] => None
  | _ => Some tools
  end.

(** [x in (a, b, ...)] *)
Definition among (x : string) (l : list string) : bool :=
  existsb (String.eqb x) l.

Section Commands.

(** [str.lower] *)
Variable lower : string -> string.

(** [Path(s).expanduser()], as a string *)
Variable expanduser : string -> string.

(** The working directory of the process. *)
Variable cwd : path.

(** [Path(s).resolve()]: a relative path is taken from the working
    directory. *)
Definition resolve_path (s : string) : M world path :=
  resolve (ToolExecutor.joinpath cwd s).

(** [ToolExecutor(project_root).project_root] *)
Definition new_executor (project_root : string) : M world path :=
  resolve_path project_root.

(** The branch [/web] of [handle_command]. *)
Definition web_command (arg : option string) (st : settings) : settings :=
  match arg with
  | None => st
  | Some arg =>
      let arg := lower arg in
      if among arg ["on"; "true"; "yes"; "1"] then
        Settings true (tools_enabled st) (tool_executor st) (shell_enabled st)
          (match current st with
           | Some c => Some (Conversation true (tools_path c)
                               (conv_shell_enabled c))
           | None => None
           end)
      else if among arg ["off"; "false"; "no"; "0"] then
        Settings false (tools_enabled st) (tool_executor st) (shell_enabled st)
          (match current st with
           | Some c => Some (Conversation false (tools_path c)
                               (conv_shell_enabled c))
           | None => None
           end)
      else st
  end.

(** The branch [/tools] of [handle_command]. *)
Definition tools_command (arg : option string) (st : settings)
    : M world settings :=
  match arg with
  | None => ret st
  | Some arg =>
      let arg_lower := lower arg in
      if among arg_lower ["off"; "false"; "no"; "0"; "disable"] then
        ret (Settings (web_search_enabled st) false None false
               (match current st with
                | Some c => Some (Conversation (web_search c) None false)
                | None => None
                end))
      else
        (path <- resolve_path (expanduser arg) ;;
         e <- exists_ path ;;
         if negb e then ret st else
         d <- is_dir path ;;
         if negb d then ret st else
         root <- new_executor (render path) ;;
         ret (Settings (web_search_enabled st) true (Some root)
                (shell_enabled st)
                (match current st with
                 | Some c => Some (Conversation (web_search c)
                                     (Some (render path))
                                     (conv_shell_enabled c))
                 | None => None
                 end)))%py
  end.

(** The branch [/shell] of [handle_command]. *)
Definition shell_command (arg : option string) (st : settings) : settings :=
  match arg with
  | None => st
  | Some arg =>
      let arg_lower := lower arg in
      if among arg_lower ["on"; "true"; "yes"; "1"] then
        match tool_executor st with
        | None => st
        | Some _ =>
            Settings (web_search_enabled st) (tools_enabled st)
              (tool_executor st) true
              (match current st with
               | Some c => Some (Conversation (web_search c) (tools_path c)
                                   true)
               | None => None
               end)
        end
      else if among arg_lower ["off"; "false"; "no"; "0"] then
        Settings (web_search_enabled st) (tools_enabled st)
          (tool_executor st) false
          (match current st with
           | Some c => Some (Conversation (web_search c) (tools_path c) false)
           | None => None
           end)
      else st
  end.

(** "Restore tool settings from conversation" in [load_conversation],
    for the conversation [c] that has been loaded. *)
Definition restore_settings (c : conversation) (st : settings)
    : M world settings :=
  match tools_path c with
  | Some p =>
      if ToolExecutor.nonempty p then
        (root <- new_executor p ;;
         ret (Settings (web_search c) true (Some root)
                (conv_shell_enabled c) (Some c)))%py
      else
        ret (Settings (web_search c) false None (conv_shell_enabled c)
               (Some c))
  | None =>
      ret (Settings (web_search c) false None (conv_shell_enabled c)
             (Some c))
  end.

(** [self.conversation = Conversation()] in [new_conversation], and
    likewise for an import: the session keeps its settings, the new
    conversation has none. *)
Definition new_conversation (st : settings) : settings :=
  Settings (web_search_enabled st) (tools_enabled st) (tool_executor st)
    (shell_enabled st) (Some (Conversation false None false)).

(** What the user does to the tool settings: the commands [/web],
    [/tools] and [/shell], a conversation loaded with its saved settings
    [c], a new conversation. *)
Inductive command :=
  | Web (arg : option string)
  | Tools (arg : option string)
  | Shell (arg : option string)
  | Load (c : conversation)
  | New.

Definition run_command (cmd : command) (st : settings) : M world settings :=
  match cmd with
  | Web arg => ret (web_command arg st)
  | Tools arg => tools_command arg st
  | Shell arg => ret (shell_command arg st)
  | Load c => restore_settings c st
  | New => ret (new_conversation st)
  end.

(** A session: the commands one after the other, as long as none
    raises. *)
Fixpoint run_commands (cmds : list command) (st : settings)
    : M world settings :=
  match cmds with
  | [] => ret st
  | cmd :: rest => (st' <- run_command cmd st ;; run_commands rest st')%py
  end.

End Commands.

(** ** Vocabulary of the properties *)

(** The tool of that name is in the list sent to the API. *)
Definition advertises (name : string) (st : settings) : bool :=
  match _build_tools_list st with
  | Some tools => existsb (fun t => String.eqb (tool_name t) name) tools
  | None => false
  end.

(** The root of the executor, if there is one, is a directory. *)
Definition root_is_dir (fs : gmap path node) (st : settings) : Prop :=
  forall root, tool_executor st = Some root -> fs !! root = Some Dir.

End Settings.

(* ===================================================================== *)
(** * Further cases for the examples *)
(* ===================================================================== *)

Module Cases.
Import Py Fs ToolExecutor.
Local Open Scope string_scope.

(** A shell whose command writes a file outside the project. *)
Definition careless_shell (command : pyval) (cwd : path)
    (fs : gmap path node) : proc_outcome * gmap path node :=
  (Completed EmptyString EmptyString 0, <[["etc"; "motd"] := File "hi"]> fs).

(** The listing of the project of [Demo]. *)
Definition root_listing : string :=
  PyStr.join nl ["    a.txt"; "[d] docs"; "[d] in"; "[d] out"].

Import Cache Session.

(** A tool round: an assistant message that asks for a file and the user
    message that answers it. *)
Definition tool_round : list message :=
  [Message "assistant"
     (Blocks [plain (ToolUse "toolu_1" "read_file"
                       (Demo.args [("path", VStr "a.txt")]))]);
   Message "user" (Blocks [plain (ToolResult "toolu_1" "hello")])].

(** The turn of [Demo]: one tool round, then the answer. *)
Definition read_turn : option session :=
  send_message (Demo.scripted [Demo.wants_file; Demo.answers])
    Demo.clock Demo.quiet_shell 2 "Read a.txt" Demo.session0.

Definition after_read : session := default Demo.session0 read_turn.

(** The session as the loop leaves it when the transport fails after one
    tool round. *)
Definition failed_turn : session :=
  match turn_loop (Demo.scripted [Demo.wants_file]) Demo.clock
          Demo.quiet_shell 2 0
          (append_message (Message "user" (Str "Read a.txt")) Demo.session0)
  with
  | Some (_, s) => s
  | None => Demo.session0
  end.




(** A session without a tool executor. *)
Definition bare_session : session :=
  Session [Message "user" (Str "What is in the project?");
           Message "assistant" (Str "Shall I look?")]
          Demo.zero_stats [] "1h" None Demo.world0 0.

Definition bare_turn : option session :=
  send_message (Demo.scripted [Demo.wants_file; Demo.answers])
    Demo.clock Demo.quiet_shell 2 "Read a.txt" bare_session.

Definition after_bare : session := default bare_session bare_turn.

(** ** A transcript and an export *)

Import Conversation.

(** The rest of [line] after [marker], if [line] starts with it. *)
Definition after (marker line : string) : option string :=
  if String.prefix marker line
  then Some (String.substring (String.length marker)
               (String.length line - String.length marker) line)
  else None.

(** Matchers that know one marker each. *)
Definition says_user : string -> option string := after "User: ".
Definition says_assistant : string -> option string := after "Assistant: ".

Definition lines (l : list string) : string := PyStr.join Conversation.nl l.

Definition transcript : string :=
  lines ["preamble"; "[Context: a demo]"; "User: hi"; "there";
         "Assistant: hello"; "User: bye"].

Definition two_lines : string := lines ["hi"; "there"].

Definition two_user_turns : string := lines ["User: a"; "User: b"].

Definition export : list export_message :=
  [ExportMessage "human" [XText "What is 2 + 2?"];
   ExportMessage "system" [XText "ignored"];
   ExportMessage "assistant" [XThinking "easy"; XText "4."];
   ExportMessage "assistant" [XToolUse "calc" "{}"; XOther "image"];
   ExportMessage "human" [XText "Thanks."]].

(** ** Tool settings *)

Import Settings.

(** [/tools proj], given in [/srv] at the start of a session. *)
Definition tools_on : result settings * world :=
  tools_command (fun s => s) (fun s => s) ["srv"] (Some "proj")
    (init false) Demo.world0.

Definition after_tools : settings :=
  match fst tools_on with
  | Ok st => st
  | Raise _ => init false
  end.

(** [/tools proj], then [/shell on]. *)
Definition shell_on : result settings * world :=
  run_commands (fun s => s) (fun s => s) ["srv"]
    [Tools (Some "proj"); Shell (Some "on")] (init false) Demo.world0.

Definition after_shell : settings :=
  match fst shell_on with
  | Ok st => st
  | Raise _ => init false
  end.

End Cases.

(* ===================================================================== *)
(** * Properties of the tool-rate limiter *)
(* ===================================================================== *)

Module RateLimiterFacts.
Import RateLimiter.
Local Open Scope string_scope.






(** Nine calls within one second, then a call 61 seconds after the last
    of them: the window restarts at one entry. *)
Example cluster_of_nine_then_61s :
  let cluster := [100; 100; 100; 100; 100; 100; 100; 100; 100]%Q in
  _check_tool_rate 161 cluster = (EmptyString, [161%Q]).
Proof. reflexivity. Qed.

(** The tenth call within the minute draws the note. *)
Example tenth_call_within_the_minute :
  let cluster := [100; 100; 100; 100; 100; 100; 100; 100; 100]%Q in
  _check_tool_rate 159 cluster = (advisory 10, (cluster ++ [159%Q])%list).
Proof. reflexivity. Qed.

(** A call exactly 60 seconds old is no longer in the window. *)
Example sixty_seconds_old_is_pruned :
  _check_tool_rate 160 [100%Q] = (EmptyString, [160%Q]).
Proof. reflexivity. Qed.

End RateLimiterFacts.

(* ===================================================================== *)
(** * Properties of the file system operations *)
(* ===================================================================== *)

Module FsFacts.
Import Py Fs.
Local Open Scope list_scope.

Ltac run :=
  unfold log, set_files;
  unfold bind, ret, raise, get, put, modify, try_except, try_except2;
  cbn [fst snd files trace].







Lemma prefix_snoc_inv (q l : path) (a : string) :
  q `prefix_of` l ++ [a] -> q `prefix_of` l \/ q = l ++ [a].
Proof.
  intros [k Hk]. destruct k as [| x k _] using rev_ind.
  - right. now rewrite app_nil_r in Hk.
  - left. rewrite app_assoc in Hk. apply app_inj_tail in Hk as [Hk _].
    now exists k.
Qed.

Lemma parent_snoc (l : path) (a : string) : parent (l ++ [a]) = l.
Proof. apply removelast_last. Qed.

Lemma well_formed_root (fs : gmap path node) :
  well_formed fs = true -> fs !! [] = Some Dir.
Proof.
  unfold well_formed. intros H. apply andb_prop in H as [H _].
  now apply bool_decide_eq_true_1 in H.
Qed.









End FsFacts.

(* ===================================================================== *)
(** * Properties of the tool executor *)
(* ===================================================================== *)

Module ToolExecutorFacts.
Import Py Fs ToolExecutor FsFacts.
Local Open Scope list_scope.

Section Facts.

Variable subprocess_run :
  pyval -> path -> gmap path node -> proc_outcome * gmap path node.
Variable project_root : path.

Lemma eqb_neq_false (a b : string) : a <> b -> String.eqb a b = false.
Proof. intros H. now apply String.eqb_neq. Qed.

(** C10.  For a tool name that is none of [list_dir], [read_file],
    [write_file] and [shell_exec], and for every input, [execute] returns
    the string [Error: Unknown tool '<name>'] and leaves the world as it
    was: no file is changed and no system call is made, be it to resolve a
    path, to look at the file system or to run a command. *)
Theorem execute_unknown_tool (tool_name : string)
    (tool_input : gmap string pyval) (w : world) :
  tool_name <> "list_dir"%string -> tool_name <> "read_file"%string ->
  tool_name <> "write_file"%string -> tool_name <> "shell_exec"%string ->
  execute subprocess_run project_root tool_name tool_input w
  = (Ok ("Error: Unknown tool '" ++ tool_name ++ "'")%string, w).
Proof.
  intros H1 H2 H3 H4.
  unfold execute, try_except2, dispatch.
  rewrite !eqb_neq_false by assumption.
  reflexivity.
Qed.


(** What [execute] makes of the outcome of the body of its [try]
    statement. *)
Lemma execute_of_dispatch (tool_name : string)
    (tool_input : gmap string pyval) (w : world) :
  execute subprocess_run project_root tool_name tool_input w
  = match dispatch subprocess_run project_root tool_name tool_input w with
    | (Ok s, w') => (Ok s, w')
    | (Raise e, w') => (Ok (error_string e), w')
    end.
Proof.
  unfold execute, try_except2, error_string, any_Exception, ret.
  destruct (dispatch subprocess_run project_root tool_name tool_input w)
    as [[s | e] w']; [reflexivity |].
  now destruct (is_ValueError (exc_type e)).
Qed.

Lemma execute_returns (tool_name : string)
    (tool_input : gmap string pyval) (w : world) :
  exists s w', execute subprocess_run project_root tool_name tool_input w
               = (Ok s, w').
Proof.
  rewrite execute_of_dispatch.
  destruct (dispatch subprocess_run project_root tool_name tool_input w)
    as [[s | e] w']; eauto.
Qed.








End Facts.

(** [execute_unknown_tool] at the name [delete_file]. *)
Lemma execute_unknown_tool_witness :
  execute Demo.quiet_shell Demo.root "delete_file" (Demo.args [("path", VStr "a.txt")])
    Demo.world0
  = (Ok "Error: Unknown tool 'delete_file'"%string, Demo.world0).
Proof.
  apply (execute_unknown_tool Demo.quiet_shell Demo.root "delete_file");
    discriminate.
Defined.


(** [..] sequences that climb out of the root are refused. *)
Example traversal_is_denied :
  fst (_safe_path Demo.root (VStr "../../etc/passwd") Demo.world0)
  = Raise (access_denied "../../etc/passwd").
Proof. vm_compute. reflexivity. Qed.

(** So is a symbolic link that points out of the root. *)
Example link_out_is_denied :
  fst (_safe_path Demo.root (VStr "out/passwd") Demo.world0)
  = Raise (access_denied "out/passwd").
Proof. vm_compute. reflexivity. Qed.

(** A string that starts with the root may still leave it, and a root
    whose string is a prefix of a path need not contain it. *)
Example raw_prefix_is_not_enough :
  fst (_safe_path Demo.root (VStr "/srv/proj/../../etc/passwd") Demo.world0)
  = Raise (access_denied "/srv/proj/../../etc/passwd")
  /\ fst (_safe_path ["srv"; "pro"] (VStr "/srv/proj/a.txt") Demo.world0)
     = Raise (access_denied "/srv/proj/a.txt").
Proof. split; vm_compute; reflexivity. Qed.

(** Paths that come back inside, or never leave, are accepted. *)
Example inside_is_allowed :
  fst (_safe_path Demo.root (VStr "docs/../a.txt") Demo.world0)
  = Ok ["srv"; "proj"; "a.txt"]
  /\ fst (_safe_path Demo.root (VStr "in/../docs/./x") Demo.world0)
     = Ok ["srv"; "proj"; "docs"; "x"]
  /\ fst (_safe_path Demo.root (VStr ".") Demo.world0) = Ok ["srv"; "proj"]
  /\ fst (_safe_path Demo.root (VStr "../proj/a.txt") Demo.world0)
     = Ok ["srv"; "proj"; "a.txt"].
Proof. repeat split; vm_compute; reflexivity. Qed.



(** A carriage return is written but is not read back: the text-mode
    read translates it. *)
Example carriage_return_is_not_read_back :
  let w := snd (_write_file Demo.root (VStr "n.txt") (VStr Demo.crlf_text)
                  Demo.world0) in
  files w !! ["srv"; "proj"; "n.txt"] = Some (File Demo.crlf_text)
  /\ fst (_read_file Demo.root (VStr "n.txt") w)
     = Ok (String "a" (String PyStr.lf (String "b" EmptyString))).
Proof. split; vm_compute; reflexivity. Qed.

(** The number in the message is [len(content)], a number of characters:
    one for U+00E9, which is written as two bytes. *)
Example characters_are_counted_not_bytes :
  fst (_write_file Demo.root (VStr "e.txt") (VStr Demo.e_acute) Demo.world0)
  = Ok "Successfully wrote 1 bytes to e.txt"%string
  /\ PyStr.byte_len Demo.e_acute = 2.
Proof. split; vm_compute; reflexivity. Qed.

(** A path below a regular file cannot be written either. *)
Example write_below_a_file_fails :
  fst (execute Demo.quiet_shell Demo.root "write_file"
         (Demo.args [("path", VStr "a.txt/z"); ("content", VStr "x")])
         Demo.world0)
  = Ok "Error: FileExistsError: [Errno 17] File exists: '/srv/proj/a.txt'"%string.
Proof. vm_compute. reflexivity. Qed.

(** A sandbox violation, a missing key, an argument of the wrong type and
    a fault of the operating system, as [execute] reports them. *)
Example errors_become_strings :
  fst (execute Demo.quiet_shell Demo.root "read_file"
         (Demo.args [("path", VStr "../../etc/passwd")]) Demo.world0)
  = Ok "Error: Access denied: path '../../etc/passwd' is outside project root"%string
  /\ fst (execute Demo.quiet_shell Demo.root "read_file"
            (Demo.args [("file", VStr "a.txt")]) Demo.world0)
     = Ok "Error: KeyError: 'path'"%string
  /\ fst (execute Demo.quiet_shell Demo.root "write_file"
            (Demo.args [("path", VStr "a.txt"); ("content", VNonStr "int" "5")])
            Demo.world0)
     = Ok "Error: TypeError: data must be str, not int"%string
  /\ fst (execute (fun _ _ fs => (SpawnError (Exn (OtherException "BlockingIOError") "[Errno 11] Resource temporarily unavailable"), fs))
            Demo.root "shell_exec"
            (Demo.args [("command", VStr "ls")]) Demo.world0)
     = Ok "Error: BlockingIOError: [Errno 11] Resource temporarily unavailable"%string.
Proof. repeat split; vm_compute; reflexivity. Qed.

End ToolExecutorFacts.

(* ===================================================================== *)
(** * Properties of the turn engine *)
(* ===================================================================== *)

Module SessionFacts.
Import Py Cache Session.
Local Open Scope list_scope.

Lemma api_tool_ids_filter (l : list api_block) :
  api_tool_ids (List.filter is_tool_use l) = api_tool_ids l.
Proof.
  unfold api_tool_ids.
  induction l as [| b l IH]; [reflexivity |].
  destruct b; cbn; rewrite ?IH; reflexivity.
Qed.

Lemma tool_use_ids_serialize (r : string) (l : list api_block) :
  tool_use_ids (Message r (Blocks (_serialize_content l))) = api_tool_ids l.
Proof.
  unfold tool_use_ids, blocks_of, _serialize_content, api_tool_ids.
  cbn [msg_content].
  induction l as [| b l IH]; [reflexivity |].
  destruct b; cbn; rewrite ?IH; reflexivity.
Qed.

Lemma api_tool_ids_nil (l : list api_block) :
  api_tool_ids l = [] -> List.filter is_tool_use l = [].
Proof.
  unfold api_tool_ids.
  induction l as [| b l IH]; [reflexivity |].
  destruct b; cbn; auto; discriminate.
Qed.

(** A serialized response holds no tool result. *)
Lemma serialized_is_no_tool_result (r : string) (l : list api_block) :
  is_tool_result_message (Message r (Blocks (_serialize_content l))) = false.
Proof.
  unfold is_tool_result_message, tool_result_ids. cbn [msg_content].
  induction l as [| b l IH]; [reflexivity |].
  destruct b; cbn; try reflexivity. exact IH.
Qed.

Lemma count_role_app (r : string) (l1 l2 : list message) :
  count_role r (l1 ++ l2) = count_role r l1 + count_role r l2.
Proof. unfold count_role. now rewrite List.filter_app, length_app. Qed.

Lemma count_tool_result_messages_app (l1 l2 : list message) :
  count_tool_result_messages (l1 ++ l2)
  = count_tool_result_messages l1 + count_tool_result_messages l2.
Proof.
  unfold count_tool_result_messages. now rewrite List.filter_app, length_app.
Qed.

(** A message with a tool request in it bears no tool results. *)
Lemma tool_request_has_no_result_ids (msg : message) :
  tool_use_ids msg <> [] -> tool_result_ids msg = None.
Proof.
  unfold tool_use_ids, tool_result_ids, blocks_of.
  destruct (msg_content msg) as [s | l]; [reflexivity |].
  induction l as [| b l IH]; [cbn; congruence |].
  intros Hids. cbn [flat_map] in Hids. cbn [mapM].
  unfold result_id in *.
  destruct (body b) eqn:Hbody; try reflexivity.
  cbn [app] in Hids. cbn. rewrite (IH Hids). reflexivity.
Qed.

Lemma tool_request_is_no_tool_result (msg : message) :
  tool_use_ids msg <> [] -> is_tool_result_message msg = false.
Proof.
  intros H. unfold is_tool_result_message.
  now rewrite (tool_request_has_no_result_ids msg H).
Qed.

(** [n] rounds are [2 n] messages, [n] of them from the assistant and [n]
    of them bearing tool results. *)
Lemma tool_rounds_counts (n : nat) : forall l,
  tool_rounds n l ->
  length l = 2 * n
  /\ count_role "assistant" l = n
  /\ count_tool_result_messages l = n.
Proof.
  induction n as [| n IH]; intros l; cbn [tool_rounds].
  - intros ->. auto.
  - intros (a & u & rest & -> & Ha & Hreq & Hu & Hres & Hrest).
    destruct (IH _ Hrest) as (Hlen & Hasst & Hresults).
    unfold count_role, count_tool_result_messages in *.
    cbn [List.filter length].
    rewrite Ha, Hu, (tool_request_is_no_tool_result a Hreq).
    unfold is_tool_result_message at 1. rewrite Hres.
    destruct (tool_use_ids a) as [| x ids] eqn:Hids; [congruence |].
    cbn. repeat split; lia.
Qed.

Section Facts.

Variable stream : nat -> list message -> stream_outcome.
Variable time : nat -> Q.
Variable subprocess_run :
  pyval -> Fs.path -> gmap Fs.path Fs.node
  -> ToolExecutor.proc_outcome * gmap Fs.path Fs.node.

Local Abbreviation run_tool := (run_tool time subprocess_run).
Local Abbreviation run_tools := (run_tools time subprocess_run).
Local Abbreviation turn_loop := (turn_loop stream time subprocess_run).
Local Abbreviation send_message := (send_message stream time subprocess_run).
Local Abbreviation has_rounds := (has_rounds stream time subprocess_run).
Local Abbreviation fails_after := (fails_after stream time subprocess_run).

Lemma keeps_ret {A} (a : A) : keeps (ret a).
Proof. intros s r s' [= _ <-]. auto. Qed.

Lemma keeps_bind {A B} (m : M session A) (k : A -> M session B) :
  keeps m -> (forall a, keeps (k a)) -> keeps (bind m k).
Proof.
  intros Hm Hk s r s'. unfold bind.
  destruct (m s) as [[a | e] s1] eqn:Hrun; apply Hm in Hrun as [Hmsg Httl].
  - intros Hrest. apply Hk in Hrest as [Hmsg' Httl']. split; congruence.
  - intros [= _ <-]. auto.
Qed.

Lemma keeps_for_in {A B} (f : A -> M session B) (l : list A) :
  (forall a, keeps (f a)) -> keeps (for_in f l).
Proof.
  intros Hf. induction l as [| a l IH]; cbn [for_in].
  - apply keeps_ret.
  - apply keeps_bind; [apply Hf |]. intros b.
    apply keeps_bind; [exact IH |]. intros bs. apply keeps_ret.
Qed.

Lemma keeps_set_stats (f : stats -> stats) : keeps (modify (set_stats f)).
Proof. intros s r s' [= _ <-]. auto. Qed.

Lemma keeps_execute_tool (name : string) (input : gmap string pyval) :
  keeps (execute_tool subprocess_run name input).
Proof.
  intros s r s'. unfold execute_tool.
  destruct (tool_executor s) as [root |].
  - destruct (ToolExecutor.execute subprocess_run root name input (os s)).
    intros [= _ <-]. auto.
  - intros [= _ <-]. auto.
Qed.

Lemma keeps_check_tool_rate : keeps (_check_tool_rate time).
Proof.
  intros s r s'. unfold _check_tool_rate.
  destruct (RateLimiter._check_tool_rate (time (ticks s)) (recent_tool_calls s)).
  intros [= _ <-]. auto.
Qed.

(** Running the tools leaves the conversation and the configuration
    alone. *)
Lemma keeps_run_tool (tu : api_block) : keeps (run_tool tu).
Proof.
  destruct tu; cbn [Session.run_tool]; try apply keeps_ret.
  apply keeps_bind; [apply keeps_set_stats |]. intros _.
  apply keeps_bind; [apply keeps_execute_tool |]. intros result.
  apply keeps_bind; [apply keeps_check_tool_rate |]. intros note.
  apply keeps_ret.
Qed.

Lemma keeps_run_tools (tus : list api_block) : keeps (run_tools tus).
Proof.
  unfold Session.run_tools.
  apply keeps_bind; [apply keeps_for_in, keeps_run_tool |].
  intros results. apply keeps_ret.
Qed.

(** What [run_tool] returns for a tool request. *)
Lemma run_tool_result (id name : string) (input : gmap string pyval)
    (s s' : session) (b : list block) :
  run_tool (ToolUseBlock id name input) s = (Ok b, s') ->
  exists c, b = [plain (ToolResult id c)].
Proof.
  cbn [Session.run_tool]. unfold bind, modify, ret.
  destruct (execute_tool subprocess_run name input _) as [[res | e] s1];
    [| discriminate].
  destruct (_check_tool_rate time s1) as [[note | e] s2]; [| discriminate].
  intros [= <- _]. eauto.
Qed.

(** Tool failures are not turn failures: running the tools of a response
    always returns. *)
Lemma run_tool_returns (tu : api_block) (s : session) :
  exists b s', run_tool tu s = (Ok b, s').
Proof.
  destruct tu as [| | id name input |]; cbn [Session.run_tool];
    try (unfold ret; eauto; fail).
  unfold bind, modify, ret, execute_tool, _check_tool_rate.
  destruct (tool_executor (set_stats incr_tool_calls s)) as [root |].
  - destruct (ToolExecutorFacts.execute_returns subprocess_run root name input
                (os (set_stats incr_tool_calls s))) as (r & w & ->).
    destruct (RateLimiter._check_tool_rate _ _). eauto.
  - destruct (RateLimiter._check_tool_rate _ _). eauto.
Qed.

Lemma run_tools_returns (tus : list api_block) : forall s,
  exists results s', run_tools tus s = (Ok results, s').
Proof.
  unfold Session.run_tools.
  induction tus as [| tu tus IH]; intros s; cbn [for_in].
  - unfold bind, ret. eauto.
  - destruct (run_tool_returns tu s) as (b & s1 & Hb).
    destruct (IH s1) as (results & s2 & Hrest).
    unfold bind in *. rewrite Hb.
    destruct (for_in run_tool tus s1) as [[bs | e] s3]; [| discriminate].
    unfold ret. eauto.
Qed.

(** One result per request, with its id, in the order of the requests. *)
Lemma run_tools_ids (tus : list api_block) : forall s s' results,
  run_tools tus s = (Ok results, s') ->
  mapM result_id results = Some (api_tool_ids tus).
Proof.
  unfold Session.run_tools.
  induction tus as [| tu tus IH]; intros s s' results.
  - cbn. now intros [= <- _].
  - cbn [for_in]. unfold bind.
    destruct (run_tool tu s) as [[b | e] s1] eqn:Htool; [| discriminate].
    specialize (IH s1). unfold bind in IH.
    destruct (for_in run_tool tus s1) as [[bs | e] s2]; [| discriminate].
    cbn [ret]. intros [= <- <-].
    specialize (IH s2 (concat bs) eq_refl).
    destruct tu as [| | id name input |];
      try (cbn in Htool; injection Htool as <- _; exact IH).
    apply run_tool_result in Htool as [c ->].
    cbn. unfold api_tool_ids in IH. rewrite IH. reflexivity.
Qed.

Lemma requests_tools_ids (r : response) :
  requests_tools r = true ->
  stop_reason r = "tool_use"%string /\ api_tool_ids (resp_content r) <> [].
Proof.
  unfold requests_tools. intros H. apply andb_prop in H as [Hstop Htools].
  split; [now apply String.eqb_eq |].
  intros Hnil. unfold tool_uses_of in Htools.
  now rewrite (api_tool_ids_nil _ Hnil) in Htools.
Qed.

Lemma final_message_role (events : list event) (r : response) :
  role (final_message events r) = "assistant"%string
  /\ is_tool_result_message (final_message events r) = false.
Proof.
  unfold final_message.
  destruct (String.eqb (stop_reason r) "tool_use"); split; try reflexivity.
  apply serialized_is_no_tool_result.
Qed.

Lemma record_response_messages (r : response) (s : session) :
  messages (record_response r s) = messages s
  /\ cache_ttl (record_response r s) = cache_ttl s.
Proof. unfold record_response. destruct (resp_usage r); auto. Qed.

(** The loop of a turn with [n] tool rounds: it ends, having appended the
    rounds and one last assistant message. *)
Lemma turn_loop_rounds (n : nat) : forall i s,
  has_rounds n i s ->
  exists s' rounds final,
    (forall fuel, n < fuel -> turn_loop fuel i s = Some (Ok tt, s'))
    /\ messages s' = messages s ++ rounds ++ [final]
    /\ tool_rounds n rounds
    /\ role final = "assistant"%string
    /\ is_tool_result_message final = false.
Proof.
  induction n as [| n IH]; intros i s Hrounds; cbn [Session.has_rounds] in Hrounds.
  - destruct (stream i _) as [events r | events e] eqn:Hstream; [| contradiction].
    exists (append_message (final_message events r) (record_response r s)),
           [], (final_message events r).
    split; [| split; [| split; [reflexivity | apply final_message_role]]].
    + intros [| fuel] Hfuel; [lia |].
      cbn [Session.turn_loop]. rewrite Hstream, Hrounds. reflexivity.
    + cbn. now rewrite (proj1 (record_response_messages r s)).
  - destruct (stream i _) as [events r | events e] eqn:Hstream; [| contradiction].
    destruct Hrounds as (Htools & results & s1 & Hrun & Hrest).
    destruct (IH _ _ Hrest) as (s' & rounds & final & Hloop & Hmsgs & Hshape & Hfinal).
    exists s', (tool_use_message r :: Message "user" (Blocks results) :: rounds),
           final.
    split; [| split; [| split; [| exact Hfinal]]].
    + intros [| fuel] Hfuel; [lia |].
      cbn [Session.turn_loop]. rewrite Hstream, Htools. cbn [negb].
      rewrite Hrun. apply Hloop. lia.
    + rewrite Hmsgs. cbn [append_message set_messages messages].
      apply keeps_run_tools in Hrun as [Hkeep _]. rewrite Hkeep.
      cbn [append_message set_messages messages].
      rewrite (proj1 (record_response_messages r s)).
      rewrite <- !app_assoc. reflexivity.
    + cbn [tool_rounds]. do 3 eexists. split; [reflexivity |].
      apply requests_tools_ids in Htools as [_ Hids].
      unfold tool_use_message. rewrite tool_use_ids_serialize.
      repeat split; [exact Hids | | exact Hshape].
      cbn. unfold tool_result_ids. cbn [msg_content].
      rewrite (run_tools_ids _ _ _ _ Hrun). unfold tool_uses_of.
      now rewrite api_tool_ids_filter.
Qed.

(** C4.  In a turn with exactly [n] rounds of tool requests followed by a
    response that does not ask for tools, [send_message] returns (given
    more than [n] units of fuel) and has appended to the conversation:
    the user message, then [n] times an assistant message with tool
    requests followed by a user message with one tool result per request,
    same ids, same order, then one assistant message; that is [n + 1]
    assistant messages and [n] messages bearing tool results. *)
Theorem send_message_appends_rounds (n : nat) (user_input : string)
    (s : session) :
  has_rounds n 0 (append_message (Message "user" (Str user_input)) s) ->
  exists s' rounds final,
    (forall fuel, n < fuel -> send_message fuel user_input s = Some s')
    /\ messages s'
       = messages s ++ Message "user" (Str user_input) :: rounds ++ [final]
    /\ tool_rounds n rounds
    /\ role final = "assistant"%string
    /\ count_role "assistant"
         (Message "user" (Str user_input) :: rounds ++ [final]) = S n
    /\ count_tool_result_messages
         (Message "user" (Str user_input) :: rounds ++ [final]) = n.
Proof.
  intros Hrounds.
  destruct (turn_loop_rounds n 0 _ Hrounds)
    as (s' & rounds & final & Hloop & Hmsgs & Hshape & Hrole & Hfinal).
  exists s', rounds, final.
  destruct (tool_rounds_counts n rounds Hshape) as (_ & Hasst & Hresults).
  split; [| split; [| split; [exact Hshape | split; [exact Hrole |]]]].
  - intros fuel Hfuel. unfold Session.send_message.
    now rewrite (Hloop fuel Hfuel).
  - rewrite Hmsgs. cbn [append_message set_messages messages].
    now rewrite <- app_assoc.
  - change (Message "user" (Str user_input) :: rounds ++ [final])
      with ([Message "user" (Str user_input)] ++ rounds ++ [final]).
    rewrite !count_role_app, !count_tool_result_messages_app, Hasst, Hresults.
    unfold count_role, count_tool_result_messages.
    cbn [List.filter length role]. rewrite Hrole, Hfinal. cbn. split; lia.
Qed.





(** The loop of a turn whose request fails after [n] tool rounds: it ends
    with the exception, having appended the rounds. *)
Lemma turn_loop_fails_after (e : exn) (n : nat) : forall i s,
  fails_after e n i s ->
  exists s' rounds,
    (forall fuel, n < fuel -> turn_loop fuel i s = Some (Raise e, s'))
    /\ messages s' = messages s ++ rounds
    /\ tool_rounds n rounds.
Proof.
  induction n as [| n IH]; intros i s Hfails; cbn [Session.fails_after] in Hfails.
  - destruct (stream i _) as [events r | events e'] eqn:Hstream; [contradiction |].
    subst e'. exists s, []. split; [| split; [now rewrite app_nil_r | reflexivity]].
    intros [| fuel] Hfuel; [lia |].
    cbn [Session.turn_loop]. now rewrite Hstream.
  - destruct (stream i _) as [events r | events e'] eqn:Hstream; [| contradiction].
    destruct Hfails as (Htools & results & s1 & Hrun & Hrest).
    destruct (IH _ _ Hrest) as (s' & rounds & Hloop & Hmsgs & Hshape).
    exists s', (tool_use_message r :: Message "user" (Blocks results) :: rounds).
    split; [| split].
    + intros [| fuel] Hfuel; [lia |].
      cbn [Session.turn_loop]. rewrite Hstream, Htools. cbn [negb].
      rewrite Hrun. apply Hloop. lia.
    + rewrite Hmsgs. cbn [append_message set_messages messages].
      apply keeps_run_tools in Hrun as [Hkeep _]. rewrite Hkeep.
      cbn [append_message set_messages messages].
      rewrite (proj1 (record_response_messages r s)).
      rewrite <- !app_assoc. reflexivity.
    + cbn [tool_rounds]. do 3 eexists. split; [reflexivity |].
      apply requests_tools_ids in Htools as [_ Hids].
      unfold tool_use_message. rewrite tool_use_ids_serialize.
      repeat split; [exact Hids | | exact Hshape].
      cbn. unfold tool_result_ids. cbn [msg_content].
      rewrite (run_tools_ids _ _ _ _ Hrun). unfold tool_uses_of.
      now rewrite api_tool_ids_filter.
Qed.

Lemma tool_rounds_last (n : nat) : forall l,
  tool_rounds (S n) l ->
  exists kept a u,
    l = kept ++ [a; u]
    /\ role a = "assistant"%string /\ tool_use_ids a <> []
    /\ role u = "user"%string.
Proof.
  induction n as [| n IH]; intros l (a & u & rest & -> & Ha & Hreq & Hu & _ & Hrest).
  - cbn in Hrest. subst rest. exists [], a, u. auto.
  - destruct (IH _ Hrest) as (kept & a' & u' & -> & Ha' & Hreq' & Hu').
    exists (a :: u :: kept), a', u'. auto.
Qed.

(** A failure after at least one tool round: what [send_message] removes
    is the last message of tool results, and the conversation is left
    ending with the assistant message that asked for those tools. *)
Lemma failure_after_tool_rounds_keeps_tool_request (e : exn) (n : nat)
    (user_input : string) (s : session) :
  fails_after e (S n) 0 (append_message (Message "user" (Str user_input)) s) ->
  exists s' kept a,
    (forall fuel, S n < fuel -> send_message fuel user_input s = Some s')
    /\ messages s'
       = messages s ++ Message "user" (Str user_input) :: kept ++ [a]
    /\ role a = "assistant"%string
    /\ tool_use_ids a <> [].
Proof.
  intros Hfails.
  destruct (turn_loop_fails_after e (S n) 0 _ Hfails)
    as (s1 & rounds & Hloop & Hmsgs & Hshape).
  destruct (tool_rounds_last n rounds Hshape)
    as (kept & a & u & -> & Ha & Hreq & Hu).
  cbn [append_message set_messages messages] in Hmsgs.
  assert (Hsplit : messages s1
            = (messages s ++ Message "user" (Str user_input) :: kept ++ [a])
              ++ [u]).
  { rewrite Hmsgs. rewrite <- !app_assoc. cbn. rewrite <- !app_assoc.
    reflexivity. }
  exists (rollback s1), kept, a.
  split; [| split; [| auto]].
  - intros fuel Hfuel. unfold Session.send_message.
    now rewrite (Hloop fuel Hfuel).
  - unfold rollback. rewrite Hsplit, last_snoc, Hu.
    change (String.eqb "user" "user") with true. cbv iota.
    unfold set_messages. cbn [messages].
    now rewrite Hsplit, removelast_last.
Qed.

End Facts.

(** C1 fails on the code.  The conversation holds a completed exchange; the
    model first asks to read a file, the tool runs, and the second request
    of the turn fails.  What [send_message] removes is the message of
    tool results: the user message of the turn and the assistant message
    with the tool request stay, and the conversation no longer ends with
    the message it ended with before the call. *)
Theorem rollback_after_tool_round_is_partial :
  let stream := Demo.scripted [Demo.wants_file] in
  let after :=
    send_message stream Demo.clock Demo.quiet_shell 3 "Read a.txt"
      Demo.session0 in
  (messages <$> after)
  = Some (messages Demo.session0
          ++ [Message "user" (Str "Read a.txt");
              Message "assistant"
                (Blocks [plain (Thinking "read it" (Some "c2ln"%string));
                         plain (ToolUse "toolu_1" "read_file"
                                  (Demo.args [("path"%string, VStr "a.txt")]))])])
  /\ (last <$> (messages <$> after)) <> Some (last (messages Demo.session0)).
Proof.
  cbv zeta. split.
  - vm_compute. reflexivity.
  - vm_compute. discriminate.
Qed.

(** [send_message_appends_rounds] at a turn with one tool round. *)
Lemma send_message_appends_rounds_witness :
  exists s' rounds final,
    (forall fuel, 1 < fuel ->
       send_message (Demo.scripted [Demo.wants_file; Demo.answers])
         Demo.clock Demo.quiet_shell fuel "Read a.txt" Demo.session0
       = Some s')
    /\ messages s'
       = messages Demo.session0
         ++ Message "user" (Str "Read a.txt") :: rounds ++ [final]
    /\ tool_rounds 1 rounds
    /\ role final = "assistant"%string
    /\ count_role "assistant"
         (Message "user" (Str "Read a.txt") :: rounds ++ [final]) = 2
    /\ count_tool_result_messages
         (Message "user" (Str "Read a.txt") :: rounds ++ [final]) = 1.
Proof.
  apply (send_message_appends_rounds
           (Demo.scripted [Demo.wants_file; Demo.answers])
           Demo.clock Demo.quiet_shell 1 "Read a.txt" Demo.session0).
  cbn [Session.has_rounds]. vm_compute.
  split; [reflexivity |]. do 2 eexists. split; reflexivity.
Defined.

(** The messages of that turn. *)
Example one_tool_round :
  messages <$> send_message (Demo.scripted [Demo.wants_file; Demo.answers])
                 Demo.clock Demo.quiet_shell 2 "Read a.txt" Demo.session0
  = Some (messages Demo.session0
          ++ [Message "user" (Str "Read a.txt");
              Message "assistant"
                (Blocks [plain (Thinking "read it" (Some "c2ln"%string));
                         plain (ToolUse "toolu_1" "read_file"
                                  (Demo.args [("path"%string, VStr "a.txt")]))]);
              Message "user" (Blocks [plain (ToolResult "toolu_1" "hello")]);
              Message "assistant" (Str "It says hello.")]).
Proof. vm_compute. reflexivity. Qed.


(** A response with a tool request in it is stored as plain text when its
    stop reason is not [tool_use]. *)
Example truncated_tool_request_is_stored_as_text :
  (last <$> (messages <$>
     send_message (Demo.scripted [Demo.truncated]) Demo.clock Demo.quiet_shell
       1 "Hello" Demo.session0))
  = Some (Some (Message "assistant" (Str "Let me"))).
Proof. vm_compute. reflexivity. Qed.


End SessionFacts.

(* ===================================================================== *)
(** * Properties of the cache planner *)
(* ===================================================================== *)

Module CacheFacts.
Import Py Cache.
Local Open Scope list_scope.

Lemma indices_from_cons (k : nat) (msg : message) (l : list message) :
  indices_from k (msg :: l)
  = if is_human_message msg then k :: indices_from (S k) l
    else indices_from (S k) l.
Proof.
  unfold indices_from. cbn [enumerate_from List.filter snd].
  now destruct (is_human_message msg).
Qed.

Lemma length_indices_from (k : nat) (l : list message) :
  length (indices_from k l) = count_humans l.
Proof.
  revert k. unfold count_humans.
  induction l as [| msg l IH]; intros k; [reflexivity |].
  rewrite indices_from_cons. cbn [List.filter].
  destruct (is_human_message msg); cbn [length]; now rewrite IH.
Qed.

(** [cache_index_of], by what is left of the list. *)
Lemma cache_index_cons (k : nat) (msg : message) (l : list message) :
  cache_index_of (indices_from k (msg :: l))
  = if is_human_message msg
    then match count_humans l with
         | 0 => (-1)%Z
         | 1 => Z.of_nat k
         | _ => cache_index_of (indices_from (S k) l)
         end
    else cache_index_of (indices_from (S k) l).
Proof.
  rewrite indices_from_cons.
  destruct (is_human_message msg); [| reflexivity].
  unfold cache_index_of. cbn [length].
  rewrite length_indices_from.
  destruct (count_humans l) as [| [| n]] eqn:Hcount; try reflexivity.
  cbn [Nat.leb Nat.sub nth]. now rewrite Nat.sub_0_r.
Qed.

Lemma cache_index_ge (l : list message) : forall k,
  2 <= count_humans l ->
  (Z.of_nat k <= cache_index_of (indices_from k l))%Z.
Proof.
  induction l as [| msg l IH]; intros k Hcount; [cbn in Hcount; lia |].
  rewrite cache_index_cons.
  unfold count_humans in Hcount. cbn [List.filter] in Hcount.
  fold (count_humans l) in IH.
  destruct (is_human_message msg); cbn [length] in Hcount;
    fold (count_humans l) in Hcount.
  - destruct (count_humans l) as [| [| n]] eqn:Hn; [lia | lia |].
    specialize (IH (S k)). lia.
  - specialize (IH (S k)). lia.
Qed.

(** One step of the loop, when the index is the cache index and when it
    is not. *)
Lemma prepare_one_marked (cc : cache_control) (i : nat) (msg : message) :
  prepare_one cc (Z.of_nat i) i msg = with_marker cc msg.
Proof.
  unfold prepare_one, prepare_content, with_marker, normalize, blocks_of.
  rewrite Z.eqb_refl. now destruct msg as [r [s | l]].
Qed.

Lemma prepare_one_plain (cc : cache_control) (ci : Z) (i : nat)
    (msg : message) :
  Z.of_nat i <> ci -> prepare_one cc ci i msg = normalize msg.
Proof.
  intros Hne. unfold prepare_one, prepare_content, normalize.
  destruct msg as [r [s | l]]; cbn [msg_content role];
    now rewrite (proj2 (Z.eqb_neq _ _) Hne).
Qed.

Lemma count_humans_cons (msg : message) (l : list message) :
  count_humans (msg :: l)
  = if is_human_message msg then S (count_humans l) else count_humans l.
Proof.
  unfold count_humans. cbn [List.filter]. now destruct (is_human_message msg).
Qed.

(** The loop computes the annotated request. *)
Lemma loop_is_annotate (cc : cache_control) (ci : Z) (l : list message) :
  forall k, index_for ci k l ->
  map (fun im => prepare_one cc ci (fst im) (snd im)) (enumerate_from k l)
  = annotate cc l.
Proof.
  induction l as [| msg l IH]; intros k Hci; [reflexivity |].
  cbn [enumerate_from map annotate fst snd].
  unfold index_for in Hci. rewrite count_humans_cons in Hci.
  assert (Hstep :
    prepare_one cc ci k msg
    = (if is_human_message msg && (count_humans l =? 1)%nat
       then with_marker cc msg else normalize msg)
    /\ index_for ci (S k) l).
  { unfold index_for.
    destruct (is_human_message msg) eqn:Hhuman; cbn [andb].
    - destruct (count_humans l) as [| [| n]] eqn:Hn; cbn [Nat.leb Nat.eqb] in *.
      + split; [apply prepare_one_plain | ]; lia.
      + rewrite cache_index_cons, Hhuman, Hn in Hci. subst ci.
        split; [apply prepare_one_marked | lia].
      + rewrite cache_index_cons, Hhuman, Hn in Hci.
        split; [| exact Hci].
        apply prepare_one_plain. subst ci.
        pose proof (cache_index_ge l (S k)). lia.
    - destruct (2 <=? count_humans l)%nat eqn:Hn.
      + rewrite cache_index_cons, Hhuman in Hci.
        split; [| exact Hci].
        apply prepare_one_plain. subst ci. apply Nat.leb_le in Hn.
        pose proof (cache_index_ge l (S k)). lia.
      + split; [apply prepare_one_plain |]; lia. }
  destruct Hstep as [-> Hrest]. f_equal. now apply IH.
Qed.

Lemma index_for_start (l : list message) :
  index_for (cache_index_of (human_indices l)) 0 l.
Proof.
  unfold index_for, human_indices, enumerate.
  fold (indices_from 0 l).
  destruct (2 <=? count_humans l)%nat eqn:Hn; [reflexivity |].
  unfold cache_index_of. rewrite length_indices_from, Hn. lia.
Qed.

(** The function of the source computes the contract. *)
Lemma prepare_refines_spec (messages : list message) (cache_ttl : string) :
  prepare_messages_for_cache messages cache_ttl
  = prepare_spec messages cache_ttl.
Proof.
  unfold prepare_messages_for_cache, prepare_spec.
  destruct (String.eqb cache_ttl "off" || (length messages <? 2)%nat);
    [reflexivity |].
  apply loop_is_annotate, index_for_start.
Qed.

Lemma count_humans_app (l1 l2 : list message) :
  count_humans (l1 ++ l2) = count_humans l1 + count_humans l2.
Proof. unfold count_humans. now rewrite List.filter_app, length_app. Qed.

(** With fewer than two human-text messages nothing is marked. *)
Lemma annotate_few (cc : cache_control) (l : list message) :
  count_humans l < 2 -> annotate cc l = map normalize l.
Proof.
  induction l as [| msg l IH]; [reflexivity |].
  rewrite count_humans_cons. cbn [annotate map]. intros Hcount.
  destruct (is_human_message msg); cbn [andb].
  - destruct (count_humans l =? 1)%nat eqn:Hone.
    + apply Nat.eqb_eq in Hone. lia.
    + f_equal. apply IH. lia.
  - f_equal. now apply IH.
Qed.







(** The test of the source is the definition of the specification. *)
Lemma is_human_message_spec (msg : message) :
  is_human_message msg = true <-> human_text msg.
Proof.
  unfold is_human_message, human_text.
  destruct (String.eqb_spec (role msg) "user") as [Hrole | Hrole]; cbn [negb].
  - destruct msg as [r [s | l]]; cbn -[String.eqb] in *.
    + split; [intros _ | reflexivity].
      split; [exact Hrole |]. exists (plain (Text s)). split; [now left | reflexivity].
    + rewrite existsb_exists. tauto.
  - split; [discriminate | tauto].
Qed.



(** A conversation with a tool round between two human messages, at the
    time of the request that follows the second question: the marker goes
    on the first question, and the message of tool results is not
    human-text. *)
Example marker_placement :
  prepare_messages_for_cache
    [Message "user" (Str "q1");
     Message "assistant" (Blocks [plain (ToolUse "t1" "list_dir" ∅)]);
     Message "user" (Blocks [plain (ToolResult "t1" "a.txt")]);
     Message "assistant" (Str "a1");
     Message "user" (Str "q2")] "1h"
  = [Message "user"
       (Blocks [Block (Text "q1")
                  (Some (CacheControl "ephemeral" (Some 3600%Z)))]);
     Message "assistant" (Blocks [plain (ToolUse "t1" "list_dir" ∅)]);
     Message "user" (Blocks [plain (ToolResult "t1" "a.txt")]);
     Message "assistant" (Blocks [plain (Text "a1")]);
     Message "user" (Blocks [plain (Text "q2")])].
Proof. vm_compute. reflexivity. Qed.

End CacheFacts.

(* ===================================================================== *)
(** * Properties of the cache planner on the store *)
(* ===================================================================== *)

Module HeapFacts.
Import Py Cache Heap CacheFacts.
Local Open Scope list_scope.

(** ** A larger store denotes the same values *)

Lemma mapM_mono {A B} (f g : A -> option B) (l : list A) (k : list B) :
  (forall x y, f x = Some y -> g x = Some y) ->
  mapM f l = Some k -> mapM g l = Some k.
Proof.
  intros Hfg. rewrite !mapM_Some. intros H.
  eapply Forall2_impl; [exact H | exact Hfg].
Qed.

Lemma mapM_cons_inv {A B} (f : A -> option B) (x : A) (l : list A)
    (k : list B) :
  mapM f (x :: l) = Some k ->
  exists y ys, f x = Some y /\ mapM f l = Some ys /\ k = y :: ys.
Proof.
  rewrite mapM_Some. intros H. apply Forall2_cons_inv_l in H
    as (y & ys & Hy & Hys & ->).
  exists y, ys. now rewrite mapM_Some.
Qed.

Lemma mapM_snoc {A B} (f : A -> option B) (l : list A) (x : A)
    (k : list B) (y : B) :
  mapM f l = Some k -> f x = Some y -> mapM f (l ++ [x]) = Some (k ++ [y]).
Proof.
  rewrite !mapM_Some. intros Hl Hx. apply Forall2_app; [exact Hl |].
  now constructor.
Qed.

Lemma mapM_snoc_inv {A B} (f : A -> option B) (l : list A) (x : A)
    (k : list B) :
  mapM f (l ++ [x]) = Some k ->
  exists ys y, mapM f l = Some ys /\ f x = Some y /\ k = ys ++ [y].
Proof.
  rewrite mapM_Some. intros H.
  apply Forall2_app_inv_l in H as (ys & k2 & Hys & Hx & ->).
  apply Forall2_cons_inv_l in Hx as (y & k3 & Hy & Hnil & ->).
  apply Forall2_nil_inv_l in Hnil as ->.
  exists ys, y. now rewrite mapM_Some.
Qed.

Section Mono.
Variables h h' : heap.
Hypothesis Hsub : h ⊆ h'.

Lemma block_at_mono (l : loc) (b : block) :
  block_at h l = Some b -> block_at h' l = Some b.
Proof.
  unfold block_at. destruct (h !! l) as [o |] eqn:Hl; [| discriminate].
  now rewrite (lookup_weaken _ _ _ _ Hl Hsub).
Qed.

Lemma content_at_mono (c : string + loc) (v : content) :
  content_at h c = Some v -> content_at h' c = Some v.
Proof.
  destruct c as [s | l]; [exact id |]. unfold content_at.
  destruct (h !! l) as [o |] eqn:Hl; [| discriminate].
  rewrite (lookup_weaken _ _ _ _ Hl Hsub).
  destruct o as [items | |]; try discriminate.
  destruct (mapM (block_at h) items) as [bs |] eqn:Hbs; [| discriminate].
  now rewrite (mapM_mono _ _ _ _ block_at_mono Hbs).
Qed.

Lemma message_at_mono (l : loc) (m : message) :
  message_at h l = Some m -> message_at h' l = Some m.
Proof.
  unfold message_at. destruct (h !! l) as [o |] eqn:Hl; [| discriminate].
  rewrite (lookup_weaken _ _ _ _ Hl Hsub).
  destruct o as [| r c |]; try discriminate.
  destruct (content_at h c) as [v |] eqn:Hc; [| discriminate].
  now rewrite (content_at_mono _ _ Hc).
Qed.

Lemma messages_at_mono (l : loc) (ms : list message) :
  messages_at h l = Some ms -> messages_at h' l = Some ms.
Proof.
  unfold messages_at. destruct (h !! l) as [o |] eqn:Hl; [| discriminate].
  rewrite (lookup_weaken _ _ _ _ Hl Hsub).
  destruct o as [items | |]; try discriminate.
  apply mapM_mono, message_at_mono.
Qed.

End Mono.

(** ** What the objects of a well-formed store look like *)

Lemma block_at_inv (h : heap) (l : loc) (b : block) :
  block_at h l = Some b -> h !! l = Some (OBlock b).
Proof.
  unfold block_at. destruct (h !! l) as [[| |] |]; congruence.
Qed.

Lemma content_at_inv (h : heap) (c : loc) (v : content) :
  content_at h (inr c) = Some v ->
  exists items bs, h !! c = Some (OList items)
                   /\ mapM (block_at h) items = Some bs /\ v = Blocks bs.
Proof.
  unfold content_at. destruct (h !! c) as [[items | |] |]; try discriminate.
  destruct (mapM (block_at h) items) as [bs |] eqn:Hbs; [| discriminate].
  intros [= <-]. eauto.
Qed.

Lemma message_at_inv (h : heap) (l : loc) (m : message) :
  message_at h l = Some m ->
  exists c, h !! l = Some (OMessage (role m) c)
            /\ content_at h c = Some (msg_content m).
Proof.
  unfold message_at. destruct (h !! l) as [[| r c |] |]; try discriminate.
  destruct (content_at h c) as [v |] eqn:Hc; [| discriminate].
  intros [= <-]. eauto.
Qed.

(** ** The reads of the function *)

Lemma any_text_ok (h : heap) (items : list loc) : forall bs,
  mapM (block_at h) items = Some bs ->
  any_text items h = (Ok (existsb is_text bs), h).
Proof.
  induction items as [| l items IH]; intros bs Hbs.
  - cbn in Hbs. injection Hbs as <-. reflexivity.
  - apply mapM_cons_inv in Hbs as (b & bs' & Hb & Hbs' & ->).
    cbn [any_text existsb]. unfold bind, read_block.
    rewrite (block_at_inv _ _ _ Hb).
    destruct (is_text b); [reflexivity |]. now apply IH.
Qed.

Lemma is_human_message_ok (h : heap) (l : loc) (m : message) :
  message_at h l = Some m ->
  Heap.is_human_message l h = (Ok (Cache.is_human_message m), h).
Proof.
  intros Hm. apply message_at_inv in Hm as (c & Hl & Hc).
  unfold Heap.is_human_message, Cache.is_human_message, bind, read_message.
  rewrite Hl. cbn [fst snd].
  destruct (negb (String.eqb (role m) "user")); [reflexivity |].
  destruct c as [s | c].
  - cbn in Hc. injection Hc as <-. reflexivity.
  - apply content_at_inv in Hc as (items & bs & Hc & Hbs & ->).
    unfold read_list. rewrite Hc. now apply any_text_ok.
Qed.

Lemma human_indices_ok (h : heap) (items : list loc) : forall k ms,
  mapM (message_at h) items = Some ms ->
  human_indices_from k items h = (Ok (indices_from k ms), h).
Proof.
  induction items as [| l items IH]; intros k ms Hms.
  - cbn in Hms. injection Hms as <-. reflexivity.
  - apply mapM_cons_inv in Hms as (m & ms' & Hm & Hms' & ->).
    cbn [human_indices_from]. unfold bind.
    rewrite (is_human_message_ok _ _ _ Hm), (IH (S k) _ Hms').
    rewrite indices_from_cons. reflexivity.
Qed.

(** ** Allocation *)

Lemma fresh_is_new (h : heap) : h !! fresh (dom h) = None.
Proof. apply not_elem_of_dom, is_fresh. Qed.

Lemma mark_last_snoc (cc : cache_control) (l : list block) (b : block) :
  mark_last cc (l ++ [b]) = l ++ [Block (body b) (Some cc)].
Proof.
  induction l as [| a l IH]; [reflexivity |].
  cbn [app]. destruct (l ++ [b]) as [| x t] eqn:Hl.
  - now destruct l.
  - cbn [mark_last]. cbn [mark_last] in IH. now rewrite IH.
Qed.

(** The new content: the objects that were there, the list [p] apart,
    are as they were, and the object returned stands for the content that
    the function on values computes. *)
Lemma prepare_content_ok (cc : cache_control) (ci : Z) (i : nat) (p : loc)
    (hc : heap) (c : string + loc) (v : content) :
  is_Some (hc !! p) ->
  content_at (delete p hc) c = Some v ->
  exists l hf,
    Heap.prepare_content cc ci i c hc = (Ok l, hf)
    /\ delete p hc ⊆ delete p hf
    /\ hf !! p = hc !! p
    /\ content_at (delete p hf) (inr l)
       = Some (Cache.prepare_content cc ci i v).
Proof.
  intros [po Hp] Hc. destruct c as [s | c].
  - (* a string: a new block in a new list *)
    injection Hc as <-.
    unfold Heap.prepare_content, bind, alloc.
    set (B := Block (Text s) _).
    set (b := fresh (dom hc)).
    set (h1 := <[b := OBlock B]> hc).
    set (l := fresh (dom h1)).
    pose proof (fresh_is_new hc) as Hb. fold b in Hb.
    pose proof (fresh_is_new h1) as Hl. fold l in Hl.
    assert (Hbp : b <> p) by congruence.
    assert (Hlb : l <> b).
    { intros Heq. rewrite Heq in Hl. subst h1.
      now rewrite lookup_insert_eq in Hl. }
    assert (Hlc : hc !! l = None).
    { subst h1. now rewrite lookup_insert_ne in Hl by congruence. }
    assert (Hlp : l <> p) by congruence.
    exists l, (<[l := OList [b]]> h1). split; [reflexivity |].
    split; [| split].
    + apply map_subseteq_spec. intros k x Hk.
      apply lookup_delete_Some in Hk as [Hne Hk].
      rewrite lookup_delete_ne by congruence. subst h1.
      rewrite !lookup_insert_ne by congruence. exact Hk.
    + subst h1. now rewrite !lookup_insert_ne by congruence.
    + unfold content_at. rewrite lookup_delete_ne by congruence.
      rewrite lookup_insert_eq. cbn [mapM]. unfold block_at at 1.
      rewrite lookup_delete_ne by congruence.
      rewrite lookup_insert_ne by congruence. subst h1.
      rewrite lookup_insert_eq. subst B. cbn.
      now destruct (Z.of_nat i =? ci)%Z.
  - (* a list *)
    apply content_at_inv in Hc as (items & bs & Hc & Hbs & ->).
    apply lookup_delete_Some in Hc as [Hcp Hc].
    unfold Heap.prepare_content, Cache.prepare_content.
    destruct (Z.of_nat i =? ci)%Z.
    2:{ (* not the message to mark: the list itself *)
      exists c, hc. split; [reflexivity |]. split; [reflexivity |].
      split; [reflexivity |]. unfold content_at.
      rewrite lookup_delete_ne by congruence. rewrite Hc. now rewrite Hbs. }
    unfold bind, read_list, alloc. rewrite Hc.
    set (c' := fresh (dom hc)).
    set (h1 := <[c' := OList items]> hc).
    pose proof (fresh_is_new hc) as Hc'. fold c' in Hc'.
    assert (Hc'p : c' <> p) by congruence.
    assert (Hold : forall k x, delete p hc !! k = Some x ->
                     k <> c' /\ k <> p /\ hc !! k = Some x).
    { intros k x Hk. apply lookup_delete_Some in Hk as [Hne Hk].
      repeat split; congruence. }
    destruct (last items) as [lb |] eqn:Hlast.
    + (* a copy of the list, with a marked copy of its last block *)
      apply last_Some in Hlast as [items' ->].
      apply mapM_snoc_inv in Hbs as (bs' & b & Hbs' & Hb & ->).
      pose proof (block_at_inv _ _ _ Hb) as Hlb.
      apply Hold in Hlb as (Hlbc' & Hlbp & Hlb).
      unfold read_block. subst h1. rewrite lookup_insert_ne by congruence.
      rewrite Hlb.
      set (h1 := <[c' := OList (items' ++ [lb])]> hc).
      set (nb := fresh (dom h1)).
      pose proof (fresh_is_new h1) as Hnb. fold nb in Hnb.
      assert (Hnbc' : nb <> c').
      { intros Heq. rewrite Heq in Hnb. subst h1.
        now rewrite lookup_insert_eq in Hnb. }
      assert (Hnbc : hc !! nb = None).
      { subst h1. now rewrite lookup_insert_ne in Hnb by congruence. }
      assert (Hnbp : nb <> p) by congruence.
      unfold list_set_last, bind, read_list, modify.
      rewrite lookup_insert_ne by congruence. subst h1.
      rewrite lookup_insert_eq. rewrite removelast_last.
      eexists c', _. split; [reflexivity |].
      assert (Hsub : delete p hc
                ⊆ delete p (<[c' := OList (items' ++ [nb])]>
                             (<[nb := OBlock (Block (body b) (Some cc))]>
                                (<[c' := OList (items' ++ [lb])]> hc)))).
      { apply map_subseteq_spec. intros k x Hk.
        apply Hold in Hk as (Hkc' & Hkp & Hk).
        rewrite lookup_delete_ne by congruence.
        rewrite !lookup_insert_ne by congruence. exact Hk. }
      split; [exact Hsub | split].
      * now rewrite !lookup_insert_ne by congruence.
      * unfold content_at. rewrite lookup_delete_ne by congruence.
        rewrite lookup_insert_eq. rewrite mark_last_snoc.
        erewrite mapM_snoc; [reflexivity | |].
        -- apply (mapM_mono _ _ _ _ (block_at_mono _ _ Hsub)). exact Hbs'.
        -- unfold block_at. rewrite lookup_delete_ne by congruence.
           rewrite lookup_insert_ne by congruence.
           now rewrite lookup_insert_eq.
    + (* an empty list: a copy of it *)
      apply last_None in Hlast as ->.
      cbn in Hbs. injection Hbs as <-.
      exists c', h1. split; [reflexivity |].
      split; [| split].
      * apply map_subseteq_spec. intros k x Hk.
        apply Hold in Hk as (Hkc' & Hkp & Hk).
        rewrite lookup_delete_ne by congruence. subst h1.
        rewrite lookup_insert_ne by congruence. exact Hk.
      * subst h1. now rewrite lookup_insert_ne by congruence.
      * unfold content_at. rewrite lookup_delete_ne by congruence.
        subst h1. now rewrite lookup_insert_eq.
Qed.

(** ** The main loop *)

(** The loop appends to [p] one new message per message of the input,
    standing for what the function on values computes; the objects that
    were there, the list [p] apart, are as they were. *)
Lemma main_loop_ok (cc : cache_control) (ci : Z) (p : loc)
    (items : list loc) : forall i vs hc acc vacc,
  hc !! p = Some (OList acc) ->
  mapM (message_at (delete p hc)) items = Some vs ->
  mapM (message_at (delete p hc)) acc = Some vacc ->
  exists hf new,
    main_loop cc ci p i items hc = (Ok tt, hf)
    /\ delete p hc ⊆ delete p hf
    /\ hf !! p = Some (OList (acc ++ new))
    /\ mapM (message_at (delete p hf)) (acc ++ new)
       = Some (vacc ++ map (fun im => prepare_one cc ci (fst im) (snd im))
                          (enumerate_from i vs)).
Proof.
  induction items as [| msg items IH]; intros i vs hc acc vacc Hp Hvs Hacc.
  - cbn in Hvs. injection Hvs as <-.
    exists hc, []. cbn [main_loop enumerate_from map].
    rewrite !app_nil_r. auto.
  - apply mapM_cons_inv in Hvs as (m & vs' & Hm & Hvs' & ->).
    apply message_at_inv in Hm as (c & Hmsg & Hc).
    apply lookup_delete_Some in Hmsg as [Hmsgp Hmsg].
    cbn [main_loop]. unfold bind at 1. unfold read_message. rewrite Hmsg.
    cbn [fst snd].
    destruct (prepare_content_ok cc ci i p hc c _ (mk_is_Some _ _ Hp) Hc)
      as (l & h1 & Hrun & Hsub1 & Hp1 & Hcontent).
    unfold bind at 1. rewrite Hrun.
    unfold bind at 1. unfold alloc.
    set (d := fresh (dom h1)).
    set (h2 := <[d := OMessage (role m) (inr l)]> h1).
    pose proof (fresh_is_new h1) as Hd. fold d in Hd.
    rewrite Hp in Hp1.
    assert (Hdp : d <> p) by congruence.
    unfold bind at 1. unfold list_append, bind, read_list, modify.
    assert (Hp2 : h2 !! p = Some (OList acc)).
    { subst h2. now rewrite lookup_insert_ne by congruence. }
    rewrite Hp2.
    set (h3 := <[p := OList (acc ++ [d])]> h2).
    assert (Hsub2 : delete p h1 ⊆ delete p h3).
    { subst h3. rewrite delete_insert_eq. subst h2.
      rewrite delete_insert_ne by congruence.
      apply insert_subseteq. rewrite lookup_delete_ne by congruence.
      exact Hd. }
    assert (Hsub3 : delete p hc ⊆ delete p h3) by (etrans; eassumption).
    assert (Hnew : message_at (delete p h3) d = Some (prepare_one cc ci i m)).
    { unfold message_at. subst h3. rewrite delete_insert_eq.
      rewrite lookup_delete_ne by congruence. subst h2.
      rewrite lookup_insert_eq.
      rewrite <- (delete_insert_eq _ p (OList (acc ++ [d]))).
      now rewrite (content_at_mono _ _ Hsub2 _ _ Hcontent). }
    destruct (IH (S i) vs' h3 (acc ++ [d]) (vacc ++ [prepare_one cc ci i m]))
      as (hf & new & Hloop & Hsubf & Hpf & Hvalues).
    + subst h3. apply lookup_insert_eq.
    + apply (mapM_mono _ _ _ _ (message_at_mono _ _ Hsub3)). exact Hvs'.
    + apply mapM_snoc; [| exact Hnew].
      apply (mapM_mono _ _ _ _ (message_at_mono _ _ Hsub3)). exact Hacc.
    + exists hf, (d :: new). rewrite Hloop.
      split; [reflexivity |].
      split; [etrans; eassumption |].
      rewrite <- app_assoc in Hpf. rewrite <- !app_assoc in Hvalues.
      cbn [app] in Hpf, Hvalues. cbn [enumerate_from map fst snd].
      split; [exact Hpf | exact Hvalues].
Qed.

(** ** The whole function *)

Lemma mapM_length_eq {A B} (f : A -> option B) (l : list A) (k : list B) :
  mapM f l = Some k -> length l = length k.
Proof. rewrite mapM_Some. apply Forall2_length. Qed.

Lemma prepare_run (h : heap) (messages : loc) (cache_ttl : string)
    (ms : list message) :
  messages_at h messages = Some ms ->
  exists out h',
    Heap.prepare_messages_for_cache messages cache_ttl h = (Ok out, h')
    /\ h ⊆ h'
    /\ messages_at h' out
       = Some (Cache.prepare_messages_for_cache ms cache_ttl).
Proof.
  intros Hms. pose proof Hms as Hms0. unfold messages_at in Hms.
  destruct (h !! messages) as [[items | |] |] eqn:Hlist; try discriminate.
  unfold Heap.prepare_messages_for_cache, Cache.prepare_messages_for_cache.
  unfold bind at 1. unfold read_list. rewrite Hlist.
  rewrite (mapM_length_eq _ _ _ Hms).
  destruct (String.eqb cache_ttl "off" || (length ms <? 2)%nat).
  { exists messages, h. split; [reflexivity |]. split; [reflexivity |].
    exact Hms0. }
  unfold bind at 1. unfold alloc.
  set (p := fresh (dom h)).
  set (h1 := <[p := OList []]> h).
  pose proof (fresh_is_new h) as Hp. fold p in Hp.
  assert (Hview : delete p h1 = h).
  { subst h1. rewrite delete_insert_eq. now apply delete_id. }
  assert (Hsub1 : h ⊆ h1) by (subst h1; now apply insert_subseteq).
  unfold bind at 1.
  rewrite (human_indices_ok h1 items 0 ms
             (mapM_mono _ _ _ _ (message_at_mono _ _ Hsub1) Hms)).
  destruct (main_loop_ok (cache_control_of cache_ttl)
              (cache_index_of (indices_from 0 ms)) p items 0 ms h1 [] [])
    as (hf & new & Hloop & Hsubf & Hpf & Hvalues).
  { subst h1. apply lookup_insert_eq. }
  { now rewrite Hview. }
  { reflexivity. }
  unfold bind at 1. rewrite Hloop. cbn [app] in Hpf, Hvalues.
  rewrite Hview in Hsubf.
  assert (Hsubf' : delete p hf ⊆ hf) by apply delete_subseteq.
  exists p, hf. split; [reflexivity |].
  split; [etrans; eassumption |].
  unfold messages_at. rewrite Hpf.
  apply (mapM_mono _ _ _ _ (message_at_mono _ _ Hsubf')). exact Hvalues.
Qed.

(** C6.  Let the list object [messages] of store [h] hold the message
    values [ms].  The call returns an object [out] in a store that extends
    [h]: every object of [h], the input list and each message and block in
    it, is what it was, so [messages] still holds [ms]; and [out] holds
    the value that the function computes on [ms].  A second call with the
    same arguments returns an object that holds the same value, and leaves
    the result of the first call as it was. *)
Theorem prepare_does_not_mutate (h : heap) (messages : loc)
    (cache_ttl : string) (ms : list message) :
  messages_at h messages = Some ms ->
  exists out h',
    Heap.prepare_messages_for_cache messages cache_ttl h = (Ok out, h')
    /\ h ⊆ h'
    /\ messages_at h' messages = Some ms
    /\ messages_at h' out
       = Some (Cache.prepare_messages_for_cache ms cache_ttl)
    /\ exists out2 h'',
         Heap.prepare_messages_for_cache messages cache_ttl h'
         = (Ok out2, h'')
         /\ h' ⊆ h''
         /\ messages_at h'' out2 = messages_at h' out
         /\ messages_at h'' out = messages_at h' out.
Proof.
  intros Hms.
  destruct (prepare_run h messages cache_ttl ms Hms)
    as (out & h' & Hrun & Hsub & Hout).
  pose proof (messages_at_mono _ _ Hsub _ _ Hms) as Hms'.
  destruct (prepare_run h' messages cache_ttl ms Hms')
    as (out2 & h'' & Hrun2 & Hsub2 & Hout2).
  exists out, h'. repeat (split; [assumption |]).
  exists out2, h''. repeat (split; [assumption |]).
  split; [congruence |].
  rewrite Hout. now apply (messages_at_mono _ _ Hsub2).
Qed.

(** [prepare_does_not_mutate] at a store with three messages. *)
Lemma prepare_does_not_mutate_witness :
  exists out h',
    Heap.prepare_messages_for_cache 1%positive "5m" Demo.heap0 = (Ok out, h')
    /\ Demo.heap0 ⊆ h'
    /\ messages_at h' 1%positive = Some Demo.stored0
    /\ messages_at h' out
       = Some (Cache.prepare_messages_for_cache Demo.stored0 "5m")
    /\ exists out2 h'',
         Heap.prepare_messages_for_cache 1%positive "5m" h' = (Ok out2, h'')
         /\ h' ⊆ h''
         /\ messages_at h'' out2 = messages_at h' out
         /\ messages_at h'' out = messages_at h' out.
Proof.
  apply (prepare_does_not_mutate Demo.heap0 1%positive "5m" Demo.stored0).
  vm_compute. reflexivity.
Defined.

(** The result is a new list of new messages; the message that is not
    marked and has a list content shares that list with the input, and
    with the TTL off the result is the input list itself. *)
Example result_shares_with_input :
  let run := Heap.prepare_messages_for_cache 1%positive "5m" Demo.heap0 in
  fst run = Ok 7%positive
  /\ snd run !! 7%positive = Some (OList [10; 13; 14]%positive)
  /\ snd run !! 14%positive = Some (OMessage "user" (inr 5%positive))
  /\ Demo.heap0 !! 4%positive = Some (OMessage "user" (inr 5%positive))
  /\ Heap.prepare_messages_for_cache 1%positive "off" Demo.heap0
     = (Ok 1%positive, Demo.heap0).
Proof. cbv zeta. repeat split; vm_compute; reflexivity. Qed.

End HeapFacts.

(* ===================================================================== *)
(** * The sandbox: what the tools can read and change *)
(* ===================================================================== *)

Module SandboxFacts.
Import Py Fs ToolExecutor FsFacts ToolExecutorFacts Frame.
Local Open Scope list_scope.

Lemma only_reads_ret {A} (a : A) : only_reads (ret a).
Proof. intros w. reflexivity. Qed.

Lemma only_reads_raise {A} (e : exn) : only_reads (@raise world A e).
Proof. intros w. reflexivity. Qed.

Lemma only_reads_log (c : os_call) : only_reads (log c).
Proof. intros w. reflexivity. Qed.

Lemma only_reads_get : only_reads (@get world).
Proof. intros w. reflexivity. Qed.

Lemma only_reads_bind {A B} (m : M world A) (k : A -> M world B) :
  only_reads m -> (forall a, only_reads (k a)) -> only_reads (bind m k).
Proof.
  intros Hm Hk w. unfold bind. specialize (Hm w).
  destruct (m w) as [[a | e] w1]; cbn [snd] in *.
  - now rewrite Hk.
  - exact Hm.
Qed.

Lemma only_reads_try {A} (m : M world A) (c : exc_class -> bool)
    (h : exn -> M world A) :
  only_reads m -> (forall e, only_reads (h e)) -> only_reads (try_except m c h).
Proof.
  intros Hm Hh w. unfold try_except. specialize (Hm w).
  destruct (m w) as [[a | e] w1]; cbn [snd] in *; [exact Hm |].
  destruct (c (exc_type e)); [now rewrite Hh | exact Hm].
Qed.

Lemma only_reads_for_in {A B} (f : A -> M world B) (l : list A) :
  (forall a, only_reads (f a)) -> only_reads (for_in f l).
Proof.
  intros Hf. induction l as [| x l IH]; cbn [for_in].
  - apply only_reads_ret.
  - apply only_reads_bind; [apply Hf |]. intros y.
    apply only_reads_bind; [exact IH |]. intros ys. apply only_reads_ret.
Qed.

Ltac reads :=
  repeat lazymatch goal with
  | |- only_reads (ret _) => apply only_reads_ret
  | |- only_reads (raise _) => apply only_reads_raise
  | |- only_reads (log _) => apply only_reads_log
  | |- only_reads get => apply only_reads_get
  | |- only_reads (bind _ _) => apply only_reads_bind; [| intros ?]
  | |- only_reads (try_except _ _ _) => apply only_reads_try; [| intros ?]
  | |- only_reads (for_in _ _) => apply only_reads_for_in; intros ?
  end.

Lemma only_reads_resolve (s : string) : only_reads (resolve s).
Proof.
  unfold resolve. reads. destruct (canonicalize _ _); reads.
Qed.

Lemma only_reads_exists (p : path) : only_reads (exists_ p).
Proof. unfold exists_. reads. Qed.

Lemma only_reads_is_dir (p : path) : only_reads (is_dir p).
Proof. unfold is_dir. reads. Qed.

Lemma only_reads_is_file (p : path) : only_reads (is_file p).
Proof. unfold is_file. reads. Qed.

Lemma only_reads_listdir (p : path) : only_reads (listdir p).
Proof. unfold listdir. reads. destruct (stat _ _) as [[ | | ] |]; reads. Qed.

Lemma only_reads_read_text (p : path) : only_reads (read_text p).
Proof.
  unfold read_text. reads. destruct (stat _ _) as [[d | | ] |]; reads.
  destruct (PyStr.utf8_valid d); reads.
Qed.

Lemma only_reads_getitem (i : gmap string pyval) (k : string) :
  only_reads (getitem i k).
Proof. unfold getitem. destruct (i !! k); reads. Qed.

Lemma link_free_parent (fs : gmap path node) (cur : path) :
  link_free fs cur -> link_free fs (parent cur).
Proof.
  intros H q Hq. apply H. etransitivity; [exact Hq |].
  destruct cur as [| a cur _] using rev_ind; [reflexivity |].
  rewrite parent_snoc. now apply prefix_app_r.
Qed.

Lemma link_free_snoc (fs : gmap path node) (cur : path) (name : string) :
  link_free fs cur -> readlink fs (cur ++ [name]) = None ->
  link_free fs (cur ++ [name]).
Proof.
  intros H Hn q Hq. apply prefix_snoc_inv in Hq as [Hq | ->]; auto.
Qed.

Lemma link_free_nil (fs : gmap path node) :
  readlink fs [] = None -> link_free fs [].
Proof. intros H q Hq. apply prefix_nil_inv in Hq. now subst. Qed.

(** A resolved path has no symbolic link left in it. *)
Lemma realpath_from_link_free (fs : gmap path node) :
  readlink fs [] = None ->
  forall links cur rest r,
    link_free fs cur -> realpath_from links fs cur rest = Ok r ->
    link_free fs r.
Proof.
  intros Hroot. induction links as [| links IH]; intros cur rest.
  - revert cur. induction rest as [| name rest IHrest]; intros cur r Hcur;
      cbn [realpath_from].
    + now intros [= <-].
    + destruct (String.eqb name EmptyString || String.eqb name ".");
        [now apply IHrest |].
      destruct (String.eqb name "..");
        [apply IHrest; now apply link_free_parent |].
      destruct (readlink fs (cur ++ [name])) eqn:Hl; [discriminate |].
      apply IHrest. now apply link_free_snoc.
  - revert cur. induction rest as [| name rest IHrest]; intros cur r Hcur;
      cbn [realpath_from].
    + now intros [= <-].
    + destruct (String.eqb name EmptyString || String.eqb name ".");
        [now apply IHrest |].
      destruct (String.eqb name "..");
        [apply IHrest; now apply link_free_parent |].
      destruct (readlink fs (cur ++ [name])) eqn:Hl.
      * apply IH. destruct (PyStr.starts_with_slash s);
          [now apply link_free_nil | exact Hcur].
      * apply IHrest. now apply link_free_snoc.
Qed.

Lemma canonicalize_link_free (fs : gmap path node) (s : string) (r : path) :
  well_formed fs = true -> canonicalize fs s = Ok r -> link_free fs r.
Proof.
  intros Hwf. unfold canonicalize, realpath.
  destruct (PyStr.contains PyStr.nul s); [discriminate |].
  assert (Hroot : readlink fs [] = None).
  { unfold readlink. now rewrite (well_formed_root _ Hwf). }
  apply realpath_from_link_free; [exact Hroot | now apply link_free_nil].
Qed.

Lemma stat_no_link (fs : gmap path node) (p : path) :
  readlink fs p = None -> stat fs p = fs !! p.
Proof.
  unfold readlink, stat. now destruct (fs !! p) as [[ | | ] |].
Qed.























Lemma exists_run (p : path) (w : world) :
  exists_ p w
  = (Ok (match stat (files w) p with Some _ => true | None => false end),
     World (files w) (trace w ++ [SysStat p])).
Proof. reflexivity. Qed.

Lemma is_dir_run (p : path) (w : world) :
  is_dir p w
  = (Ok (is_dir_node (stat (files w) p)),
     World (files w) (trace w ++ [SysStat p])).
Proof. reflexivity. Qed.

Section Facts.

Variable subprocess_run :
  pyval -> path -> gmap path node -> proc_outcome * gmap path node.
Variable project_root : path.

Lemma only_reads_safe_path (v : pyval) : only_reads (_safe_path project_root v).
Proof.
  unfold _safe_path. destruct v as [s | ty r]; reads.
  - apply only_reads_resolve.
  - destruct (bool_decide _); reads.
Qed.

Lemma only_reads_list_dir (v : pyval) : only_reads (_list_dir project_root v).
Proof.
  unfold _list_dir. reads.
  - apply only_reads_safe_path.
  - apply only_reads_exists.
  - destruct (negb _); reads.
    + apply only_reads_is_dir.
    + destruct (negb _); reads.
      * apply only_reads_listdir.
      * apply only_reads_is_dir.
      * match goal with |- only_reads (match ?l with _ => _ end) => destruct l end; reads.
Qed.

Lemma only_reads_read_file (v : pyval) : only_reads (_read_file project_root v).
Proof.
  unfold _read_file. reads.
  - apply only_reads_safe_path.
  - apply only_reads_exists.
  - destruct (negb _); reads.
    + apply only_reads_is_file.
    + destruct (negb _); reads. apply only_reads_read_text.
Qed.

Lemma execute_files (tool_name : string) (tool_input : gmap string pyval)
    (w : world) :
  files (snd (execute subprocess_run project_root tool_name tool_input w))
  = files (snd (dispatch subprocess_run project_root tool_name tool_input w)).
Proof.
  rewrite execute_of_dispatch.
  now destruct (dispatch _ _ _ _ _) as [[s | e] w'].
Qed.

Lemma dispatch_reads (tool_name : string) (tool_input : gmap string pyval) :
  tool_name <> "write_file"%string -> tool_name <> "shell_exec"%string ->
  only_reads (dispatch subprocess_run project_root tool_name tool_input).
Proof.
  intros Hw Hs. unfold dispatch.
  rewrite (eqb_neq_false _ _ Hw), (eqb_neq_false _ _ Hs).
  destruct (String.eqb tool_name "list_dir");
    [| destruct (String.eqb tool_name "read_file")]; reads.
  - apply only_reads_getitem.
  - apply only_reads_list_dir.
  - apply only_reads_getitem.
  - apply only_reads_read_file.
Qed.

(** X2.  Only [write_file] and [shell_exec] can change the file system: for
    every other tool name, known or not, and for every input, the file
    system after [execute] is the file system before it. *)
Theorem reading_tools_leave_files_alone (tool_name : string)
    (tool_input : gmap string pyval) (w : world) :
  tool_name <> "write_file"%string -> tool_name <> "shell_exec"%string ->
  files (snd (execute subprocess_run project_root tool_name tool_input w))
  = files w.
Proof.
  intros Hw Hs. rewrite execute_files. now apply dispatch_reads.
Qed.



Lemma safe_path_outside (p : string) (w : world) (r : path) :
  canonicalize (files w) (joinpath project_root p) = Ok r ->
  ~ project_root `prefix_of` r ->
  _safe_path project_root (VStr p) w
  = (Raise (access_denied p),
     World (files w) (trace w ++ [SysRealpath (joinpath project_root p)])).
Proof.
  intros Hcanon Hout. unfold _safe_path, resolve. run.
  rewrite Hcanon. now rewrite bool_decide_eq_false_2.
Qed.











(** X7.  A path that resolves outside the project root is refused by the
    three file tools alike: [execute] returns the access-denied message, the
    file system is unchanged, and the resolution of the path is the only
    system call made. *)
Theorem escaping_path_is_refused (tool_name p : string)
    (tool_input : gmap string pyval) (w : world) (r : path) :
  tool_name = "list_dir"%string \/ tool_name = "read_file"%string
  \/ tool_name = "write_file"%string ->
  tool_input !! "path"%string = Some (VStr p) ->
  (tool_name = "write_file"%string ->
   is_Some (tool_input !! "content"%string)) ->
  canonicalize (files w) (joinpath project_root p) = Ok r ->
  ~ project_root `prefix_of` r ->
  execute subprocess_run project_root tool_name tool_input w
  = (Ok ("Error: Access denied: path '" ++ p
         ++ "' is outside project root")%string,
     World (files w) (trace w ++ [SysRealpath (joinpath project_root p)])).
Proof.
  intros Hname Hpath Hcontent Hcanon Hout.
  pose proof (safe_path_outside p w r Hcanon Hout) as Hsafe.
  rewrite execute_of_dispatch. unfold dispatch, getitem. rewrite Hpath.
  destruct Hname as [-> | [-> | ->]]; cbn [String.eqb Ascii.eqb Bool.eqb].
  - unfold _list_dir. run. unfold bind in *. rewrite Hsafe. reflexivity.
  - unfold _read_file. run. unfold bind in *. rewrite Hsafe. reflexivity.
  - destruct (Hcontent eq_refl) as [c ->].
    unfold _write_file. run. unfold bind in *. rewrite Hsafe. reflexivity.
Qed.

End Facts.

(** [reading_tools_leave_files_alone] at a listing of the project root. *)
Lemma reading_tools_leave_files_alone_witness :
  files (snd (execute Demo.quiet_shell Demo.root "list_dir"
                (Demo.args [("path", VStr ".")]) Demo.world0))
  = files Demo.world0.
Proof.
  apply (reading_tools_leave_files_alone Demo.quiet_shell Demo.root
           "list_dir"); discriminate.
Defined.



(** The listing of the project of [Demo]: the link [out] leads to a
    directory outside the project and is flagged as one. *)
Example listing_of_the_project :
  fst (_list_dir Demo.root (VStr ".") Demo.world0)
  = Ok Cases.root_listing.
Proof. vm_compute. reflexivity. Qed.

(** A link that leaves the project is not followed: the file at its end
    is not read. *)
Example link_out_is_not_read :
  fst (_read_file Demo.root (VStr "out/passwd") Demo.world0)
  = Raise (access_denied "out/passwd").
Proof. vm_compute. reflexivity. Qed.



(** The hypothesis on the tool name is needed: what a shell command does
    to the file system is not checked. *)
Example shell_exec_is_not_confined :
  files (snd (execute Cases.careless_shell Demo.root "shell_exec"
                (Demo.args [("command", VStr "echo hi > /etc/motd")])
                Demo.world0))
    !! ["etc"; "motd"]
  = Some (File "hi").
Proof. vm_compute. reflexivity. Qed.

(** [escaping_path_is_refused] at a write through the link that leaves
    the project. *)
Lemma escaping_path_is_refused_witness :
  execute Demo.quiet_shell Demo.root "write_file"
    (Demo.args [("path", VStr "out/passwd"); ("content", VStr "x")])
    Demo.world0
  = (Ok "Error: Access denied: path 'out/passwd' is outside project root"%string,
     World (files Demo.world0)
       (trace Demo.world0
        ++ [SysRealpath (joinpath Demo.root "out/passwd")])).
Proof.
  apply (escaping_path_is_refused Demo.quiet_shell Demo.root "write_file"
           "out/passwd" _ Demo.world0 ["etc"; "passwd"]).
  - right; right. reflexivity.
  - vm_compute. reflexivity.
  - intros _. eexists. vm_compute. reflexivity.
  - vm_compute. reflexivity.
  - intros [k Hk]. discriminate Hk.
Defined.

End SandboxFacts.

(* ===================================================================== *)
(** * The prepared request and the stored conversation *)
(* ===================================================================== *)

Module PlannerFacts.
Import Py Cache CacheFacts Request.
Local Open Scope list_scope.

Lemma bodies_mark_last (cc : cache_control) (l : list block) :
  map body (mark_last cc l) = map body l.
Proof.
  induction l as [| b l IH]; [reflexivity |].
  destruct l as [| b' l]; [reflexivity |].
  change (mark_last cc (b :: b' :: l)) with (b :: mark_last cc (b' :: l)).
  cbn [map]. now rewrite IH.
Qed.

Lemma prepare_one_says_the_same (cc : cache_control) (ci : Z) (i : nat)
    (msg : message) :
  role (prepare_one cc ci i msg) = role msg
  /\ bodies (prepare_one cc ci i msg) = bodies msg.
Proof.
  unfold prepare_one, prepare_content, bodies, normalize, blocks_of.
  destruct msg as [r [s | l]]; cbn [role msg_content];
    destruct (Z.of_nat i =? ci)%Z; cbn [role msg_content];
    split; try reflexivity.
  apply bodies_mark_last.
Qed.

(** X8.  Preparing a request changes neither what is said nor by whom: the
    prepared list has the length of the stored one, the same roles in the
    same order, and in every message the same block bodies in the same
    order, a plain string counting as one text block. Only cache markers
    differ. *)
Theorem prepared_request_says_the_same (messages : list message)
    (cache_ttl : string) :
  length (prepare_messages_for_cache messages cache_ttl) = length messages
  /\ map role (prepare_messages_for_cache messages cache_ttl)
     = map role messages
  /\ map bodies (prepare_messages_for_cache messages cache_ttl)
     = map bodies messages.
Proof.
  unfold prepare_messages_for_cache.
  destruct (String.eqb cache_ttl "off" || (length messages <? 2)%nat);
    [auto |].
  set (cc := cache_control_of cache_ttl).
  set (ci := cache_index_of (human_indices messages)).
  unfold enumerate. generalize 0 as k. clearbody ci.
  induction messages as [| msg l IH]; intros k; [auto |].
  cbn [enumerate_from map fst snd length].
  destruct (IH (S k)) as (Hlen & Hrole & Hbody).
  destruct (prepare_one_says_the_same cc ci k msg) as [Hr Hb].
  rewrite Hlen, Hrole, Hbody, Hr, Hb. auto.
Qed.

Lemma annotate_app_no_human (cc : cache_control) (extra : list message) :
  forallb (fun m => negb (is_human_message m)) extra = true ->
  forall l, annotate cc (l ++ extra) = annotate cc l ++ map normalize extra.
Proof.
  intros Hextra.
  assert (Hcount : count_humans extra = 0).
  { unfold count_humans. induction extra as [| m extra IH]; [reflexivity |].
    cbn [forallb] in Hextra. apply andb_prop in Hextra as [Hm Hrest].
    cbn [List.filter]. apply negb_true_iff in Hm. rewrite Hm. now apply IH. }
  induction l as [| msg l IH].
  - cbn [app annotate]. apply annotate_few. lia.
  - cbn [app annotate]. rewrite count_humans_app, Hcount, Nat.add_0_r.
    now rewrite IH.
Qed.

(** X9.  The cache marker does not move while messages without human text
    are appended: for a conversation of at least two messages, the request
    prepared after assistant messages and tool-result messages have been
    appended is the request prepared before, followed by the new messages
    (in block form unless the TTL is off). *)
Theorem appended_tool_traffic_keeps_the_request
    (messages extra : list message) (cache_ttl : string) :
  2 <= length messages ->
  forallb (fun m => negb (is_human_message m)) extra = true ->
  prepare_messages_for_cache (messages ++ extra) cache_ttl
  = prepare_messages_for_cache messages cache_ttl
    ++ (if String.eqb cache_ttl "off" then extra else map normalize extra).
Proof.
  intros Hlen Hextra. rewrite !prepare_refines_spec. unfold prepare_spec.
  rewrite length_app.
  destruct (String.eqb cache_ttl "off"); cbn [orb]; [reflexivity |].
  replace (length messages + length extra <? 2)%nat with false
    by (symmetry; apply Nat.ltb_ge; lia).
  replace (length messages <? 2)%nat with false
    by (symmetry; apply Nat.ltb_ge; lia).
  now apply annotate_app_no_human.
Qed.

(** [appended_tool_traffic_keeps_the_request] at a tool round appended to
    three stored messages. *)
Lemma appended_tool_traffic_keeps_the_request_witness :
  prepare_messages_for_cache (Demo.stored0 ++ Cases.tool_round) "5m"
  = prepare_messages_for_cache Demo.stored0 "5m"
    ++ (if String.eqb "5m" "off" then Cases.tool_round
        else map normalize Cases.tool_round).
Proof.
  apply (appended_tool_traffic_keeps_the_request Demo.stored0
           Cases.tool_round "5m").
  - vm_compute. lia.
  - vm_compute. reflexivity.
Defined.

(** The hypothesis on the appended messages is needed: a new human
    message moves the marker. *)
Example human_message_moves_the_marker :
  let more := [Message "user" (Str "q3")] in
  prepare_messages_for_cache (Demo.stored0 ++ more) "5m"
  <> prepare_messages_for_cache Demo.stored0 "5m" ++ map normalize more.
Proof. cbv zeta. vm_compute. discriminate. Qed.

End PlannerFacts.

(* ===================================================================== *)
(** * A turn and the rest of the session *)
(* ===================================================================== *)

Module TurnFacts.
Import Py Cache Session Turn SessionFacts.
Local Open Scope list_scope.

Lemma string_app_assoc (a b c : string) : ((a ++ b) ++ c = a ++ (b ++ c))%string.
Proof.
  induction a as [| x a IH]; [reflexivity |].
  change (String x ((a ++ b) ++ c) = String x (a ++ (b ++ c)))%string.
  now f_equal.
Qed.

Lemma string_app_nil_r (a : string) : (a ++ EmptyString)%string = a.
Proof.
  induction a as [| x a IH]; [reflexivity |].
  change (String x (a ++ EmptyString) = String x a)%string.
  now f_equal.
Qed.

Lemma fold_on_event (events : list event) : forall v,
  response_text (fold_left on_event events v)
  = (response_text v ++ text_deltas events)%string
  /\ thinking_text (fold_left on_event events v)
     = (thinking_text v ++ thinking_deltas events)%string.
Proof.
  induction events as [| ev events IH]; intros v; cbn [fold_left].
  - cbn. now rewrite !string_app_nil_r.
  - destruct (IH (on_event v ev)) as [Ht Hth]. rewrite Ht, Hth.
    destruct ev as [ty | t | t | | |];
      cbn [on_event text_deltas thinking_deltas response_text thinking_text];
      try (split; reflexivity).
    + destruct (String.eqb ty "thinking"); [split; reflexivity |].
      destruct (String.eqb ty "text"); split; reflexivity.
    + now rewrite string_app_assoc.
    + now rewrite string_app_assoc.
    + destruct (in_thinking v); split; reflexivity.
Qed.

(** X10.  The text accumulated from a stream is the concatenation of its
    text deltas, in order, and the thinking accumulated is the concatenation
    of its thinking deltas: block starts and stops and all other events
    contribute nothing. *)
Theorem stream_text_is_concatenation (events : list event) :
  response_text (consume events) = text_deltas events
  /\ thinking_text (consume events) = thinking_deltas events.
Proof. unfold consume. apply fold_on_event. Qed.


Section Facts.

Variable stream : nat -> list message -> stream_outcome.
Variable time : nat -> Q.
Variable subprocess_run :
  pyval -> Fs.path -> gmap Fs.path Fs.node
  -> ToolExecutor.proc_outcome * gmap Fs.path Fs.node.

Local Abbreviation run_tool := (run_tool time subprocess_run).
Local Abbreviation run_tools := (run_tools time subprocess_run).
Local Abbreviation turn_loop := (turn_loop stream time subprocess_run).
Local Abbreviation send_message := (send_message stream time subprocess_run).

(** What running one tool does to the rest of the session. *)
Lemma run_tool_state (tu : api_block) (s s' : session) (b : list block) :
  run_tool tu s = (Ok b, s') ->
  tool_executor s' = tool_executor s
  /\ requests (session_stats s') = requests (session_stats s)
  /\ tool_calls (session_stats s')
     = (tool_calls (session_stats s) + (if is_tool_use tu then 1 else 0))%Z
  /\ (tool_executor s = None -> os s' = os s).
Proof.
  destruct tu as [| | id name input |]; cbn [Session.run_tool is_tool_use];
    try (intros [= _ <-]; repeat split; lia).
  unfold bind, modify, ret, execute_tool, _check_tool_rate.
  cbn [set_stats tool_executor os ticks recent_tool_calls messages
       session_stats cache_ttl].
  destruct (tool_executor s) as [root |] eqn:Hroot.
  - destruct (ToolExecutor.execute subprocess_run root name input (os s))
      as [[res | e] w]; [| discriminate].
    cbn [ticks recent_tool_calls messages session_stats cache_ttl
         tool_executor os].
    destruct (RateLimiter._check_tool_rate _ _).
    intros [= _ <-]. cbn. repeat split; try congruence; discriminate.
  - cbn [ticks recent_tool_calls messages session_stats cache_ttl
         tool_executor os].
    destruct (RateLimiter._check_tool_rate _ _).
    intros [= _ <-]. cbn. repeat split; congruence.
Qed.

Lemma run_tools_state (tus : list api_block) : forall s s' bs,
  run_tools tus s = (Ok bs, s') ->
  tool_executor s' = tool_executor s
  /\ requests (session_stats s') = requests (session_stats s)
  /\ tool_calls (session_stats s')
     = (tool_calls (session_stats s)
        + Z.of_nat (length (List.filter is_tool_use tus)))%Z
  /\ (tool_executor s = None -> os s' = os s).
Proof.
  unfold Session.run_tools.
  induction tus as [| tu tus IH]; intros s s' r.
  - cbn. intros [= _ <-]. repeat split; lia.
  - cbn [for_in]. unfold bind.
    destruct (run_tool tu s) as [[b | e] s1] eqn:Htool; [| discriminate].
    apply run_tool_state in Htool as (He & Hr & Ht & Ho).
    specialize (IH s1). unfold bind in IH.
    destruct (for_in run_tool tus s1) as [[bs | e] s2]; [| discriminate].
    cbn [ret]. intros [= _ <-].
    destruct (IH s2 (concat bs) eq_refl) as (He' & Hr' & Ht' & Ho').
    repeat split; try congruence.
    + rewrite Ht', Ht. cbn [List.filter].
      destruct (is_tool_use tu); cbn [length]; lia.
    + intros Hn. rewrite Ho' by congruence. auto.
Qed.

Lemma record_response_state (r : response) (s : session) :
  tool_executor (record_response r s) = tool_executor s
  /\ os (record_response r s) = os s
  /\ requests (session_stats (record_response r s))
     = (requests (session_stats s) + 1)%Z
  /\ tool_calls (session_stats (record_response r s))
     = tool_calls (session_stats s).
Proof. unfold record_response. destruct (resp_usage r); cbn; auto. Qed.

Lemma tool_requests_app (l1 l2 : list message) :
  tool_requests (l1 ++ l2) = tool_requests l1 + tool_requests l2.
Proof.
  unfold tool_requests.
  now rewrite List.filter_app, flat_map_app, length_app.
Qed.

Lemma filter_idem {A} (f : A -> bool) (l : list A) :
  List.filter f (List.filter f l) = List.filter f l.
Proof.
  induction l as [| x l IH]; [reflexivity |]. cbn [List.filter].
  destruct (f x) eqn:Hx; [| exact IH]. cbn [List.filter]. now rewrite Hx, IH.
Qed.

Lemma api_tool_ids_length (l : list api_block) :
  length (api_tool_ids l) = length (List.filter is_tool_use l).
Proof.
  unfold api_tool_ids. induction l as [| b l IH]; [reflexivity |].
  destruct b; cbn; auto.
Qed.

Lemma tool_requests_assistant (msg : message) :
  role msg = "assistant"%string ->
  tool_requests [msg] = length (tool_use_ids msg).
Proof.
  intros H. unfold tool_requests. cbn [List.filter]. rewrite H.
  change (String.eqb "assistant" "assistant") with true.
  cbn [flat_map]. now rewrite app_nil_r.
Qed.

Lemma tool_requests_tool_use_message (r : response) :
  tool_requests [tool_use_message r]
  = length (List.filter is_tool_use (resp_content r)).
Proof.
  rewrite tool_requests_assistant by reflexivity.
  unfold tool_use_message.
  rewrite tool_use_ids_serialize. apply api_tool_ids_length.
Qed.

Lemma tool_requests_final (events : list event) (r : response) :
  requests_tools r = false -> tool_requests [final_message events r] = 0.
Proof.
  intros H.
  rewrite tool_requests_assistant by apply final_message_role.
  unfold requests_tools, final_message in *.
  destruct (String.eqb (stop_reason r) "tool_use"); cbn [andb] in H.
  - rewrite tool_use_ids_serialize, api_tool_ids_length.
    fold (tool_uses_of r). now destruct (tool_uses_of r).
  - reflexivity.
Qed.

Lemma tool_requests_user (c : content) : tool_requests [Message "user" c] = 0.
Proof. reflexivity. Qed.

(** The loop of a turn keeps the counters in step with the conversation
    and leaves the set-up alone. *)
Lemma turn_loop_state (fuel : nat) : forall i s res s',
  turn_loop fuel i s = Some (res, s') ->
  exists l,
    messages s' = messages s ++ l
    /\ requests (session_stats s')
       = (requests (session_stats s) + Z.of_nat (count_role "assistant" l))%Z
    /\ tool_calls (session_stats s')
       = (tool_calls (session_stats s) + Z.of_nat (tool_requests l))%Z
    /\ cache_ttl s' = cache_ttl s
    /\ tool_executor s' = tool_executor s
    /\ (tool_executor s = None -> os s' = os s).
Proof.
  induction fuel as [| fuel IH]; intros i s res s'; [discriminate |].
  cbn [Session.turn_loop].
  destruct (stream i _) as [events r | events e].
  - destruct (record_response_state r s) as (He & Ho & Hr & Ht).
    destruct (record_response_messages r s) as [Hm Hc].
    destruct (negb (requests_tools r)) eqn:Hreq.
    + intros [= _ <-]. exists [final_message events r].
      cbn [append_message set_messages messages session_stats cache_ttl
           tool_executor os].
      rewrite Hm, Hr, Ht, Hc, He, Ho.
      apply negb_true_iff in Hreq.
      rewrite (tool_requests_final events r Hreq).
      unfold count_role. cbn [List.filter].
      rewrite (proj1 (final_message_role events r)).
      change (String.eqb "assistant" "assistant") with true.
      cbn [length]. repeat split; lia.
    + destruct (run_tools_returns time subprocess_run (tool_uses_of r)
                  (append_message (tool_use_message r) (record_response r s)))
        as (results & s1 & Hrun).
      fold run_tools in Hrun. rewrite Hrun.
      pose proof (keeps_run_tools time subprocess_run _ _ _ _ Hrun)
        as [Hkm Hkc].
      apply run_tools_state in Hrun as (He1 & Hr1 & Ht1 & Ho1).
      cbn [append_message set_messages messages session_stats cache_ttl
           tool_executor os] in *.
      intros Hrest. apply IH in Hrest as (l & Hl & Hrl & Htl & Hcl & Hel & Hol).
      cbn [append_message set_messages messages session_stats cache_ttl
           tool_executor os] in *.
      exists (tool_use_message r :: Message "user" (Blocks results) :: l).
      repeat split.
      * rewrite Hl, Hkm, Hm, <- !app_assoc. reflexivity.
      * rewrite Hrl, Hr1, Hr. unfold count_role. cbn [List.filter role tool_use_message].
        change (String.eqb "assistant" "assistant") with true.
        change (String.eqb "user" "assistant") with false.
        cbn [length]. lia.
      * rewrite Htl, Ht1, Ht.
        change (tool_use_message r :: Message "user" (Blocks results) :: l)
          with ([tool_use_message r] ++ [Message "user" (Blocks results)] ++ l).
        rewrite !tool_requests_app, tool_requests_tool_use_message,
          tool_requests_user.
        unfold tool_uses_of. rewrite filter_idem. lia.
      * congruence.
      * congruence.
      * intros Hn. rewrite Hol by congruence. rewrite Ho1 by congruence.
        exact Ho.
  - intros [= _ <-]. exists []. rewrite app_nil_r. cbn. repeat split; lia.
Qed.


Lemma count_assistant_user (l : list message) (msg : message) :
  role msg = "user"%string ->
  count_role "assistant" (l ++ [msg]) = count_role "assistant" l
  /\ tool_requests (l ++ [msg]) = tool_requests l.
Proof.
  intros H. rewrite count_role_app, tool_requests_app.
  unfold count_role, tool_requests. cbn [List.filter]. rewrite H.
  change (String.eqb "user" "assistant") with false. cbn. lia.
Qed.

(** What the [except] clause leaves of a conversation. *)
Lemma rollback_messages (s : session) (l : list message) (msg : message) :
  messages s = l ++ [msg] ->
  messages (rollback s)
  = if String.eqb (role msg) "user" then l else l ++ [msg].
Proof.
  intros H. unfold rollback, set_messages. rewrite H, last_snoc.
  destruct (String.eqb (role msg) "user"); cbn [messages];
    [apply removelast_last | exact H].
Qed.

Lemma rollback_state (s : session) :
  session_stats (rollback s) = session_stats s
  /\ cache_ttl (rollback s) = cache_ttl s
  /\ tool_executor (rollback s) = tool_executor s
  /\ os (rollback s) = os s.
Proof.
  unfold rollback. destruct (last (messages s)) as [msg |]; [| auto].
  destruct (String.eqb (role msg) "user"); auto.
Qed.

(** X11.  Whenever a turn ends, with or without an error, the earlier
    messages of the conversation are still there, unchanged and in order,
    and the counters agree with what the turn has added after them:
    [requests] has grown by the number of assistant messages added and
    [tool_calls] by the number of tool requests in them. *)
Theorem send_message_accounts (fuel : nat) (user_input : string)
    (s s' : session) :
  send_message fuel user_input s = Some s' ->
  exists l,
    messages s' = messages s ++ l
    /\ requests (session_stats s')
       = (requests (session_stats s) + Z.of_nat (count_role "assistant" l))%Z
    /\ tool_calls (session_stats s')
       = (tool_calls (session_stats s) + Z.of_nat (tool_requests l))%Z.
Proof.
  unfold Session.send_message.
  destruct (turn_loop fuel 0 _) as [[[[] | e] s1] |] eqn:Hloop;
    [| | discriminate];
    apply turn_loop_state in Hloop as (l & Hl & Hr & Ht & _);
    cbn [append_message set_messages messages session_stats] in *;
    intros [= <-].
  - exists (Message "user" (Str user_input) :: l).
    split; [now rewrite Hl, <- app_assoc |].
    change (Message "user" (Str user_input) :: l)
      with ([Message "user" (Str user_input)] ++ l).
    rewrite count_role_app, tool_requests_app. split; [exact Hr | exact Ht].
  - destruct (rollback_state s1) as (Hs & _). rewrite Hs.
    assert (Hshape : exists l0 msg,
              messages s ++ [Message "user" (Str user_input)] ++ l = l0 ++ [msg]
              /\ (l = [] /\ l0 = messages s
                         /\ msg = Message "user" (Str user_input)
                  \/ exists l1, l = l1 ++ [msg]
                     /\ l0 = messages s ++ Message "user" (Str user_input) :: l1)).
    { destruct l as [| x l _] using rev_ind.
      - exists (messages s), (Message "user" (Str user_input)). auto.
      - exists (messages s ++ Message "user" (Str user_input) :: l), x.
        split; [now rewrite <- !app_assoc | right; eauto]. }
    destruct Hshape as (l0 & msg & Hsplit & Hcases).
    rewrite <- app_assoc in Hl. rewrite Hsplit in Hl.
    rewrite (rollback_messages s1 l0 msg Hl).
    destruct Hcases as [(-> & -> & ->) | (l1 & -> & ->)].
    + exists []. cbn [role]. change (String.eqb "user" "user") with true.
      rewrite app_nil_r. auto.
    + destruct (String.eqb (role msg) "user") eqn:Hrole.
      * apply String.eqb_eq in Hrole.
        destruct (count_assistant_user l1 msg Hrole) as [Hc Htr].
        rewrite Hc in Hr. rewrite Htr in Ht.
        exists (Message "user" (Str user_input) :: l1). split; [reflexivity |].
        change (Message "user" (Str user_input) :: l1)
          with ([Message "user" (Str user_input)] ++ l1).
        rewrite count_role_app, tool_requests_app. split; [exact Hr | exact Ht].
      * exists (Message "user" (Str user_input) :: l1 ++ [msg]).
        split; [now rewrite <- app_assoc |].
        change (Message "user" (Str user_input) :: l1 ++ [msg])
          with ([Message "user" (Str user_input)] ++ (l1 ++ [msg])).
        rewrite count_role_app, tool_requests_app. split; [exact Hr | exact Ht].
Qed.

(** X12.  Whenever a turn ends, with or without an error, the cache TTL and
    the tool executor of the session are what they were, and when no tool
    executor is configured the file system and the trace of system calls are
    untouched, whatever tools the remote model has asked for. *)
Theorem send_message_keeps_setup (fuel : nat) (user_input : string)
    (s s' : session) :
  send_message fuel user_input s = Some s' ->
  cache_ttl s' = cache_ttl s
  /\ tool_executor s' = tool_executor s
  /\ (tool_executor s = None -> os s' = os s).
Proof.
  unfold Session.send_message.
  destruct (turn_loop fuel 0 _) as [[[[] | e] s1] |] eqn:Hloop;
    [| | discriminate];
    apply turn_loop_state in Hloop as (l & _ & _ & _ & Hc & He & Ho);
    cbn [append_message set_messages cache_ttl tool_executor os] in *;
    intros [= <-]; [auto |].
  destruct (rollback_state s1) as (_ & Hc' & He' & Ho').
  rewrite Hc', He', Ho'. auto.
Qed.

(** ** The file system during a turn *)

(** The file system is well formed and the project root is a directory
    in it. *)
Local Abbreviation project_at root w :=
  (Fs.well_formed (Fs.files w) = true /\ Fs.files w !! root = Some Fs.Dir).






(** ** The shape of the conversation *)

Lemma alternates_snoc (l : list message) (msg : message) : forall b,
  alternates_from b (l ++ [msg])
  = alternates_from b l
    && String.eqb (role msg)
         (if xorb b (Nat.odd (length l)) then "user" else "assistant").
Proof.
  induction l as [| x l IH]; intros b.
  - cbn. rewrite andb_true_r. now destruct b.
  - cbn [app alternates_from length]. rewrite IH, Nat.odd_succ.
    rewrite <- Nat.negb_odd, andb_assoc. now destruct b, (Nat.odd (length l)).
Qed.

Lemma complete_then_user (l : list message) (msg : message) :
  complete_exchanges l = true -> role msg = "user"%string ->
  awaits_answer (l ++ [msg]) = true.
Proof.
  unfold complete_exchanges, awaits_answer. intros H Hrole.
  apply andb_prop in H as [Halt Heven].
  rewrite alternates_snoc, Halt, length_app, Nat.add_1_r, Nat.odd_succ, Heven.
  rewrite <- Nat.negb_even, Heven, Hrole. reflexivity.
Qed.

Lemma awaiting_then_assistant (l : list message) (msg : message) :
  awaits_answer l = true -> role msg = "assistant"%string ->
  complete_exchanges (l ++ [msg]) = true.
Proof.
  unfold complete_exchanges, awaits_answer. intros H Hrole.
  apply andb_prop in H as [Halt Hodd].
  rewrite alternates_snoc, Halt, length_app, Nat.add_1_r, Nat.even_succ, Hodd.
  rewrite Hrole. reflexivity.
Qed.

Lemma awaiting_pop (l : list message) (msg : message) :
  awaits_answer (l ++ [msg]) = true ->
  complete_exchanges l = true /\ role msg = "user"%string.
Proof.
  unfold complete_exchanges, awaits_answer.
  rewrite alternates_snoc, length_app, Nat.add_1_r, Nat.odd_succ.
  intros H. apply andb_prop in H as [H Heven].
  apply andb_prop in H as [Halt Hrole].
  rewrite Halt, Heven. split; [reflexivity |].
  rewrite <- Nat.negb_even, Heven in Hrole. now apply String.eqb_eq in Hrole.
Qed.

(** The loop of a turn starts on a conversation that awaits an answer
    and leaves one of complete exchanges, or one that awaits an answer if
    it ends with an exception. *)
Lemma turn_loop_shape (fuel : nat) : forall i s res s',
  awaits_answer (messages s) = true ->
  turn_loop fuel i s = Some (res, s') ->
  match res with
  | Ok _ => complete_exchanges (messages s') = true
  | Raise _ => awaits_answer (messages s') = true
  end.
Proof.
  induction fuel as [| fuel IH]; intros i s res s' Hs; [discriminate |].
  cbn [Session.turn_loop].
  destruct (stream i _) as [events r | events e].
  - destruct (record_response_messages r s) as [Hm _].
    destruct (negb (requests_tools r)).
    + intros [= <- <-]. cbn [append_message set_messages messages].
      rewrite Hm. apply awaiting_then_assistant; [exact Hs |].
      apply final_message_role.
    + destruct (run_tools_returns time subprocess_run (tool_uses_of r)
                  (append_message (tool_use_message r) (record_response r s)))
        as (results & s1 & Hrun).
      fold run_tools in Hrun. rewrite Hrun.
      apply keeps_run_tools in Hrun as [Hkm _].
      cbn [append_message set_messages messages] in Hkm.
      apply IH. cbn [append_message set_messages messages].
      rewrite Hkm, Hm. apply complete_then_user; [| reflexivity].
      now apply awaiting_then_assistant.
  - now intros [= <- <-].
Qed.

(** X14.  Whenever a turn ends, with or without an error, a conversation of
    complete exchanges is one again: if user and assistant messages
    alternated before the turn, starting with the user and ending with the
    assistant (or there was no message), they do so after it, the tool
    rounds of the turn included. *)
Theorem send_message_keeps_exchanges_complete (fuel : nat)
    (user_input : string) (s s' : session) :
  complete_exchanges (messages s) = true ->
  send_message fuel user_input s = Some s' ->
  complete_exchanges (messages s') = true.
Proof.
  intros Hs. unfold Session.send_message.
  assert (Hstart : awaits_answer
                     (messages (append_message
                                  (Message "user" (Str user_input)) s))
                   = true)
    by now apply complete_then_user.
  destruct (turn_loop fuel 0 _) as [[[[] | e] s1] |] eqn:Hloop;
    [| | discriminate];
    apply (turn_loop_shape fuel _ _ _ _ Hstart) in Hloop;
    intros [= <-]; [exact Hloop |].
  destruct (messages s1) as [| x l _] eqn:Hl using rev_ind;
    [discriminate |].
  apply awaiting_pop in Hloop as [Hl0 Hrole].
  rewrite (rollback_messages s1 l x Hl), Hrole.
  exact Hl0.
Qed.

(** ** Where a failure comes from *)

(** X15.  Tools never fail a turn: when the loop of a turn ends with an
    exception, that exception was raised by a streaming request, namely the
    request for the conversation as the loop leaves it; whatever a tool does
    ends up in its tool result. *)
Theorem turn_fails_only_on_transport (fuel i : nat) (s s' : session)
    (e : exn) :
  turn_loop fuel i s = Some (Raise e, s') ->
  exists j events,
    stream j (prepare_messages_for_cache (messages s') (cache_ttl s'))
    = StreamError events e.
Proof.
  revert i s. induction fuel as [| fuel IH]; intros i s; [discriminate |].
  cbn [Session.turn_loop].
  destruct (stream i _) as [events r | events e'] eqn:Hstream.
  - destruct (negb (requests_tools r)); [discriminate |].
    destruct (run_tools_returns time subprocess_run (tool_uses_of r)
                (append_message (tool_use_message r) (record_response r s)))
      as (results & s1 & Hrun).
    fold run_tools in Hrun. rewrite Hrun. apply IH.
  - intros [= <- <-]. eauto.
Qed.

End Facts.
(** [send_message_accounts] at the turn with one tool round. *)
Lemma send_message_accounts_witness :
  exists l,
    messages Cases.after_read = messages Demo.session0 ++ l
    /\ requests (session_stats Cases.after_read)
       = (requests (session_stats Demo.session0)
          + Z.of_nat (count_role "assistant" l))%Z
    /\ tool_calls (session_stats Cases.after_read)
       = (tool_calls (session_stats Demo.session0)
          + Z.of_nat (tool_requests l))%Z.
Proof.
  apply (send_message_accounts
           (Demo.scripted [Demo.wants_file; Demo.answers])
           Demo.clock Demo.quiet_shell 2 "Read a.txt" Demo.session0).
  vm_compute. reflexivity.
Defined.

(** In that turn: two requests and one tool call. *)
Example counters_of_one_tool_round :
  requests (session_stats Cases.after_read) = 2%Z
  /\ tool_calls (session_stats Cases.after_read) = 1%Z.
Proof. split; vm_compute; reflexivity. Qed.

(** [send_message_keeps_setup] at the same exchange in a session without
    a tool executor. *)
Lemma send_message_keeps_setup_witness :
  cache_ttl Cases.after_bare = cache_ttl Cases.bare_session
  /\ tool_executor Cases.after_bare = tool_executor Cases.bare_session
  /\ (tool_executor Cases.bare_session = None ->
      os Cases.after_bare = os Cases.bare_session).
Proof.
  apply (send_message_keeps_setup
           (Demo.scripted [Demo.wants_file; Demo.answers])
           Demo.clock Demo.quiet_shell 2 "Read a.txt" Cases.bare_session).
  vm_compute. reflexivity.
Defined.

(** Without an executor the tool request is answered with an error. *)
Example tool_request_without_executor :
  nth 4 (messages Cases.after_bare) (Message EmptyString (Str EmptyString))
  = Message "user"
      (Blocks [plain (ToolResult "toolu_1"
                        "Error: Tool executor not configured")]).
Proof. vm_compute. reflexivity. Qed.



(** [send_message_keeps_exchanges_complete] at the turn with one tool
    round. *)
Lemma send_message_keeps_exchanges_complete_witness :
  complete_exchanges (messages Cases.after_read) = true.
Proof.
  apply (send_message_keeps_exchanges_complete
           (Demo.scripted [Demo.wants_file; Demo.answers])
           Demo.clock Demo.quiet_shell 2 "Read a.txt" Demo.session0).
  - reflexivity.
  - vm_compute. reflexivity.
Defined.

(** So it is after a failure that follows a tool round, although the
    last tool request is left without its result. *)
Example exchanges_after_a_failed_round :
  complete_exchanges
    (messages
       (default Demo.session0
          (Session.send_message (Demo.scripted [Demo.wants_file]) Demo.clock
             Demo.quiet_shell 2 "Read a.txt" Demo.session0)))
  = true.
Proof. vm_compute. reflexivity. Qed.

(** [turn_fails_only_on_transport] at a transport that fails after one
    tool round. *)
Lemma turn_fails_only_on_transport_witness :
  exists j events,
    Demo.scripted [Demo.wants_file] j
      (prepare_messages_for_cache (messages Cases.failed_turn)
         (cache_ttl Cases.failed_turn))
    = StreamError events Demo.connection_error.
Proof.
  apply (turn_fails_only_on_transport (Demo.scripted [Demo.wants_file])
           Demo.clock Demo.quiet_shell 2 0
           (append_message (Message "user" (Str "Read a.txt")) Demo.session0)).
  vm_compute. reflexivity.
Defined.


End TurnFacts.

(* ===================================================================== *)
(** * The rate window over a session *)
(* ===================================================================== *)

Module WindowFacts.
Import RateLimiter RateLimiterFacts Window.
Local Open Scope list_scope.







(** The hypothesis on the clock is needed: after a step back of the clock
    a call of the last minute is missing from the window. *)
Example clock_going_back_loses_calls :
  let times := [0; 100; 50]%Q in
  snd (_check_tool_rate 55 (calls times)) = [100; 50; 55]%Q
  /\ List.filter (recent 55) times = [0; 100; 50]%Q.
Proof. split; reflexivity. Qed.

End WindowFacts.

(* ===================================================================== *)
(** * Properties of the estimate, the transcript parser and the import *)
(* ===================================================================== *)

Module ConversationFacts.
Import Py Cache Conversation.
Local Open Scope list_scope.

Lemma add_blocks_plus (l : list block) : forall total,
  add_blocks total l = total + add_blocks 0 l.
Proof.
  unfold add_blocks. induction l as [| b l IH]; intros total; cbn [fold_left].
  - lia.
  - rewrite IH, (IH (match body b with Text t => 0 + PyStr.len t | _ => 0 end)).
    destruct (body b); lia.
Qed.

Lemma add_messages_plus (l : list message) : forall total,
  add_messages total l = total + add_messages 0 l.
Proof.
  unfold add_messages. induction l as [| m l IH]; intros total;
    cbn [fold_left].
  - lia.
  - rewrite IH.
    rewrite (IH (match msg_content m with
                 | Str s => 0 + PyStr.len s
                 | Blocks bs => add_blocks 0 bs
                 end)).
    destruct (msg_content m) as [s | bs]; [lia |].
    rewrite (add_blocks_plus bs total). lia.
Qed.

Lemma add_messages_app (l1 l2 : list message) :
  add_messages 0 (l1 ++ l2) = add_messages 0 l1 + add_messages 0 l2.
Proof.
  unfold add_messages at 1. rewrite fold_left_app.
  fold (add_messages 0 l1). fold (add_messages (add_messages 0 l1) l2).
  apply add_messages_plus.
Qed.

Lemma add_blocks_text_only (l : list block) : forall total,
  add_blocks total (List.filter is_text l) = add_blocks total l.
Proof.
  unfold add_blocks, is_text. induction l as [| b l IH]; intros total;
    [reflexivity |].
  cbn [List.filter fold_left].
  destruct (body b) eqn:Hb; cbn [fold_left]; rewrite ?Hb; apply IH.
Qed.

Lemma add_blocks_no_text (l : list block) : forall total,
  existsb is_text l = false -> add_blocks total l = total.
Proof.
  unfold add_blocks, is_text. induction l as [| b l IH]; intros total;
    [reflexivity |].
  cbn [existsb fold_left]. intros H. apply orb_false_elim in H as [Hb Hl].
  destruct (body b); try discriminate; now apply IH.
Qed.

Lemma add_messages_text_only (l : list message) : forall total,
  add_messages total (map text_only l) = add_messages total l.
Proof.
  unfold add_messages. induction l as [| m l IH]; intros total;
    [reflexivity |].
  cbn [map fold_left]. rewrite IH. f_equal.
  unfold text_only. destruct (msg_content m) as [s | bs] eqn:Hm.
  - now rewrite Hm.
  - cbn [msg_content]. apply add_blocks_text_only.
Qed.

(** X17.  [token_estimate] counts plain strings and text blocks only: the
    estimate of a conversation is that of its text blocks alone, it does not
    decrease when messages are appended, and a message made of tool results,
    tool requests or thinking blocks adds nothing to it, however long they
    are. *)
Theorem token_estimate_counts_text_only (messages : list message) :
  token_estimate (map text_only messages) = token_estimate messages
  /\ (forall extra,
        token_estimate messages <= token_estimate (messages ++ extra))
  /\ (forall r results,
        existsb is_text results = false ->
        token_estimate (messages ++ [Message r (Blocks results)])
        = token_estimate messages).
Proof.
  unfold token_estimate. split; [| split].
  - now rewrite add_messages_text_only.
  - intros extra. rewrite add_messages_app.
    apply Nat.Div0.div_le_mono. lia.
  - intros r results Hno. rewrite add_messages_app.
    unfold add_messages at 2. cbn [fold_left msg_content].
    rewrite (add_blocks_no_text results 0 Hno). now rewrite Nat.add_0_r.
Qed.

Section Parser.

Variable user_patterns : string -> option string.
Variable assistant_patterns : string -> option string.
Variable strip : string -> string.

Local Abbreviation save_previous := (save_previous strip).
Local Abbreviation parse_line :=
  (parse_line user_patterns assistant_patterns strip).
Local Abbreviation is_marker := (is_marker user_patterns assistant_patterns).

(** What the loop keeps true: the messages so far are well formed, the
    current role is a role, and there are no more messages, the current
    one included, than markers seen. *)
Local Abbreviation parser_ok st markers :=
  (Forall (stripped_turn strip) (parsed st)
   /\ (forall r, current_role st = Some r ->
         r = "user"%string \/ r = "assistant"%string)
   /\ length (parsed st)
      + (match current_role st with Some _ => 1 | None => 0 end)
      <= markers).

Lemma save_previous_ok (st : parser) (markers : nat) :
  parser_ok st markers ->
  Forall (stripped_turn strip) (save_previous st)
  /\ length (save_previous st) <= markers.
Proof.
  intros (Hall & Hrole & Hlen). unfold Conversation.save_previous.
  destruct (current_role st) as [r |]; [| split; [exact Hall | lia]].
  destruct (current_content st) as [| x content]; [split; [exact Hall | lia] |].
  cbv zeta. destruct (nonempty _) eqn:Htext; [| split; [exact Hall | lia]].
  split.
  - apply Forall_app. split; [exact Hall |]. constructor; [| constructor].
    split; [now apply Hrole |]. eexists. split; [reflexivity |].
    intros E. rewrite E in Htext. discriminate.
  - rewrite length_app. cbn [length]. lia.
Qed.

Lemma parse_line_ok (st : parser) (markers : nat) (line : string) :
  parser_ok st markers ->
  parser_ok (parse_line st line)
            (markers + if is_marker line then 1 else 0).
Proof.
  intros Hok. pose proof (save_previous_ok st markers Hok) as [Hall' Hlen'].
  destruct Hok as (Hall & Hrole & Hlen).
  unfold Conversation.parse_line, Conversation.is_marker.
  destruct (user_patterns line) as [rest |].
  - cbn [parsed current_role]. repeat split; [exact Hall' | | lia].
    intros r [= <-]. now left.
  - destruct (assistant_patterns line) as [rest |].
    + cbn [parsed current_role]. repeat split; [exact Hall' | | lia].
      intros r [= <-]. now right.
    + rewrite Nat.add_0_r.
      destruct (String.prefix "[Context:" line || _);
        [repeat split; assumption |].
      destruct (current_role st) as [r |] eqn:Hr.
      * cbn [parsed current_role]. rewrite ?Hr. repeat split; assumption.
      * rewrite ?Hr. repeat split; assumption.
Qed.

Lemma parse_lines_ok (lines : list string) : forall st markers,
  parser_ok st markers ->
  parser_ok (fold_left parse_line lines st)
            (markers + length (List.filter is_marker lines)).
Proof.
  induction lines as [| line lines IH]; intros st markers Hok;
    cbn [fold_left List.filter].
  - now rewrite Nat.add_0_r.
  - apply (parse_line_ok st markers line) in Hok.
    apply IH in Hok.
    destruct (is_marker line); cbn [length] in *.
    + now replace (markers + S (length (List.filter is_marker lines)))
        with (markers + 1 + length (List.filter is_marker lines)) by lia.
    + now rewrite Nat.add_0_r in Hok.
Qed.

(** X18.  Whatever the patterns match and [strip] strips, every message
    parsed from a compressed transcript has the role [user] or [assistant]
    and a stripped, non-empty string as content; there are no more messages
    than lines that start with a turn marker, and a transcript without such
    a line gives no message. *)
Theorem parsed_transcript_is_well_formed (content : string) :
  let messages :=
    _parse_compressed_transcript user_patterns assistant_patterns strip
      content in
  Forall (stripped_turn strip) messages
  /\ length messages
     <= length (List.filter is_marker (PyStr.split PyStr.lf content))
  /\ (List.filter is_marker (PyStr.split PyStr.lf content) = [] ->
      messages = []).
Proof.
  cbv zeta. unfold _parse_compressed_transcript.
  set (lines := PyStr.split PyStr.lf content).
  assert (Hstart : parser_ok (Parser [] None []) 0).
  { cbn. repeat split; [constructor | discriminate | lia]. }
  apply (parse_lines_ok lines) in Hstart.
  apply save_previous_ok in Hstart as [Hall Hlen]. cbn [Nat.add] in Hlen.
  split; [exact Hall |]. split; [exact Hlen |].
  intros Hnone. rewrite Hnone in Hlen. cbn in Hlen.
  now apply length_zero_iff_nil, Nat.le_0_r.
Qed.

End Parser.

(** ** The import *)

Lemma turns_alternate_snoc (l : list turn) (a b : turn) :
  alternates (l ++ [a]) = true ->
  String.eqb (turn_role a) (turn_role b) = false ->
  alternates ((l ++ [a]) ++ [b]) = true.
Proof.
  induction l as [| x l IH]; intros Hl Hab.
  - cbn. now rewrite Hab.
  - destruct l as [| y l].
    + cbn in *. apply andb_prop in Hl as [Hxa _]. now rewrite Hxa, Hab.
    + change (alternates (x :: y :: (l ++ [a]) ++ [b]) = true).
      change (alternates (x :: y :: l ++ [a]) = true) in Hl.
      cbn [alternates] in *. apply andb_prop in Hl as [Hxy Hrest].
      rewrite Hxy. cbn [andb]. now apply IH.
Qed.

Lemma turns_alternate_last_text (l : list turn) (a : turn) (text : string) :
  alternates (l ++ [a]) = true ->
  alternates (l ++ [Turn (turn_role a) text]) = true.
Proof.
  induction l as [| x l IH]; intros Hl; [reflexivity |].
  destruct l as [| y l].
  - cbn in *. exact Hl.
  - change (alternates (x :: y :: l ++ [a]) = true) in Hl.
    change (alternates (x :: y :: l ++ [Turn (turn_role a) text]) = true).
    cbn [alternates] in *. apply andb_prop in Hl as [Hxy Hrest].
    rewrite Hxy. cbn [andb]. now apply IH.
Qed.

Section Convert.

Variable strip : string -> string.
Variable include_thinking include_tool_use : bool.

Local Abbreviation convert_one :=
  (convert_one strip include_thinking include_tool_use).

Local Abbreviation is_role r := (r = "user"%string \/ r = "assistant"%string).

Lemma convert_one_roles (msg : export_message) :
  Forall (fun t => is_role (turn_role t)) (convert_one msg).
Proof.
  unfold Conversation.convert_one.
  destruct (String.eqb (sender msg) "human" || _); [| constructor].
  cbv zeta. destruct (nonempty _); [| constructor].
  constructor; [| constructor]. cbn [turn_role].
  destruct (String.eqb (sender msg) "human"); auto.
Qed.

Lemma merge_one_ok (merged : list turn) (msg : turn) :
  alternates merged = true ->
  Forall (fun t => is_role (turn_role t)) merged ->
  is_role (turn_role msg) ->
  alternates (merge_one merged msg) = true
  /\ Forall (fun t => is_role (turn_role t)) (merge_one merged msg).
Proof.
  intros Halt Hroles Hmsg. unfold merge_one.
  destruct merged as [| x merged _] using rev_ind.
  - cbn. split; [reflexivity | now constructor].
  - rewrite last_snoc, removelast_last.
    apply Forall_app in Hroles as [Hl Hx].
    destruct (String.eqb (turn_role x) (turn_role msg)) eqn:Hsame.
    + split; [now apply turns_alternate_last_text |].
      apply Forall_app. split; [exact Hl |].
      constructor; [| constructor]. now inversion Hx.
    + split; [now apply turns_alternate_snoc |].
      apply Forall_app. split; [now apply Forall_app |].
      now constructor.
Qed.

Lemma join_cons (sep x : string) (l : list string) :
  l <> [] -> PyStr.join sep (x :: l) = (x ++ sep ++ PyStr.join sep l)%string.
Proof. destruct l; [congruence | reflexivity]. Qed.

Lemma join_snoc_merged (sep : string) (l : list string) (a b : string) :
  PyStr.join sep ((l ++ [a]) ++ [b])
  = PyStr.join sep (l ++ [(a ++ sep ++ b)%string]).
Proof.
  induction l as [| x l IH]; [reflexivity |].
  change (PyStr.join sep (x :: (l ++ [a]) ++ [b])
          = PyStr.join sep (x :: l ++ [(a ++ sep ++ b)%string])).
  rewrite !join_cons by (now destruct l). now rewrite IH.
Qed.

Lemma merge_one_text (merged : list turn) (msg : turn) :
  PyStr.join (nl ++ nl) (map turn_text (merge_one merged msg))
  = PyStr.join (nl ++ nl) (map turn_text (merged ++ [msg])).
Proof.
  unfold merge_one. destruct merged as [| x merged _] using rev_ind;
    [reflexivity |].
  rewrite last_snoc, removelast_last.
  destruct (String.eqb (turn_role x) (turn_role msg)); [| reflexivity].
  rewrite !map_app. cbn [map turn_text].
  now rewrite join_snoc_merged.
Qed.

Lemma join_app (sep : string) (l1 l2 : list string) :
  l1 <> [] -> l2 <> [] ->
  PyStr.join sep (l1 ++ l2)
  = (PyStr.join sep l1 ++ sep ++ PyStr.join sep l2)%string.
Proof.
  intros H1 H2. induction l1 as [| x l1 IH]; [congruence |].
  destruct l1 as [| y l1].
  - cbn [app]. now rewrite join_cons.
  - change (PyStr.join sep (x :: (y :: l1) ++ l2)
            = (PyStr.join sep (x :: y :: l1) ++ sep ++ PyStr.join sep l2)%string).
    rewrite !join_cons by discriminate. rewrite IH by discriminate.
    now rewrite !TurnFacts.string_app_assoc.
Qed.

Lemma merge_one_nonempty (merged : list turn) (msg : turn) :
  merge_one merged msg <> [].
Proof.
  unfold merge_one. destruct (last merged) as [prev |].
  - destruct (String.eqb _ _); intros H; now apply app_eq_nil in H as [_ H].
  - intros H. now apply app_eq_nil in H as [_ H].
Qed.

(** Merging loses no text. *)
Lemma merge_text (messages : list turn) : forall merged,
  PyStr.join (nl ++ nl) (map turn_text (fold_left merge_one messages merged))
  = PyStr.join (nl ++ nl) (map turn_text (merged ++ messages)).
Proof.
  induction messages as [| msg messages IH]; intros merged; cbn [fold_left].
  - now rewrite app_nil_r.
  - rewrite IH.
    replace (merged ++ msg :: messages) with ((merged ++ [msg]) ++ messages)
      by now rewrite <- app_assoc.
    destruct messages as [| m messages].
    + rewrite !app_nil_r. apply merge_one_text.
    + rewrite !map_app.
      rewrite !(join_app _ _ (map turn_text (m :: messages)));
        try discriminate.
      * now rewrite merge_one_text, map_app.
      * intros H. now apply app_eq_nil in H as [_ H].
      * intros H. apply map_eq_nil in H. now apply merge_one_nonempty in H.
Qed.

(** X19.  In a converted export no two neighbouring messages have the same
    role, every role is [user] or [assistant], and merging loses no text:
    the texts of the merged messages joined by blank lines are the texts of
    the converted messages joined by blank lines. *)
Theorem imported_roles_alternate (chat_messages : list export_message) :
  let merged :=
    convert_socketteer_format strip include_thinking include_tool_use
      chat_messages in
  alternates merged = true
  /\ Forall (fun t => turn_role t = "user"%string
                      \/ turn_role t = "assistant"%string) merged
  /\ PyStr.join (nl ++ nl) (map turn_text merged)
     = PyStr.join (nl ++ nl)
         (map turn_text (flat_map convert_one chat_messages)).
Proof.
  cbv zeta. unfold convert_socketteer_format.
  enough (Hmain : alternates (fold_left merge_one
                               (flat_map convert_one chat_messages) []) = true
                   /\ Forall (fun t => is_role (turn_role t))
                        (fold_left merge_one
                           (flat_map convert_one chat_messages) [])).
  { destruct Hmain as [Halt Hroles].
    split; [exact Halt |]. split; [exact Hroles |]. apply (merge_text _ []). }
  assert (Hin : Forall (fun t => is_role (turn_role t))
                  (flat_map convert_one chat_messages)).
  { induction chat_messages as [| m l IH]; [constructor |].
    cbn [flat_map]. apply Forall_app. split; [apply convert_one_roles | exact IH]. }
  revert Hin. generalize (flat_map convert_one chat_messages) as messages.
  assert (Hstart : alternates [] = true
                   /\ Forall (fun t => is_role (turn_role t)) [])
    by (split; [reflexivity | constructor]).
  revert Hstart. generalize (@nil turn) as merged.
  intros merged Hstart messages. revert merged Hstart.
  induction messages as [| msg messages IH]; intros merged [Halt Hroles] Hin;
    cbn [fold_left]; [auto |].
  inversion Hin as [| ? ? Hmsg Hrest]; subst.
  apply IH; [| exact Hrest]. now apply merge_one_ok.
Qed.

End Convert.

(** A tool-result message of any size leaves the estimate as it is. *)
Example tool_results_are_not_counted :
  token_estimate Demo.stored0 = 3
  /\ token_estimate (Demo.stored0 ++ Cases.tool_round) = 3.
Proof. split; reflexivity. Qed.

(** Lines before the first marker are dropped, and a turn runs to the
    next marker. *)
Example parsed_turns :
  _parse_compressed_transcript Cases.says_user Cases.says_assistant
    (fun s => s) Cases.transcript
  = [Message "user" (Str Cases.two_lines);
     Message "assistant" (Str "hello");
     Message "user" (Str "bye")].
Proof. vm_compute. reflexivity. Qed.

(** The parser does not merge: two user turns in a row stay two user
    messages. *)
Example parsed_turns_need_not_alternate :
  map role
    (_parse_compressed_transcript Cases.says_user Cases.says_assistant
       (fun s => s) Cases.two_user_turns)
  = ["user"; "user"]%string.
Proof. vm_compute. reflexivity. Qed.

(** Two assistant messages in a row are merged; the sender [system] is
    skipped. *)
Example imported_turns :
  map turn_role
    (convert_socketteer_format (fun s => s) true true Cases.export)
  = ["user"; "assistant"; "user"]%string.
Proof. vm_compute. reflexivity. Qed.

End ConversationFacts.

(* ===================================================================== *)
(** * Resolved paths *)
(* ===================================================================== *)

Module ResolveFacts.
Import Py Fs FsFacts Frame SandboxFacts.
Local Open Scope list_scope.

Lemma split_slash_free (s : string) :
  Forall (fun c => PyStr.contains PyStr.slash c = false)
         (PyStr.split PyStr.slash s).
Proof.
  induction s as [| a s IH]; cbn [PyStr.split].
  - repeat constructor.
  - destruct (Ascii.eqb a PyStr.slash) eqn:Ha.
    + constructor; [reflexivity | exact IH].
    + destruct (PyStr.split PyStr.slash s) as [| w ws].
      * constructor; [| constructor]. cbn. now rewrite Ha.
      * inversion IH; subst. constructor; [| assumption].
        cbn [PyStr.contains]. now rewrite Ha.
Qed.

Lemma split_app_slash (c rest : string) :
  PyStr.contains PyStr.slash c = false ->
  PyStr.split PyStr.slash (c ++ String PyStr.slash rest)
  = c :: PyStr.split PyStr.slash rest.
Proof.
  induction c as [| a c IH]; intros Hc.
  - cbn. reflexivity.
  - cbn [PyStr.contains] in Hc. apply orb_false_elim in Hc as [Ha Hc].
    change (String a c ++ String PyStr.slash rest)%string
      with (String a (c ++ String PyStr.slash rest)).
    cbn [PyStr.split]. rewrite Ha, (IH Hc). reflexivity.
Qed.

Lemma split_one (c : string) :
  PyStr.contains PyStr.slash c = false -> PyStr.split PyStr.slash c = [c].
Proof.
  induction c as [| a c IH]; intros Hc; [reflexivity |].
  cbn [PyStr.contains] in Hc. apply orb_false_elim in Hc as [Ha Hc].
  cbn [PyStr.split]. now rewrite Ha, (IH Hc).
Qed.

Lemma split_join (p : path) :
  Forall (fun c => PyStr.contains PyStr.slash c = false) p -> p <> [] ->
  PyStr.split PyStr.slash (PyStr.join "/" p) = p.
Proof.
  induction p as [| c p IH]; intros Hp Hne; [congruence |].
  inversion Hp as [| ? ? Hc Hrest]; subst.
  destruct p as [| d p].
  - cbn [PyStr.join]. now apply split_one.
  - change (PyStr.join "/" (c :: d :: p))
      with (c ++ String PyStr.slash (PyStr.join "/" (d :: p)))%string.
    rewrite (split_app_slash _ _ Hc). f_equal. now apply IH.
Qed.

Lemma clean_slash_free (p : path) :
  Forall (fun c => clean c = true) p ->
  Forall (fun c => PyStr.contains PyStr.slash c = false) p.
Proof.
  intros H. eapply Forall_impl; [exact H |]. intros c Hc. unfold clean in Hc.
  apply andb_prop in Hc as [_ Hc]. now apply negb_true_iff.
Qed.

(** The components of a resolved path are names. *)
Lemma realpath_from_clean (fs : gmap path node) :
  forall links cur rest r,
    Forall (fun c => clean c = true) cur ->
    Forall (fun c => PyStr.contains PyStr.slash c = false) rest ->
    realpath_from links fs cur rest = Ok r ->
    Forall (fun c => clean c = true) r.
Proof.
  assert (Hparent : forall cur, Forall (fun c => clean c = true) cur ->
                                Forall (fun c => clean c = true) (parent cur)).
  { intros cur Hcur. destruct cur as [| a cur _] using rev_ind; [exact Hcur |].
    rewrite parent_snoc. now apply Forall_app in Hcur as [Hcur _]. }
  assert (Hsnoc : forall cur name,
            Forall (fun c => clean c = true) cur ->
            (String.eqb name EmptyString || String.eqb name ".") = false ->
            String.eqb name ".." = false ->
            PyStr.contains PyStr.slash name = false ->
            Forall (fun c => clean c = true) (cur ++ [name])).
  { intros cur name Hcur H1 H2 H3. apply Forall_app. split; [exact Hcur |].
    constructor; [| constructor]. unfold clean.
    apply orb_false_elim in H1 as [H0 H1]. now rewrite H0, H1, H2, H3. }
  induction links as [| links IH]; intros cur rest.
  - revert cur. induction rest as [| name rest IHrest]; intros cur r Hcur Hrest;
      cbn [realpath_from].
    + now intros [= <-].
    + inversion Hrest as [| ? ? Hname Hrest']; subst.
      destruct (String.eqb name EmptyString || String.eqb name ".") eqn:H1;
        [now apply IHrest |].
      destruct (String.eqb name "..") eqn:H2;
        [apply IHrest; auto |].
      destruct (readlink fs (cur ++ [name])) eqn:Hl; [discriminate |].
      apply IHrest; auto.
  - revert cur. induction rest as [| name rest IHrest]; intros cur r Hcur Hrest;
      cbn [realpath_from].
    + now intros [= <-].
    + inversion Hrest as [| ? ? Hname Hrest']; subst.
      destruct (String.eqb name EmptyString || String.eqb name ".") eqn:H1;
        [now apply IHrest |].
      destruct (String.eqb name "..") eqn:H2;
        [apply IHrest; auto |].
      destruct (readlink fs (cur ++ [name])) eqn:Hl.
      * apply IH.
        -- destruct (PyStr.starts_with_slash s); [constructor | exact Hcur].
        -- apply Forall_app. split; [apply split_slash_free | exact Hrest'].
      * apply IHrest; auto.
Qed.

(** Walking names that are not links appends them. *)
Lemma realpath_from_names (fs : gmap path node) (links : nat) :
  forall rest cur,
    Forall (fun c => clean c = true) rest ->
    link_free fs (cur ++ rest) ->
    realpath_from links fs cur rest = Ok (cur ++ rest).
Proof.
  assert (Hwalk : forall rest cur,
            Forall (fun c => clean c = true) rest ->
            link_free fs (cur ++ rest) ->
            (fix walk (cur : path) (rest : list string) {struct rest}
               : result path :=
               match rest with
               | [] => Ok cur
               | name :: rest' =>
                   if String.eqb name EmptyString || String.eqb name "."
                   then walk cur rest'
                   else if String.eqb name ".." then walk (parent cur) rest'
                   else match readlink fs (cur ++ [name]) with
                        | None => walk (cur ++ [name]) rest'
                        | Some target =>
                            match links with
                            | O => Raise (symlink_loop (cur ++ [name]))
                            | S links' =>
                                realpath_from links' fs
                                  (if PyStr.starts_with_slash target
                                   then [] else cur)
                                  (components target ++ rest')
                            end
                        end
               end) cur rest = Ok (cur ++ rest)).
  { induction rest as [| name rest IH]; intros cur Hrest Hlink.
    - now rewrite app_nil_r.
    - inversion Hrest as [| ? ? Hname Hrest']; subst. unfold clean in Hname.
      apply andb_prop in Hname as [Hname _].
      apply andb_prop in Hname as [Hname H3].
      apply andb_prop in Hname as [H1 H2].
      apply negb_true_iff in H1, H2, H3. rewrite H1, H2, H3. cbn [orb].
      assert (Hl : readlink fs (cur ++ [name]) = None).
      { apply Hlink. exists rest. now rewrite <- app_assoc. }
      rewrite Hl.
      replace (cur ++ name :: rest) with ((cur ++ [name]) ++ rest)
        by now rewrite <- app_assoc.
      apply IH; [exact Hrest' |]. now rewrite <- app_assoc. }
  intros rest cur Hrest Hlink. destruct links; apply Hwalk; assumption.
Qed.

Lemma realpath_from_empty (fs : gmap path node) (links : nat) (cur : path)
    (rest : list string) :
  realpath_from links fs cur (EmptyString :: rest)
  = realpath_from links fs cur rest.
Proof. destruct links; reflexivity. Qed.

(** Resolving a canonical path gives the path. *)
Lemma canonicalize_render (fs : gmap path node) (p r : path) :
  link_free fs p -> Forall (fun c => clean c = true) p ->
  canonicalize fs (render p) = Ok r -> r = p.
Proof.
  intros Hlink Hclean. unfold canonicalize, realpath.
  destruct (PyStr.contains PyStr.nul (render p)); [discriminate |].
  assert (Hparts : components (render p) = EmptyString :: p
                   \/ (p = [] /\ components (render p)
                                 = [EmptyString; EmptyString])).
  { unfold components, render.
    change ("/" ++ PyStr.join "/" p)%string
      with (String PyStr.slash (PyStr.join "/" p)).
    cbn [PyStr.split]. change (Ascii.eqb PyStr.slash PyStr.slash) with true.
    cbv iota. destruct p as [| c p]; [right; auto |]. left.
    rewrite split_join; [reflexivity | now apply clean_slash_free | discriminate]. }
  destruct Hparts as [-> | [-> ->]].
  - rewrite realpath_from_empty, realpath_from_names by assumption.
    now intros [= <-].
  - rewrite !realpath_from_empty. destruct max_links; now intros [= <-].
Qed.

Lemma canonicalize_clean (fs : gmap path node) (s : string) (r : path) :
  canonicalize fs s = Ok r -> Forall (fun c => clean c = true) r.
Proof.
  unfold canonicalize, realpath.
  destruct (PyStr.contains PyStr.nul s); [discriminate |].
  apply realpath_from_clean; [constructor | apply split_slash_free].
Qed.

End ResolveFacts.

(* ===================================================================== *)
(** * Properties of the tool settings *)
(* ===================================================================== *)

Module SettingsFacts.
Import Py Fs FsFacts Frame SandboxFacts ResolveFacts Settings.
Local Open Scope list_scope.

Section Commands.

Variable lower : string -> string.
Variable expanduser : string -> string.
Variable cwd : path.

Local Abbreviation tools_command := (tools_command lower expanduser cwd).
Local Abbreviation run_command := (run_command lower expanduser cwd).
Local Abbreviation run_commands := (run_commands lower expanduser cwd).

Lemma resolve_run (s : string) (w : world) :
  resolve s w
  = (match canonicalize (files w) s with
     | Ok p => Ok p
     | Raise e => Raise e
     end, World (files w) (trace w ++ [SysRealpath s])).
Proof.
  unfold resolve. run. now destruct (canonicalize (files w) s).
Qed.

(** X20.  [/tools] changes no file and never installs an executor on
    anything but an existing directory: on a well-formed file system, if the
    root of the executor was a directory before the command (or there was no
    executor), then after the command, whatever its argument, there is no
    executor or its root is a directory. *)
Theorem tools_command_installs_a_directory (arg : option string)
    (st st' : settings) (w w' : world) :
  well_formed (files w) = true ->
  root_is_dir (files w) st ->
  tools_command arg st w = (Ok st', w') ->
  files w' = files w /\ root_is_dir (files w') st'.
Proof.
  intros Hwf Hroot. unfold Settings.tools_command.
  destruct arg as [arg |]; [| intros [= <- <-]; auto].
  cbv zeta. destruct (among (lower arg) _).
  { intros [= <- <-]. split; [reflexivity |]. intros root. discriminate. }
  unfold new_executor, resolve_path. unfold bind at 1. rewrite resolve_run.
  destruct (canonicalize (files w) _) as [path | e] eqn:Hcanon;
    [| discriminate].
  pose proof (canonicalize_link_free _ _ _ Hwf Hcanon) as Hlink.
  pose proof (canonicalize_clean _ _ _ Hcanon) as Hclean.
  pose proof (stat_no_link _ _ (Hlink path (reflexivity path))) as Hstat.
  unfold bind at 1. rewrite exists_run. cbn [files trace]. rewrite Hstat.
  destruct (files w !! path) as [[d | | t] |] eqn:Hpath; cbn [negb].
  - unfold bind at 1. rewrite is_dir_run. cbn [files trace].
    rewrite Hstat. cbn. intros [= <- <-]. auto.
  - unfold bind at 1. rewrite is_dir_run. cbn [files trace].
    rewrite Hstat. cbn [is_dir_node negb].
    unfold bind. rewrite resolve_run. cbn [files trace].
    change (ToolExecutor.joinpath cwd (render path)) with (render path).
    destruct (canonicalize (files w) (render path)) as [root | e] eqn:Hroot2;
      [| discriminate].
    intros [= <- <-]. split; [reflexivity |]. cbn [files].
    intros r [= <-].
    now rewrite (canonicalize_render _ _ _ Hlink Hclean Hroot2).
  - pose proof (Hlink path (reflexivity path)) as H. unfold readlink in H.
    now rewrite Hpath in H.
  - intros [= <- <-]. auto.
Qed.

(** What every command keeps true: file tools are enabled exactly when
    there is an executor. *)
Local Abbreviation consistent st :=
  (tools_enabled st = is_some (tool_executor st)).

Lemma run_command_consistent (cmd : command) (st st' : settings)
    (w w' : world) :
  consistent st -> run_command cmd st w = (Ok st', w') -> consistent st'.
Proof.
  intros Hst. destruct cmd as [arg | arg | arg | c |]; cbn [Settings.run_command].
  - intros [= <- _]. unfold web_command. destruct arg as [arg |]; [| exact Hst].
    cbv zeta. destruct (among _ _); [exact Hst |].
    destruct (among _ _); exact Hst.
  - unfold Settings.tools_command. destruct arg as [arg |];
      [| now intros [= <- _]].
    cbv zeta. destruct (among _ _); [now intros [= <- _] |].
    unfold bind.
    destruct (resolve_path cwd (expanduser arg) w) as [[path | e] w1];
      [| discriminate].
    destruct (exists_ path w1) as [[e | e] w2]; [| discriminate].
    destruct (negb e); [now intros [= <- _] |].
    destruct (is_dir path w2) as [[d | e'] w3]; [| discriminate].
    destruct (negb d); [now intros [= <- _] |].
    destruct (new_executor cwd (render path) w3) as [[root | e'] w4];
      [| discriminate].
    now intros [= <- _].
  - intros [= <- _]. unfold shell_command. destruct arg as [arg |];
      [| exact Hst].
    cbv zeta. destruct (among _ _).
    + destruct (tool_executor st) eqn:Hexec; [| now rewrite Hexec].
      cbn. rewrite Hst. reflexivity.
    + destruct (among _ _); exact Hst.
  - unfold restore_settings. destruct (tools_path c) as [p |];
      [| now intros [= <- _]].
    destruct (ToolExecutor.nonempty p); [| now intros [= <- _]].
    unfold bind. destruct (new_executor cwd p w) as [[root | e] w1];
      [| discriminate].
    now intros [= <- _].
  - now intros [= <- _].
Qed.

Lemma run_commands_consistent (cmds : list command) : forall st st' w w',
  consistent st -> run_commands cmds st w = (Ok st', w') -> consistent st'.
Proof.
  induction cmds as [| cmd cmds IH]; intros st st' w w' Hst;
    cbn [Settings.run_commands].
  - now intros [= <- _].
  - unfold bind. destruct (run_command cmd st w) as [[st1 | e] w1] eqn:Hcmd;
      [| discriminate].
    apply (IH st1). exact (run_command_consistent _ _ _ _ _ Hst Hcmd).
Qed.

(** X21.  Whatever the user does to the tool settings from the start of the
    session on ([/web], [/tools], [/shell], loading or starting
    conversations), the tools list sent to the API never offers [shell_exec]
    without [list_dir], [read_file] and [write_file], nor when shell
    execution is disabled. *)
Theorem shell_tool_comes_with_file_tools (ws : bool) (cmds : list command)
    (st : settings) (w w' : world) :
  run_commands cmds (init ws) w = (Ok st, w') ->
  advertises "shell_exec" st = true ->
  advertises "list_dir" st = true
  /\ advertises "read_file" st = true
  /\ advertises "write_file" st = true
  /\ shell_enabled st = true.
Proof.
  intros Hrun. apply run_commands_consistent in Hrun; [| reflexivity].
  unfold advertises, _build_tools_list. rewrite Hrun.
  destruct (web_search_enabled st), (is_some (tool_executor st)),
    (shell_enabled st); cbn; intros H; auto; discriminate.
Qed.

End Commands.

(** [tools_command_installs_a_directory] at [/tools proj], given in
    [/srv]. *)
Lemma tools_command_installs_a_directory_witness :
  files (snd Cases.tools_on) = files Demo.world0
  /\ root_is_dir (files (snd Cases.tools_on)) Cases.after_tools.
Proof.
  apply (tools_command_installs_a_directory (fun s => s) (fun s => s) ["srv"]
           (Some "proj") (init false) Cases.after_tools Demo.world0
           (snd Cases.tools_on)).
  - vm_compute. reflexivity.
  - intros root. discriminate.
  - vm_compute. reflexivity.
Defined.

(** A regular file and a path that does not exist are refused. *)
Example tools_command_refuses_a_file :
  fst (Settings.tools_command (fun s => s) (fun s => s) ["srv"]
         (Some "proj/a.txt") (init false) Demo.world0)
  = Ok (init false)
  /\ fst (Settings.tools_command (fun s => s) (fun s => s) ["srv"]
            (Some "nowhere") (init false) Demo.world0)
     = Ok (init false).
Proof. split; vm_compute; reflexivity. Qed.

(** [shell_tool_comes_with_file_tools] at [/tools proj] followed by
    [/shell on]. *)
Lemma shell_tool_comes_with_file_tools_witness :
  advertises "list_dir" Cases.after_shell = true
  /\ advertises "read_file" Cases.after_shell = true
  /\ advertises "write_file" Cases.after_shell = true
  /\ shell_enabled Cases.after_shell = true.
Proof.
  apply (shell_tool_comes_with_file_tools (fun s => s) (fun s => s) ["srv"]
           false [Tools (Some "proj"); Shell (Some "on")]
           Cases.after_shell Demo.world0 (snd Cases.shell_on)).
  - vm_compute. reflexivity.
  - vm_compute. reflexivity.
Defined.

(** [/shell on] without an executor changes nothing, and [/tools off]
    takes the shell tool away with the file tools. *)
Example shell_needs_tools :
  shell_command (fun s => s) (Some "on") (init false) = init false
  /\ (st' <- Settings.tools_command (fun s => s) (fun s => s) ["srv"]
               (Some "off") Cases.after_shell ;;
      ret (_build_tools_list st'))%py Demo.world0
     = (Ok None, Demo.world0).
Proof. split; vm_compute; reflexivity. Qed.

End SettingsFacts.
